(** * DataZen: the data-quality pipeline

    A shallow embedding of the class [DataCleaner] (the cleaning
    pipeline: src/utils/fileProcessor.ts, lines 141-410) and of the class
    [DataAnalyzer] (statistics, correlation and anomaly detection:
    src/utils/exportService.ts, lines 293-488), together with the
    JavaScript built-ins they call, followed by the properties of the
    pipeline stated in the specification.

    Conventions.
    - A JavaScript number is a binary64 float ([PrimFloat.float]) and
      every arithmetic operation is the IEEE-754 one.
    - A JavaScript string is a [string] whose characters are the code
      units 0..255; code units above 255 are outside the model.
    - A cell ([any] in the source) is null, undefined, a number, a string
      or a boolean: what the CSV and spreadsheet readers and the cleaner
      itself put in a column.
    - Row and column counts are natural numbers.
    - An object used as a dictionary is a finite map on its keys; the
      key __proto__, which JavaScript treats specially, is outside the
      model.
    - [Date] parsing is host-defined; it is a parameter of the cleaner
      and of the file reader.

    The embedding also covers the CSV reader and the column summary of
    the class [FileProcessor] (src/utils/fileProcessor.ts, lines 17-58
    and 76-118), the recommendation synthesis of the analyzer
    (src/utils/exportService.ts, lines 294-301 and 490-557) and the text
    that [ExportService.exportToCSV] writes (lines 168-183). Reading a
    spreadsheet, the PDF report and the download itself go through
    libraries and the browser and are not modelled. *)

From Stdlib Require Import ZArith Floats Ascii String List Bool Lia DecimalString.
From stdpp Require Import gmap strings list fin_maps.
Import ListNotations.

(** * JavaScript built-ins *)

Module Js.

Local Open Scope string_scope.
Local Open Scope Z_scope.

(** ** Strings *)

(** WhiteSpace and LineTerminator code units below 256: TAB, LF, VT, FF,
    CR, SP and NBSP. *)
Definition isWhiteSpace (c : ascii) : bool :=
  let n := nat_of_ascii c in
  ((9 <=? n) && (n <=? 13) || (n =? 32) || (n =? 160))%nat.

Fixpoint trimStart (s : string) : string :=
  match s with
  | String c s' => if isWhiteSpace c then trimStart s' else s
  | EmptyString => EmptyString
  end.

Fixpoint trimEnd (s : string) : string :=
  match s with
  | EmptyString => EmptyString
  | String c s' =>
      match trimEnd s' with
      | EmptyString => if isWhiteSpace c then EmptyString else String c EmptyString
      | t => String c t
      end
  end.

Definition trim (s : string) : string := trimEnd (trimStart s).

(** [toLowerCase] on the code units below 256: A-Z and the accented
    capitals 192..222 (but the multiplication sign 215) move up by 32. *)
Definition lowerChar (c : ascii) : ascii :=
  let n := nat_of_ascii c in
  if ((65 <=? n) && (n <=? 90) || (192 <=? n) && (n <=? 222) && negb (n =? 215))%nat
  then ascii_of_nat (n + 32) else c.

Fixpoint toLowerCase (s : string) : string :=
  match s with
  | EmptyString => EmptyString
  | String c s' => String (lowerChar c) (toLowerCase s')
  end.

(** [s.includes(sub)] *)
Fixpoint includes (s sub : string) : bool :=
  String.prefix sub s ||
  match s with
  | EmptyString => false
  | String _ s' => includes s' sub
  end.

(** [s.replace(/[...]/g, '')] for a character class [drop] *)
Fixpoint removeChars (drop : ascii -> bool) (s : string) : string :=
  match s with
  | EmptyString => EmptyString
  | String c s' => if drop c then removeChars drop s' else String c (removeChars drop s')
  end.

(** ** Numbers *)

Definition isNaN (x : float) : bool := PrimFloat.is_nan x.

(** The number nearest to the rational [num/den] (ties to even), with
    the sign [neg]: the rounding of a numeric literal. *)
Definition ratToFloat (neg : bool) (num den : Z) : float :=
  match num, den with
  | Zpos n, Zpos d =>
      SF2Prim (SFdiv prec emax (S754_finite neg n 0) (S754_finite false d 0))
  | Z0, _ => if neg then PrimFloat.neg_zero else PrimFloat.zero
  | _, _ => nan
  end.

Definition ofZ (z : Z) : float := ratToFloat (z <? 0) (Z.abs z) 1.
Definition natToFloat (n : nat) : float := ofZ (Z.of_nat n).

(** The number nearest to [m * 10^e]. *)
Definition decToFloat (neg : bool) (m e : Z) : float :=
  if 0 <=? e then ratToFloat neg (m * 10 ^ e) 1 else ratToFloat neg m (10 ^ (- e)).

(** [Math.floor], [Math.ceil] *)
Definition floatFloor (x : float) : float :=
  match Prim2SF x with
  | S754_finite s m e =>
      if 0 <=? e then x
      else let d := 2 ^ (- e) in
           let q := Zpos m / d in
           if s then ofZ (- (if Zpos m mod d =? 0 then q else q + 1))
           else ofZ q
  | _ => x
  end.

Definition floatCeil (x : float) : float :=
  match Prim2SF x with
  | S754_finite s m e =>
      if 0 <=? e then x
      else let d := 2 ^ (- e) in
           let q := Zpos m / d in
           if s then ratToFloat true q 1
           else ofZ (if Zpos m mod d =? 0 then q else q + 1)
  | _ => x
  end.

(** The array index a number denotes when it is used as a property key:
    a non-negative integer (or -0); any other key reads [undefined]. *)
Definition floatToIndex (x : float) : option nat :=
  match Prim2SF x with
  | S754_zero _ => Some 0%nat
  | S754_finite false m e =>
      if 0 <=? e then Some (Z.to_nat (Zpos m * 2 ^ e))
      else if Zpos m mod 2 ^ (- e) =? 0 then Some (Z.to_nat (Zpos m / 2 ^ (- e))) else None
  | _ => None
  end.

(** ** String to number: [Number(s)], [parseFloat(s)], [parseInt(s)] *)

Definition digitVal (radix : Z) (c : ascii) : option Z :=
  let n := Z.of_nat (nat_of_ascii c) in
  let v := if (48 <=? n) && (n <=? 57) then n - 48
           else if (97 <=? n) && (n <=? 122) then n - 87
           else if (65 <=? n) && (n <=? 90) then n - 55
           else 99 in
  if v <? radix then Some v else None.

(** The longest prefix of digits: its value, the number of digits, and
    the rest of the string. *)
Fixpoint spanDigits (radix : Z) (s : string) (acc : Z) (cnt : Z) : Z * Z * string :=
  match s with
  | String c s' =>
      match digitVal radix c with
      | Some d => spanDigits radix s' (acc * radix + d) (cnt + 1)
      | None => (acc, cnt, s)
      end
  | EmptyString => (acc, cnt, s)
  end.

Inductive numLit :=
| LitInfinity
| LitDecimal (m e : Z).

Definition dropPrefix (p s : string) : option string :=
  if String.prefix p s then Some (substring (String.length p) (String.length s - String.length p) s)
  else None.

Definition scanSign (s : string) : bool * string :=
  match s with
  | String "-" s' => (true, s')
  | String "+" s' => (false, s')
  | _ => (false, s)
  end.

Definition scanExponent (s : string) : Z * string :=
  match s with
  | String c s' =>
      if (Ascii.eqb c "e" || Ascii.eqb c "E")%bool then
        let '(neg, s'') := scanSign s' in
        let '(v, cnt, rest) := spanDigits 10 s'' 0 0 in
        if 0 <? cnt then ((if neg then - v else v), rest) else (0, s)
      else (0, s)
  | EmptyString => (0, s)
  end.

(** StrUnsignedDecimalLiteral: the longest prefix that matches
    [Infinity], [digits . digits? exp?], [. digits exp?] or [digits exp?],
    and the rest of the string. *)
Definition scanUnsignedDecimal (s : string) : option (numLit * string) :=
  match dropPrefix "Infinity" s with
  | Some rest => Some (LitInfinity, rest)
  | None =>
      let '(i, ni, r1) := spanDigits 10 s 0 0 in
      let '(f, nf, r2) :=
        match r1 with
        | String "." r => let '(f, nf, r') := spanDigits 10 r 0 0 in
                          if (0 <? ni) || (0 <? nf) then (f, nf, r') else (0, 0, r1)
        | _ => (0, 0, r1)
        end in
      if (0 <? ni) || (0 <? nf) then
        let '(x, r3) := scanExponent r2 in
        Some (LitDecimal (i * 10 ^ nf + f) (x - nf), r3)
      else None
  end.

Definition litToFloat (neg : bool) (l : numLit) : float :=
  match l with
  | LitInfinity => if neg then neg_infinity else infinity
  | LitDecimal m e => decToFloat neg m e
  end.

(** [parseFloat(s)]: the longest decimal literal after leading white
    space. *)
Definition parseFloat (s : string) : float :=
  let '(neg, t) := scanSign (trimStart s) in
  match scanUnsignedDecimal t with
  | Some (l, _) => litToFloat neg l
  | None => nan
  end.

Definition scanRadixPrefix (s : string) : option (Z * string) :=
  match s with
  | String "0" (String c s') =>
      if (Ascii.eqb c "x" || Ascii.eqb c "X")%bool then Some (16, s')
      else if (Ascii.eqb c "o" || Ascii.eqb c "O")%bool then Some (8, s')
      else if (Ascii.eqb c "b" || Ascii.eqb c "B")%bool then Some (2, s')
      else None
  | _ => None
  end.

(** [Number(s)]: the whole trimmed string is a numeric literal, the empty
    string is 0, anything else is NaN. *)
Definition stringToNumber (s : string) : float :=
  let t := trim s in
  if String.eqb t "" then PrimFloat.zero else
  let '(neg, u) := scanSign t in
  match scanUnsignedDecimal u with
  | Some (l, EmptyString) => litToFloat neg l
  | _ =>
      match scanRadixPrefix t with
      | Some (radix, digits) =>
          match spanDigits radix digits 0 0 with
          | (v, cnt, EmptyString) => if 0 <? cnt then ofZ v else nan
          | _ => nan
          end
      | None => nan
      end
  end.

(** [parseInt(s)] with no radix: decimal, or hexadecimal after [0x]. *)
Definition parseInt (s : string) : float :=
  let '(neg, t) := scanSign (trimStart s) in
  let '(radix, digits) :=
    match t with
    | String "0" (String c s') =>
        if (Ascii.eqb c "x" || Ascii.eqb c "X")%bool then (16, s') else (10, t)
    | _ => (10, t)
    end in
  let '(v, cnt, _) := spanDigits radix digits 0 0 in
  if 0 <? cnt then ratToFloat neg v 1 else nan.


(** ** Number to string: [String(x)] and [x.toFixed(f)] *)

Definition decString (z : Z) : string := NilZero.string_of_uint (N.to_uint (Z.to_N z)).
Definition digitCount (z : Z) : Z := Z.of_nat (String.length (decString z)).

Fixpoint zeros (n : nat) : string :=
  match n with O => EmptyString | S n' => String "0" (zeros n') end.

(** [num/den >= 10^k] *)
Definition geqPow10 (num den k : Z) : bool :=
  if 0 <=? k then den * 10 ^ k <=? num else den <=? num * 10 ^ (- k).

(** The [n] with [10^(n-1) <= num/den < 10^n]. *)
Definition decimalExponent (num den : Z) : Z :=
  let n0 := digitCount num - digitCount den in
  if geqPow10 num den n0 then n0 + 1 else n0.

(** Number::toString picks the fewest digits [k] and the integer [s] of
    [k] digits with [s * 10^(n-k)] converting back to [x]; of two such
    [s] the one nearer to [x], and the even one on a tie. [candidate]
    tries the two integers around [x / 10^(n-k)]. *)
Definition candidate (x : float) (num den n k : Z) : option (Z * Z) :=
  let p := n - k in
  let lo := if 0 <=? p then num / (den * 10 ^ p) else (num * 10 ^ (- p)) / den in
  let hi := lo + 1 in
  let okLo := (10 ^ (k - 1) <=? lo) && PrimFloat.Leibniz.eqb (decToFloat false lo p) x in
  let okHi := PrimFloat.Leibniz.eqb (decToFloat false hi p) x in
  let mid2 := if 0 <=? p then (2 * lo + 1) * 10 ^ p * den else (2 * lo + 1) * den in
  let v2 := if 0 <=? p then 2 * num else 2 * num * 10 ^ (- p) in
  let pickLo := (v2 <? mid2) || ((v2 =? mid2) && Z.even lo) in
  let norm := fun s => if s =? 10 ^ k then (10 ^ (k - 1), n + 1) else (s, n) in
  match okLo, okHi with
  | true, true => Some (norm (if pickLo then lo else hi))
  | true, false => Some (norm lo)
  | false, true => Some (norm hi)
  | false, false => None
  end.

Fixpoint shortestDigits (fuel : nat) (x : float) (num den n k : Z) : Z * Z * Z :=
  match candidate x num den n k with
  | Some (s, n') => (s, k, n')
  | None =>
      match fuel with
      | O => (0, 1, 1)
      | S fuel' => shortestDigits fuel' x num den n (k + 1)
      end
  end.

Definition formatDigits (s k n : Z) : string :=
  let d := decString s in
  if (k <=? n) && (n <=? 21) then d ++ zeros (Z.to_nat (n - k))
  else if (0 <? n) && (n <=? 21) then
    substring 0 (Z.to_nat n) d ++ "." ++ substring (Z.to_nat n) (Z.to_nat (k - n)) d
  else if (-6 <? n) && (n <=? 0) then "0." ++ zeros (Z.to_nat (- n)) ++ d
  else
    let e := n - 1 in
    let es := (if e <? 0 then "-" else "+") ++ decString (Z.abs e) in
    if k =? 1 then d ++ "e" ++ es
    else substring 0 1 d ++ "." ++ substring 1 (Z.to_nat (k - 1)) d ++ "e" ++ es.

Definition numberToString (x : float) : string :=
  match Prim2SF x with
  | S754_nan => "NaN"
  | S754_zero _ => "0"
  | S754_infinity s => if s then "-Infinity" else "Infinity"
  | S754_finite sg m e =>
      let num := if 0 <=? e then Zpos m * 2 ^ e else Zpos m in
      let den := if 0 <=? e then 1 else 2 ^ (- e) in
      let '(s, k, n) := shortestDigits 17 (PrimFloat.abs x) num den (decimalExponent num den) 1 in
      (if sg then "-" else "") ++ formatDigits s k n
  end.

(** [x.toFixed(f)]: [round(|x| * 10^f)], halves up, printed with [f]
    decimals; the sign is kept when [x < 0]. *)
Definition toFixed (x : float) (f : nat) : string :=
  match Prim2SF x with
  | S754_finite sg m e =>
      if PrimFloat.leb (decToFloat false 1 21) (PrimFloat.abs x) then numberToString x
      else
        let num := (if 0 <=? e then Zpos m * 2 ^ e else Zpos m) * 10 ^ Z.of_nat f in
        let den := if 0 <=? e then 1 else 2 ^ (- e) in
        let n := (2 * num + den) / (2 * den) in
        let d := decString n in
        let d := zeros (S f - String.length d) ++ d in
        let k := String.length d in
        (if sg then "-" else "") ++
        (if (f =? 0)%nat then d
         else substring 0 (k - f) d ++ "." ++ substring (k - f) f d)
  | S754_zero _ => if (f =? 0)%nat then "0" else "0." ++ zeros f
  | _ => numberToString x
  end.


(** ** The arithmetic interface

    The operations on numbers that the statistics code uses. The
    instance [floatArith] is the arithmetic of JavaScript numbers: every
    operation is the IEEE-754 one on binary64. *)

Class Arith (num : Type) := {
  ofNat : nat -> num;                 (* an integer literal or a length *)
  ofDec : Z -> Z -> num;              (* the literal m * 10^e *)
  undef : num;                        (* [undefined] read as a number *)
  add : num -> num -> num;
  sub : num -> num -> num;
  mul : num -> num -> num;
  div : num -> num -> num;
  sqrt : num -> num;
  floor : num -> num;
  ceil : num -> num;
  ltb : num -> num -> bool;           (* a < b *)
  eqb : num -> num -> bool;           (* a === b *)
  toIndex : num -> option nat;        (* a number used as array index *)
  fixed : num -> nat -> num           (* Number(a.toFixed(f)) *)
}.

Declare Scope num_scope.
Delimit Scope num_scope with num.
Infix "+" := add : num_scope.
Infix "-" := sub : num_scope.
Infix "*" := mul : num_scope.
Infix "/" := div : num_scope.
Infix "<?" := ltb : num_scope.
Infix "=?" := eqb : num_scope.

#[export] Instance floatArith : Arith float := {
  ofNat := natToFloat;
  ofDec := fun m e => decToFloat (m <? 0) (Z.abs m) e;
  undef := PrimFloat.nan;
  add := PrimFloat.add;
  sub := PrimFloat.sub;
  mul := PrimFloat.mul;
  div := PrimFloat.div;
  sqrt := PrimFloat.sqrt;
  floor := floatFloor;
  ceil := floatCeil;
  ltb := PrimFloat.ltb;
  eqb := PrimFloat.eqb;
  toIndex := floatToIndex;
  fixed := fun x f => stringToNumber (toFixed x f)
}.

(** ** Arrays *)

(** [l[i]] for a number [i]; a missing element reads [undefined]. *)
Definition at_ {num : Type} `{Arith num} (l : list num) (i : num) : num :=
  match toIndex i with
  | Some n => nth n l undef
  | None => undef
  end.

(** [l.sort(compareFn)]: a stable sort; [a] goes after [b] when
    [compareFn(a, b) > 0], and a result NaN of [compareFn] counts as 0.
    For a consistent comparison every stable sort gives the same array.
    When the comparison is not consistent, which for [(a, b) => a - b]
    means a NaN among the elements, the language leaves the order to the
    engine; the order here is the one of insertion from the right and
    can differ from an engine's: of 4, 3, NaN, 0 it gives 3, 4, NaN, 0
    where V8 gives 0, 3, 4, NaN. Only the numerical branch of
    [imputeMissingValues] can sort a NaN (a present cell that is not a
    number); [calculateNumericalStats] removes them before it sorts. *)
Fixpoint insertSorted {A : Type} (after : A -> A -> bool) (x : A) (l : list A) : list A :=
  match l with
  | [] => [x]
  | y :: l' => if after x y then y :: insertSorted after x l' else x :: l
  end.

Definition sort {num : Type} `{Arith num} {A : Type} (compareFn : A -> A -> num) (l : list A) : list A :=
  fold_right (insertSorted (fun a b => (ofNat 0 <? compareFn a b)%num)) [] l.

(** [l[i] = v]: an index past the end extends the array; the slots in
    between stay empty and read [undefined]. *)
Definition arraySet {A : Type} (hole : A) (i : nat) (v : A) (l : list A) : list A :=
  if (i <? length l)%nat then <[i:=v]> l
  else l ++ replicate (i - length l) hole ++ [v].

(** ** Values

    The values a cell holds ([any] in the source). *)
Inductive any :=
| Null
| Undefined
| Num (x : float)
| Str (s : string)
| Bool (b : bool).

(** [Number(v)] *)
Definition Number (v : any) : float :=
  match v with
  | Null => PrimFloat.zero
  | Undefined => PrimFloat.nan
  | Num x => x
  | Str s => stringToNumber s
  | Bool b => if b then PrimFloat.one else PrimFloat.zero
  end.

(** [String(v)] *)
Definition ToString (v : any) : string :=
  match v with
  | Null => "null"
  | Undefined => "undefined"
  | Num x => numberToString x
  | Str s => s
  | Bool b => if b then "true" else "false"
  end.

(** [a === b] *)
Definition strictEquals (a b : any) : bool :=
  match a, b with
  | Null, Null => true
  | Undefined, Undefined => true
  | Num x, Num y => PrimFloat.eqb x y
  | Str s, Str t => String.eqb s t
  | Bool x, Bool y => Bool.eqb x y
  | _, _ => false
  end.

(** SameValueZero, the equality of [Map] keys and [Set] elements: as
    [===] but NaN equals NaN. A key -0 is stored as +0. *)
Definition canonKey (v : any) : any :=
  match v with
  | Num x => if PrimFloat.eqb x PrimFloat.zero then Num PrimFloat.zero else v
  | _ => v
  end.

Definition sameValueZero (a b : any) : bool :=
  match canonKey a, canonKey b with
  | Null, Null => true
  | Undefined, Undefined => true
  | Num x, Num y => PrimFloat.Leibniz.eqb x y
  | Str s, Str t => String.eqb s t
  | Bool x, Bool y => Bool.eqb x y
  | _, _ => false
  end.

(** ** [Map] and [Set]

    The entries of a [Map] in insertion order: [set] on a key already
    present replaces its value in place, a new key goes to the end. *)
Abbreviation Map V := (list (any * V)).

Fixpoint mapGet {V : Type} (m : Map V) (k : any) : option V :=
  match m with
  | [] => None
  | (k', v) :: m' => if sameValueZero k' k then Some v else mapGet m' k
  end.

Fixpoint mapSet {V : Type} (m : Map V) (k : any) (v : V) : Map V :=
  match m with
  | [] => [(canonKey k, v)]
  | (k', v') :: m' => if sameValueZero k' k then (k', v) :: m' else (k', v') :: mapSet m' k v
  end.

(** [new Set(l).size] *)
Fixpoint setSize (l : list any) : nat :=
  match l with
  | [] => 0
  | v :: l' => if existsb (sameValueZero v) l' then setSize l' else S (setSize l')
  end.

(** [l.map(f)] for a callback that also increments a counter: [f] tells,
    with each result, whether it incremented. *)
Definition mapCounting {A B : Type} (f : A -> B * bool) (l : list A) : list B * nat :=
  (map (fun x => fst (f x)) l, length (filter (fun x => snd (f x)) l)).

(** ** Splitting, replacing, truthiness *)

Definition doubleQuote : ascii := ascii_of_nat 34.
Definition newline : ascii := ascii_of_nat 10.

(** [s.split(sep)] for a separator of one character *)
Fixpoint split (sep : ascii) (s : string) : list string :=
  match s with
  | EmptyString => [EmptyString]
  | String c s' =>
      if Ascii.eqb c sep then EmptyString :: split sep s'
      else match split sep s' with
           | piece :: pieces => String c piece :: pieces
           | [] => [String c EmptyString]
           end
  end.

(** [s.replace(/c/g, by)] for one character [c] *)
Fixpoint replaceChar (c : ascii) (by_ : string) (s : string) : string :=
  match s with
  | EmptyString => EmptyString
  | String c' s' =>
      if Ascii.eqb c' c then by_ ++ replaceChar c by_ s' else String c' (replaceChar c by_ s')
  end.

(** ToBoolean: the values that count as true in [a || b] and [if (a)]. *)
Definition truthy (v : any) : bool :=
  match v with
  | Null | Undefined => false
  | Num x => negb (PrimFloat.eqb x PrimFloat.zero || isNaN x)
  | Str s => negb (String.eqb s "")
  | Bool b => b
  end.

(** What a function either returns or throws. *)
Inductive outcome (A : Type) :=
| Return (a : A)
| Throw (message : string).
Arguments Return {A}.
Arguments Throw {A}.

End Js.

(** * The data model (src/types) *)

Import Js.

Inductive colType := numerical | categorical | date | text.

Record DataColumn := {
  name : string;
  type : colType;
  values : list any;
  missingCount : nat;
  missingRate : float
}.

Record DataSummary := {
  totalRows : nat;
  totalColumns : nat;
  columns : list DataColumn;
  fileName : string
}.

Record ColumnCleaningReport := {
  columnName : string;
  originalType : colType;
  finalType : colType;
  missingValuesImputed : nat;
  erroneousValuesFixed : nat;
  typeConverted : bool;
  imputationMethod : option string
}.

Record CleaningSummary := {
  totalImputed : nat;       (* summary.missingValuesImputed *)
  totalFixed : nat;         (* summary.erroneousValuesFixed *)
  typesConverted : nat      (* summary.typesConverted *)
}.

Record CleaningReport := {
  totalRowsCleaned : nat;
  columnReports : list ColumnCleaningReport;
  summary : CleaningSummary
}.

Definition colType_eqb (a b : colType) : bool :=
  match a, b with
  | numerical, numerical | categorical, categorical | date, date | text, text => true
  | _, _ => false
  end.

(** The test [v !== null && v !== undefined && v !== ''] that the file
    reader and the analyzer apply to a cell. *)
Definition nonNull (v : any) : bool :=
  negb (strictEquals v Null) && negb (strictEquals v Undefined) && negb (strictEquals v (Str "")).

(** The test [!isNaN(Number(v)) && v !== null && v !== undefined && v !== '']. *)
Definition isNumeric (v : any) : bool :=
  negb (isNaN (Number v)) && nonNull v.

(** * DataCleaner *)

Module DataCleaner.

Local Open Scope string_scope.
Local Open Scope float_scope.

Definition isMissing (value : any) : bool :=
  strictEquals value Null || strictEquals value Undefined || strictEquals value (Str "") ||
  match value with
  | Str s => String.eqb (trim s) ""
  | _ => false
  end.

Definition isPriceColumn (columnName : string) : bool :=
  let priceKeywords := ["price"; "cost"; "amount"; "value"; "fee"; "charge"; "rate";
                        "salary"; "wage"; "revenue"; "income"] in
  existsb (fun keyword => includes columnName keyword) priceKeywords.

Definition isQuantityColumn (columnName : string) : bool :=
  let quantityKeywords := ["quantity"; "count"; "number"; "qty"; "amount"; "total"; "sum";
                           "volume"; "size"; "length"; "width"; "height"] in
  existsb (fun keyword => includes columnName keyword) quantityKeywords.

Definition isDateColumn (columnName : string) : bool :=
  let dateKeywords := ["date"; "time"; "created"; "updated"; "modified"; "timestamp";
                       "year"; "month"; "day"] in
  existsb (fun keyword => includes columnName keyword) dateKeywords.

(** More than 80% of the numeric values are >= 0. With no numeric value
    the ratio is 0/0 = NaN and the test fails. *)
Definition isPriceOrQuantityColumn (values : list any) : bool :=
  let numericValues := filter (fun v => isNumeric v) values in
  let positiveValues := filter (fun v => PrimFloat.zero <=? Number v) numericValues in
  decToFloat false 8 (-1) <? natToFloat (length positiveValues) / natToFloat (length numericValues).

Definition sentinels : list string :=
  ["n/a"; "na"; "unknown"; "null"; "none"; "-"; "--"; "?"; "missing"].

(** The callback of [fixErroneousValues]: the fixed value, and whether
    [erroneousCount] was incremented. *)
Definition fixValue (values : list any) (columnType : colType) (value : any) : any * bool :=
  if isMissing value then (value, false)
  else
    let stringValue := trim (toLowerCase (ToString value)) in
    if existsb (String.eqb stringValue) sentinels then (Null, true)
    else if colType_eqb columnType numerical && isPriceOrQuantityColumn values then
      let numValue := Number value in
      if negb (isNaN numValue) && (numValue <? PrimFloat.zero)
      then (Num (PrimFloat.abs numValue), true)
      else (value, false)
    else (value, false).

Definition fixErroneousValues (values : list any) (columnType : colType) : list any * nat :=
  mapCounting (fixValue values columnType) values.

(** The characters of [/[,$€£¥]/] below 256: the euro sign is not. *)
Definition isCurrencyOrComma (c : ascii) : bool :=
  let n := nat_of_ascii c in
  ((n =? 44) || (n =? 36) || (n =? 163) || (n =? 165))%nat.

Definition convertToFloat (values : list any) : list any * colType * bool :=
  let convertedValues :=
    map (fun value =>
           if isMissing value then value
           else
             let stringValue := trim (removeChars isCurrencyOrComma (ToString value)) in
             let numValue := parseFloat stringValue in
             if isNaN numValue then Null else Num numValue) values in
  (convertedValues, numerical, true).

Definition convertToInteger (values : list any) : list any * colType * bool :=
  let convertedValues :=
    map (fun value =>
           if isMissing value then value
           else
             let numValue := parseInt (removeChars (Ascii.eqb ",") (ToString value)) in
             if isNaN numValue then Null else Num numValue) values in
  (convertedValues, numerical, true).

Section Host.

(** [new Date(value)] as the host parses it: [None] when the date is
    invalid ([isNaN(dateValue.getTime())]), else the part of
    [dateValue.toISOString()] before the [T]. *)
Variable isoDate : any -> option string.

Definition convertToDate (values : list any) : list any * colType * bool :=
  let convertedValues :=
    map (fun value =>
           if isMissing value then value
           else match isoDate value with
                | None => Null
                | Some day => Str day
                end) values in
  (convertedValues, date, true).

Definition convertTypes (values : list any) (column : DataColumn) : list any * colType * bool :=
  let columnName := toLowerCase (name column) in
  if isPriceColumn columnName then convertToFloat values
  else if isQuantityColumn columnName then convertToInteger values
  else if isDateColumn columnName || colType_eqb (type column) date then convertToDate values
  else (values, type column, false).

(** [frequency.set(key, (frequency.get(key) || 0) + 1)] for each value *)
Definition countValues (keys : list any) : Map nat :=
  fold_left (fun frequency key => mapSet frequency key (default 0%nat (mapGet frequency key) + 1)%nat)
            keys [].

(** [Array.from(frequency.entries()).reduce((a, b) => a[1] > b[1] ? a : b)[0]];
    [reduce] on no entry throws, which the caller excludes. *)
Definition mostFrequent (frequency : Map nat) : any :=
  match frequency with
  | [] => Undefined
  | first :: rest =>
      fst (fold_left (fun a b => if (snd b <? snd a)%nat then a else b) rest first)
  end.

Definition imputeMissingValues (values : list any) (columnType : colType)
  : list any * nat * string :=
  let nonMissingValues := filter (fun v => negb (isMissing v)) values in
  if (length nonMissingValues =? 0)%nat then (values, 0%nat, "no_imputation_possible")
  else
    let '(imputationValue, method) :=
      match columnType with
      | numerical =>
          let sortedValues := sort (fun a b => a - b) (map Number nonMissingValues) in
          let len := length sortedValues in
          let median :=
            if (len mod 2 =? 0)%nat
            then (nth (len / 2 - 1) sortedValues PrimFloat.nan + nth (len / 2) sortedValues PrimFloat.nan)
                 / PrimFloat.two
            else nth (len / 2) sortedValues PrimFloat.nan in
          (Num median, "median")
      | categorical =>
          (mostFrequent (countValues nonMissingValues), "mode")
      | date =>
          (mostFrequent (countValues (map (fun value => Str (ToString value)) nonMissingValues)),
           "most_frequent_date")
      | text =>
          (mostFrequent (countValues (map (fun value => Str (ToString value)) nonMissingValues)),
           "most_frequent_text")
      end in
    let '(imputedValues, imputedCount) :=
      mapCounting (fun value => if isMissing value then (imputationValue, true) else (value, false))
                  values in
    (imputedValues, imputedCount, method).

Definition cleanColumn (column : DataColumn) (totalRows : nat) : DataColumn * ColumnCleaningReport :=
  let cleanedValues := values column in
  (* Step 1: fix erroneous values *)
  let '(fixedValues, erroneousCount) := fixErroneousValues cleanedValues (type column) in
  let cleanedValues := fixedValues in
  (* Step 2: convert types if needed *)
  let '(convertedValues, newType, converted) := convertTypes cleanedValues column in
  let cleanedValues := convertedValues in
  let finalType := if converted then newType else type column in
  (* Step 3: impute missing values *)
  let '(imputedValues, imputedCount, method) := imputeMissingValues cleanedValues finalType in
  let cleanedValues := imputedValues in
  let report := {|
    columnName := name column;
    originalType := type column;
    finalType := finalType;
    missingValuesImputed := imputedCount;
    erroneousValuesFixed := erroneousCount;
    typeConverted := converted;
    imputationMethod := Some method
  |} in
  (* Recalculate missing statistics *)
  let newMissingCount := length (filter (fun v => isMissing v) cleanedValues) in
  let newMissingRate := natToFloat newMissingCount / natToFloat totalRows in
  let cleanedColumn := {|
    name := name column;
    type := finalType;
    values := cleanedValues;
    missingCount := newMissingCount;
    missingRate := newMissingRate
  |} in
  (cleanedColumn, report).

(** The state of the loop of [cleanData] over the columns. *)
Record cleanState := {
  cleanedColumns : list DataColumn;
  reports : list ColumnCleaningReport;
  rowsModified : gset nat;
  flagValues : list any          (* cleaningFlagColumn.values *)
}.

(** Mark rows that were modified: the inner [forEach] over the cleaned
    values of one column, and its callback. *)
Definition markRow (original : list any) (marks : gset nat * list any) (entry : nat * any)
  : gset nat * list any :=
  let '(rows, flags) := marks in
  let '(index, value) := entry in
  if negb (strictEquals value (default Undefined (original !! index)))
  then ({[ index ]} ∪ rows, arraySet Undefined index (Bool true) flags)
  else (rows, flags).

Definition markRows (cleaned original : list any) (rows : gset nat) (flags : list any)
  : gset nat * list any :=
  fold_left (markRow original) (zip (seq 0 (length cleaned)) cleaned) (rows, flags).

Definition cleanStep (totalRows : nat) (st : cleanState) (column : DataColumn) : cleanState :=
  let '(cleanedColumn, report) := cleanColumn column totalRows in
  let '(rows, flags) := markRows (values cleanedColumn) (values column)
                                 (rowsModified st) (flagValues st) in
  {| cleanedColumns := cleanedColumns st ++ [cleanedColumn];
     reports := reports st ++ [report];
     rowsModified := rows;
     flagValues := flags |}.

Definition cleanData (data : DataSummary) : DataSummary * CleaningReport :=
  let st := fold_left (cleanStep (totalRows data)) (columns data)
              {| cleanedColumns := [];
                 reports := [];
                 rowsModified := ∅;
                 (* new Array(data.totalRows).fill(false) *)
                 flagValues := replicate (totalRows data) (Bool false) |} in
  (* Add the cleaning flag column *)
  let cleaningFlagColumn := {|
    name := "nettoyage_effectue";
    type := categorical;
    values := flagValues st;
    missingCount := 0;
    missingRate := PrimFloat.zero
  |} in
  let cleanedData := {|
    totalRows := totalRows data;
    totalColumns := totalColumns data + 1;
    columns := cleanedColumns st ++ [cleaningFlagColumn];
    fileName := fileName data
  |} in
  let report := {|
    totalRowsCleaned := size (rowsModified st);
    columnReports := reports st;
    summary := {|
      totalImputed := fold_left (fun sum r => sum + missingValuesImputed r)%nat (reports st) 0%nat;
      totalFixed := fold_left (fun sum r => sum + erroneousValuesFixed r)%nat (reports st) 0%nat;
      typesConverted := length (filter (fun r => typeConverted r) (reports st))
    |}
  |} in
  (cleanedData, report).

End Host.

End DataCleaner.

(** * DataAnalyzer *)

Record NumericalStats (num : Type) := {
  mean : num;
  median : num;
  std : num;
  min : num;
  max : num;
  q1 : num;
  q3 : num;
  outliers : list num
}.
Arguments mean {num}.
Arguments median {num}.
Arguments std {num}.
Arguments min {num}.
Arguments max {num}.
Arguments q1 {num}.
Arguments q3 {num}.
Arguments outliers {num}.

Record TopValue := {
  value : string;
  count : nat;
  percentage : float
}.

Record CategoricalStats := {
  uniqueCount : nat;
  topValues : list TopValue
}.

Record ColumnStats := {
  statName : string;                         (* name *)
  statType : colType;                        (* type *)
  numericalStats : option (NumericalStats float);  (* numerical? *)
  categoricalStats : option CategoricalStats       (* categorical? *)
}.

Inductive anomalyType :=
  outlier | missing_values | inconsistent_format | duplicate_values | invalid_values.

Inductive severityLevel := low | medium | high.

Record Anomaly := {
  anomaly : anomalyType;                     (* type *)
  severity : severityLevel;
  title : string;
  description : string;
  column : string;
  affected : option nat                      (* count? *)
}.

Definition anomalyType_eqb (a b : anomalyType) : bool :=
  match a, b with
  | outlier, outlier | missing_values, missing_values
  | inconsistent_format, inconsistent_format | duplicate_values, duplicate_values
  | invalid_values, invalid_values => true
  | _, _ => false
  end.

Definition severityLevel_eqb (a b : severityLevel) : bool :=
  match a, b with
  | low, low | medium, medium | high, high => true
  | _, _ => false
  end.

Inductive recCategory := data_quality | analysis | preprocessing.

Record Recommendation := {
  category : recCategory;
  priority : severityLevel;                  (* 'low' | 'medium' | 'high' *)
  recTitle : string;                         (* title *)
  recDescription : string;                   (* description *)
  action : option string;
  impact : option string
}.

Record DataAnalysis := {
  columnStats : list ColumnStats;
  correlations : gmap string (gmap string float);
  anomalies : list Anomaly;
  recommendations : list Recommendation
}.

Module DataAnalyzer.

Section Statistics.

Context {num : Type} `{Arith num}.
Local Open Scope num_scope.

Definition calculateMedian (sortedValues : list num) : num :=
  let mid := floor (ofNat (length sortedValues) / ofNat 2) in
  if (length sortedValues mod 2 =? 0)%nat
  then (at_ sortedValues (mid - ofNat 1) + at_ sortedValues mid) / ofNat 2
  else at_ sortedValues mid.

Definition calculatePercentile (sortedValues : list num) (percentile : num) : num :=
  let index := (percentile / ofNat 100) * (ofNat (length sortedValues) - ofNat 1) in
  let lower := floor index in
  let upper := ceil index in
  if lower =? upper then at_ sortedValues lower
  else
    let weight := index - lower in
    at_ sortedValues lower * (ofNat 1 - weight) + at_ sortedValues upper * weight.

(** The body of [calculateNumericalStats] once the cells are coerced to
    numbers. [Math.pow(d, 2)] is [d * d]. *)
Definition statsOfNumbers (numericValues : list num) : NumericalStats num :=
  if (length numericValues =? 0)%nat then
    {| mean := ofNat 0; median := ofNat 0; std := ofNat 0; min := ofNat 0; max := ofNat 0;
       q1 := ofNat 0; q3 := ofNat 0; outliers := [] |}
  else
    let sorted := sort (fun a b => a - b) numericValues in
    let mean := fold_left (fun sum val => sum + val) numericValues (ofNat 0)
                / ofNat (length numericValues) in
    let median := calculateMedian sorted in
    let std := sqrt (fold_left (fun sum val => sum + (val - mean) * (val - mean))
                               numericValues (ofNat 0)
                     / ofNat (length numericValues)) in
    let q1 := calculatePercentile sorted (ofNat 25) in
    let q3 := calculatePercentile sorted (ofNat 75) in
    let iqr := q3 - q1 in
    let outliers := List.filter (fun val => (val <? q1 - ofDec 15 (-1) * iqr)
                                            || (q3 + ofDec 15 (-1) * iqr <? val))
                                numericValues in
    {| mean := fixed mean 2;
       median := fixed median 2;
       std := fixed std 2;
       min := nth 0 sorted undef;
       max := nth (length sorted - 1) sorted undef;
       q1 := fixed q1 2;
       q3 := fixed q3 2;
       outliers := outliers |}.

End Statistics.

Local Open Scope string_scope.
Local Open Scope float_scope.

Definition calculateNumericalStats (values : list any) : NumericalStats float :=
  let numericValues := map Number (filter (fun v => isNumeric v) values) in
  statsOfNumbers numericValues.

(** [counts.set(key, (counts.get(key) || 0) + 1)] over the keys
    [String(value)] *)
Definition countKeys (keys : list string) : Map nat :=
  fold_left (fun counts key => mapSet counts (Str key) (default 0%nat (mapGet counts (Str key)) + 1)%nat)
            keys [].

Definition calculateCategoricalStats (values : list any) : CategoricalStats :=
  let nonNullValues := filter (fun v => nonNull v) values in
  let counts := countKeys (map ToString nonNullValues) in
  let topValues :=
    map (fun '(key, count) =>
           {| value := ToString key;
              count := count;
              percentage :=
                stringToNumber
                  (toFixed (natToFloat count / natToFloat (length nonNullValues) * natToFloat 100) 1) |})
        (take 10 (sort (fun a b => natToFloat (snd b) - natToFloat (snd a)) counts)) in
  {| uniqueCount := length counts; topValues := topValues |}.

Definition generateColumnStats (data : DataSummary) : list ColumnStats :=
  map (fun column =>
         {| statName := name column;
            statType := type column;
            numericalStats :=
              if colType_eqb (type column) numerical
              then Some (calculateNumericalStats (values column)) else None;
            categoricalStats :=
              if colType_eqb (type column) categorical
              then Some (calculateCategoricalStats (values column)) else None |})
      (columns data).

(** [x.map((val, i) => [Number(val), Number(y[i])]).filter(([a, b]) => !isNaN(a) && !isNaN(b))] *)
Definition usablePairs (x y : list any) : list (float * float) :=
  List.filter (fun '(a, b) => negb (isNaN a) && negb (isNaN b))
              (imap (fun i val => (Number val, Number (default Undefined (y !! i)))) x).

(** The locals [numerator] and [denominator] of
    [calculatePearsonCorrelation]. *)
Definition pearsonNumerator (pairs : list (float * float)) : float :=
  let n := natToFloat (length pairs) in
  let sumX := fold_left (fun sum '(a, _) => sum + a) pairs PrimFloat.zero in
  let sumY := fold_left (fun sum '(_, b) => sum + b) pairs PrimFloat.zero in
  let sumXY := fold_left (fun sum '(a, b) => sum + a * b) pairs PrimFloat.zero in
  n * sumXY - sumX * sumY.

Definition pearsonDenominator (pairs : list (float * float)) : float :=
  let n := natToFloat (length pairs) in
  let sumX := fold_left (fun sum '(a, _) => sum + a) pairs PrimFloat.zero in
  let sumY := fold_left (fun sum '(_, b) => sum + b) pairs PrimFloat.zero in
  let sumX2 := fold_left (fun sum '(a, _) => sum + a * a) pairs PrimFloat.zero in
  let sumY2 := fold_left (fun sum '(_, b) => sum + b * b) pairs PrimFloat.zero in
  PrimFloat.sqrt ((n * sumX2 - sumX * sumX) * (n * sumY2 - sumY * sumY)).

Definition calculatePearsonCorrelation (x y : list any) : float :=
  let pairs := usablePairs x y in
  if (length pairs <? 2)%nat then PrimFloat.zero
  else
    let numerator := pearsonNumerator pairs in
    let denominator := pearsonDenominator pairs in
    if denominator =? PrimFloat.zero then PrimFloat.zero
    else stringToNumber (toFixed (numerator / denominator) 3).

(** The object [correlations]: a map from column name to a map from
    column name to coefficient. *)
Definition calculateCorrelations (data : DataSummary) : gmap string (gmap string float) :=
  let numericalColumns := filter (fun col => colType_eqb (type col) numerical) (columns data) in
  fold_left (fun correlations col1 =>
               <[ name col1 :=
                    fold_left (fun row col2 =>
                                 if String.eqb (name col1) (name col2)
                                 then <[ name col2 := PrimFloat.one ]> row
                                 else <[ name col2 :=
                                           calculatePearsonCorrelation (values col1) (values col2) ]> row)
                              numericalColumns ∅ ]> correlations)
            numericalColumns ∅.

Definition quote : string := String (ascii_of_nat 34) EmptyString.

Definition percent (rate : float) : string := toFixed (rate * natToFloat 100) 1.

Definition detectAnomalies (data : DataSummary) (columnStats : list ColumnStats) : list Anomaly :=
  (* Check for high missing value rates *)
  let missing :=
    flat_map (fun column =>
      if decToFloat false 3 (-1) <? missingRate column then
        [{| anomaly := missing_values;
            severity := if decToFloat false 5 (-1) <? missingRate column then high else medium;
            title := "High Missing Value Rate in " ++ name column;
            description := "Column " ++ quote ++ name column ++ quote ++ " has "
                           ++ percent (missingRate column)
                           ++ "% missing values, which may impact analysis quality.";
            column := name column;
            affected := Some (missingCount column) |}]
      else []) (columns data) in
  (* Check for outliers in numerical columns *)
  let outlying :=
    flat_map (fun stat =>
      match numericalStats stat with
      | Some stats =>
          if (0 <? length (outliers stats))%nat then
            let outlierRate := natToFloat (length (outliers stats)) / natToFloat (totalRows data) in
            [{| anomaly := outlier;
                severity := if decToFloat false 1 (-1) <? outlierRate then high
                            else if decToFloat false 5 (-2) <? outlierRate then medium else low;
                title := "Outliers Detected in " ++ statName stat;
                description := "Found " ++ numberToString (natToFloat (length (outliers stats)))
                               ++ " outliers in " ++ quote ++ statName stat ++ quote ++ " ("
                               ++ percent outlierRate ++ "% of data).";
                column := statName stat;
                affected := Some (length (outliers stats)) |}]
          else []
      | None => []
      end) columnStats in
  (* Check for duplicate values *)
  let duplicated :=
    flat_map (fun column =>
      let values := filter (fun v => nonNull v) (values column) in
      let duplicateRate := PrimFloat.one - natToFloat (setSize values) / natToFloat (length values) in
      if (decToFloat false 8 (-1) <? duplicateRate) && negb (colType_eqb (type column) categorical) then
        [{| anomaly := duplicate_values;
            severity := medium;
            title := "High Duplicate Rate in " ++ name column;
            description := "Column " ++ quote ++ name column ++ quote ++ " has "
                           ++ percent duplicateRate ++ "% duplicate values.";
            column := name column;
            affected := None |}]
      else []) (columns data) in
  missing ++ outlying ++ duplicated.

(** [Object.entries(correlations).flatMap(...)]: the entries
    [{col1, col2, correlation}] with [col1 !== col2] and
    [Math.abs(corr) > 0.7]. Only the number of entries is used, so the
    order in which the keys of the two objects are listed does not
    matter. *)
Definition strongCorrelations (correlations : gmap string (gmap string float))
  : list (string * string * float) :=
  flat_map (fun '(col1, row) =>
              map (fun '(col2, corr) => (col1, col2, corr))
                  (List.filter (fun '(col2, corr) =>
                                  negb (String.eqb col1 col2)
                                  && (decToFloat false 7 (-1) <? PrimFloat.abs corr))
                               (map_to_list row)))
           (map_to_list correlations).

Definition generateRecommendations (data : DataSummary) (columnStats : list ColumnStats)
    (anomalies : list Anomaly) : list Recommendation :=
  (* Data quality recommendations *)
  let highMissingColumns :=
    filter (fun col => decToFloat false 2 (-1) <? missingRate col) (columns data) in
  let quality :=
    if (0 <? length highMissingColumns)%nat then
      [{| category := data_quality;
          priority := high;
          recTitle := "Address Missing Values";
          recDescription := numberToString (natToFloat (length highMissingColumns))
            ++ " columns have significant missing values (>20%). This could impact analysis accuracy.";
          action := Some "Consider imputation strategies, removal of incomplete records, or collection of additional data.";
          impact := Some "Improved data completeness and analysis reliability" |}]
    else [] in
  (* Analysis recommendations *)
  let numericalColumns := filter (fun stat => colType_eqb (statType stat) numerical) columnStats in
  let correlated :=
    if (2 <=? length numericalColumns)%nat then
      let strong := strongCorrelations (calculateCorrelations data) in
      if (0 <? length strong)%nat then
        [{| category := analysis;
            priority := medium;
            recTitle := "Strong Correlations Detected";
            recDescription := "Found " ++ numberToString (natToFloat (length strong))
              ++ " pairs of strongly correlated variables. This could indicate multicollinearity.";
            action := Some "Consider feature selection or dimensionality reduction techniques for modeling.";
            impact := Some "Reduced model complexity and improved interpretability" |}]
      else []
    else [] in
  (* Preprocessing recommendations *)
  let outlierColumns :=
    filter (fun a => anomalyType_eqb (anomaly a) outlier && severityLevel_eqb (severity a) high)
           anomalies in
  let outlying :=
    if (0 <? length outlierColumns)%nat then
      [{| category := preprocessing;
          priority := medium;
          recTitle := "Handle Outliers";
          recDescription := numberToString (natToFloat (length outlierColumns))
            ++ " columns contain significant outliers that may skew analysis results.";
          action := Some "Consider outlier removal, transformation, or robust statistical methods.";
          impact := Some "More reliable statistical measures and model performance" |}]
    else [] in
  (* Categorical data recommendations *)
  let categoricalColumns := filter (fun stat => colType_eqb (statType stat) categorical) columnStats in
  let cardinality :=
    flat_map (fun stat =>
      match categoricalStats stat with
      | Some stats =>
          if natToFloat (totalRows data) * decToFloat false 8 (-1) <? natToFloat (uniqueCount stats) then
            [{| category := preprocessing;
                priority := low;
                recTitle := "High Cardinality in " ++ statName stat;
                recDescription := "Column " ++ quote ++ statName stat ++ quote
                  ++ " has very high cardinality ("
                  ++ numberToString (natToFloat (uniqueCount stats)) ++ " unique values).";
                action := Some "Consider grouping rare categories or using encoding techniques for modeling.";
                impact := Some "Reduced dimensionality and improved model efficiency" |}]
          else []
      | None => []
      end) categoricalColumns in
  quality ++ correlated ++ outlying ++ cardinality.

Definition analyzeData (data : DataSummary) : DataAnalysis :=
  let columnStats := generateColumnStats data in
  let correlations := calculateCorrelations data in
  let anomalies := detectAnomalies data columnStats in
  let recommendations := generateRecommendations data columnStats anomalies in
  {| columnStats := columnStats;
     correlations := correlations;
     anomalies := anomalies;
     recommendations := recommendations |}.

End DataAnalyzer.

(** * FileProcessor *)

Module FileProcessor.

Local Open Scope string_scope.
Local Open Scope float_scope.

(** The locals [result], [current] and [inQuotes] of [parseCSVLine], and
    the body of its loop. *)
Record lineState := {
  result : list string;
  current : string;
  inQuotes : bool
}.

Definition parseChar (st : lineState) (char : ascii) : lineState :=
  if Ascii.eqb char doubleQuote then
    {| result := result st; current := current st; inQuotes := negb (inQuotes st) |}
  else if Ascii.eqb char "," && negb (inQuotes st) then
    {| result := result st ++ [trim (current st)]; current := ""; inQuotes := inQuotes st |}
  else
    {| result := result st; current := current st ++ String char ""; inQuotes := inQuotes st |}.

Definition parseCSVLine (line : string) : list string :=
  let st := fold_left parseChar (list_ascii_of_string line)
                      {| result := []; current := ""; inQuotes := false |} in
  result st ++ [trim (current st)].

Section Host.

(** [Date.parse] of a string, as the host parses it: NaN when the
    string is not a date. *)
Variable dateParse : string -> float.

Definition detectColumnType (values : list any) : colType :=
  if (length values =? 0)%nat then text
  else
    let numericValues :=
      filter (fun v => negb (isNaN (Number v)) && negb (strictEquals v (Str ""))) values in
    let numericRatio := natToFloat (length numericValues) / natToFloat (length values) in
    if decToFloat false 8 (-1) <? numericRatio then numerical
    else
      let dateValues := filter (fun v => negb (isNaN (dateParse (ToString v)))) values in
      let dateRatio := natToFloat (length dateValues) / natToFloat (length values) in
      if decToFloat false 8 (-1) <? dateRatio then date
      else
        let uniqueValues := setSize values in
        let uniqueRatio := natToFloat uniqueValues / natToFloat (length values) in
        if (uniqueRatio <? decToFloat false 5 (-1)) && (uniqueValues <? 20)%nat then categorical
        else text.

(** [row[index]] past the end of a row reads [undefined]. The difference
    of the two lengths is never negative. *)
Definition createDataSummary (headers : list string) (data : list (list any)) (fileName : string)
  : DataSummary :=
  let columns :=
    imap (fun index header =>
            let values := map (fun row => default Undefined (row !! index)) data in
            let nonNullValues := filter (fun v => nonNull v) values in
            let missingCount := (length values - length nonNullValues)%nat in
            {| name := header;
               type := detectColumnType nonNullValues;
               values := values;
               missingCount := missingCount;
               missingRate := natToFloat missingCount / natToFloat (length values) |})
         headers in
  {| totalRows := length data;
     totalColumns := length headers;
     columns := columns;
     fileName := fileName |}.

(** [processCSV] on the text of the file and its name. A field of a
    CSV line is a string. *)
Definition processCSV (text : string) (fileName : string) : outcome DataSummary :=
  let lines := filter (fun line => negb (String.eqb (trim line) "")) (split newline text) in
  if (length lines <? 2)%nat then
    Throw "File must contain at least a header row and one data row."
  else
    let headers := parseCSVLine (nth 0 lines "") in
    let data :=
      map (map Str)
          (filter (fun row => (length row =? length headers)%nat)
                  (map parseCSVLine (skipn 1 lines))) in
    Return (createDataSummary headers data fileName).

End Host.

End FileProcessor.

(** * ExportService: the text of the CSV export *)

Module ExportService.

Local Open Scope string_scope.

(** The callback of [row.map] in [exportToCSV]: [String(cell || '')],
    between quotes and with its quotes doubled when it holds a comma, a
    quote or a line feed. *)
Definition csvCell (cell : any) : string :=
  let cellStr := ToString (if truthy cell then cell else Str "") in
  let quote := String doubleQuote "" in
  if includes cellStr "," || includes cellStr quote || includes cellStr (String newline "")
  then quote ++ replaceChar doubleQuote (quote ++ quote) cellStr ++ quote
  else cellStr.

(** The callback of [cleanedData.map]: the cells of a row, joined by
    commas. *)
Definition csvRow (row : list any) : string := String.concat "," (map csvCell row).

(** The local [csvContent] of [exportToCSV]: the header row, then one
    row for each [i < data.totalRows]. *)
Definition csvContent (data : DataSummary) : string :=
  let headers := map (fun col => Str (name col)) (columns data) in
  let rows :=
    map (fun i => map (fun col => default Undefined (values col !! i)) (columns data))
        (seq 0 (totalRows data)) in
  String.concat (String newline "") (map csvRow (headers :: rows)).

End ExportService.


(** * Notions used in the statements *)

Import DataCleaner DataAnalyzer.




(** The value [v] differs ([!==]) from the raw value at row [i], and the
    cleaned value of a column at row [i] differs from its raw value. *)
Definition differs (original : list any) (i : nat) (v : any) : Prop :=
  strictEquals v (default Undefined (original !! i)) = false.

Definition changedAt (isoDate : any -> option string) (totalRows : nat)
    (column : DataColumn) (i : nat) : Prop :=
  exists v, values (fst (cleanColumn isoDate column totalRows)) !! i = Some v /\
            differs (values column) i v.

(** A flag is [true], [false] or an empty slot. *)
Definition isFlag (v : any) : Prop := v = Bool true \/ v = Bool false \/ v = Undefined.

Definition isTrue (v : any) : bool :=
  match v with
  | Bool true => true
  | _ => false
  end.

Definition isBool (v : any) : Prop := exists b, v = Bool b.

(** The number of elements of [l] that are the same value as [w], and
    the index of the first of them ([length l] when there is none). *)
Definition occurrences (l : list any) (w : any) : nat :=
  length (List.filter (sameValueZero w) l).

Fixpoint firstIndex (l : list any) (w : any) : nat :=
  match l with
  | [] => 0
  | v :: l' => if sameValueZero w v then 0 else S (firstIndex l' w)
  end.

(** The number of occurrences of a character in a string. *)
Definition countChar (c : ascii) (s : string) : nat :=
  length (List.filter (Ascii.eqb c) (list_ascii_of_string s)).

(** [String(cell || '')]: the text that [exportToCSV] writes for a cell,
    before it is put between quotes. *)
Definition exportedText (cell : any) : string :=
  ToString (if truthy cell then cell else Str "").

(** A string without its double quotes. *)
Definition withoutQuotes (s : string) : string :=
  removeChars (fun c => Ascii.eqb c doubleQuote) s.

(** The entry of the correlation matrix for two columns, and the row of
    a column over the numerical columns [cols]. *)
Definition correlationEntry (col1 col2 : DataColumn) : float :=
  if String.eqb (name col1) (name col2) then PrimFloat.one
  else calculatePearsonCorrelation (values col1) (values col2).

Definition correlationRow (cols : list DataColumn) (col1 : DataColumn) : gmap string float :=
  fold_left (fun row col2 => <[name col2 := correlationEntry col1 col2]> row) cols ∅.

(** The names of the numerical columns of a table. *)
Definition numericalNames (data : DataSummary) : gset string :=
  list_to_set (map name (filter (fun col => colType_eqb (type col) numerical) (columns data))).


(** * Properties *)

Local Open Scope string_scope.

(** ** The missing-value predicates *)

Lemma isMissing_spec (v : any) :
  isMissing v = true <-> v = Null \/ v = Undefined \/ exists s, v = Str s /\ trim s = "".
Proof.
  unfold isMissing, strictEquals.
  destruct v as [| |x|s|b]; simpl; split; intros H; try done; eauto.
  - destruct H as [H|[H|(s' & H & _)]]; done.
  - right; right. exists s. split; [done|].
    destruct (String.eqb_spec s ""); simpl in H.
    + subst. done.
    + by apply String.eqb_eq.
  - destruct H as [H|[H|(s' & [= <-] & H)]]; try done.
    rewrite H. simpl. by rewrite orb_true_r.
  - destruct H as [H|[H|(s' & H & _)]]; done.
Qed.



Lemma isNumeric_nonNull (v : any) : isNumeric v -> nonNull v.
Proof. unfold isNumeric. intros H. apply andb_prop_elim in H. tauto. Qed.

(** ** Correlation of columns with empty cells *)

(** C4 (the code at the failing input). Of the two rows only the second
    has both values present, yet the empty cell of the first row enters
    the sums as 0 and the coefficient is 1, not 0. The statistics of the
    same column leave the empty cell out. *)
Lemma pearson_counts_empty_cell_as_zero :
  usablePairs [Str ""; Str "1"] [Str "0"; Str "1"]
    = [(PrimFloat.zero, PrimFloat.zero); (PrimFloat.one, PrimFloat.one)] /\
  calculatePearsonCorrelation [Str ""; Str "1"] [Str "0"; Str "1"] = PrimFloat.one /\
  calculatePearsonCorrelation [Null; Num PrimFloat.one] [Num PrimFloat.zero; Num PrimFloat.one]
    = PrimFloat.one /\
  calculateCorrelations
    {| totalRows := 2; totalColumns := 2;
       columns := [{| name := "x"; type := numerical; values := [Str ""; Str "1"];
                      missingCount := 1;
                      missingRate := PrimFloat.div PrimFloat.one PrimFloat.two |};
                   {| name := "y"; type := numerical; values := [Str "0"; Str "1"];
                      missingCount := 0; missingRate := PrimFloat.zero |}];
       fileName := "xy.csv" |} !! "x" ≫= (fun row => row !! "y") = Some PrimFloat.one /\
  mean (calculateNumericalStats [Str ""; Str "1"]) = PrimFloat.one.
Proof. repeat split; vm_compute; reflexivity. Qed.

(** ** Edge cases *)

(** The explicit early returns: a column with no numeric value gets the
    all-zero statistics, a pair of columns with fewer than two usable
    rows gets the coefficient 0, and a column whose cells are all
    missing comes back from the imputation unchanged, with the method
    no_imputation_possible and the count 0. *)
Lemma explicit_defaults :
  (forall values,
      filter (fun v => isNumeric v) values = [] ->
      calculateNumericalStats values =
      {| mean := PrimFloat.zero; median := PrimFloat.zero; std := PrimFloat.zero;
         min := PrimFloat.zero; max := PrimFloat.zero; q1 := PrimFloat.zero;
         q3 := PrimFloat.zero; outliers := [] |}) /\
  (forall x y,
      length (usablePairs x y) < 2 -> calculatePearsonCorrelation x y = PrimFloat.zero) /\
  (forall values columnType,
      Forall (fun v => isMissing v = true) values ->
      imputeMissingValues values columnType = (values, 0, "no_imputation_possible")).
Proof.
  split; [|split].
  - intros values H. unfold calculateNumericalStats. rewrite H. reflexivity.
  - intros x y H. unfold calculatePearsonCorrelation.
    destruct (length (usablePairs x y) <? 2)%nat eqn:E; [done|].
    apply Nat.ltb_ge in E. lia.
  - intros values columnType H. unfold imputeMissingValues.
    replace (filter (fun v => negb (isMissing v)) values) with (@nil any); [done|].
    symmetry. induction H as [|v l Hv Hl IH]; [done|].
    rewrite filter_cons, Hv. simpl. done.
Qed.

(** C7 (the code at the failing input). The column x is constant, so
    its variance is zero and the claim gives the coefficient 0. In
    floating point 3 * (1.3 * 1.3 + 1.3 * 1.3 + 1.3 * 1.3) is smaller
    than the square of 1.3 + 1.3 + 1.3: the product under the square
    root is negative, the denominator is NaN, the test
    [denominator === 0] fails, and the coefficient is NaN, also in the
    correlation matrix of the table. *)
Lemma zero_variance_correlation_is_nan :
  let x := [Str "1.3"; Str "1.3"; Str "1.3"] in
  let y := [Str "1"; Str "2"; Str "3"] in
  let pairs := usablePairs x y in
  let sumX := fold_left (fun sum '(a, _) => PrimFloat.add sum a) pairs PrimFloat.zero in
  let sumX2 := fold_left (fun sum '(a, _) => PrimFloat.add sum (PrimFloat.mul a a)) pairs
                         PrimFloat.zero in
  length pairs = 3 /\
  PrimFloat.ltb (PrimFloat.sub (PrimFloat.mul (natToFloat 3) sumX2) (PrimFloat.mul sumX sumX))
                PrimFloat.zero = true /\
  isNaN (pearsonDenominator pairs) = true /\
  PrimFloat.eqb (pearsonDenominator pairs) PrimFloat.zero = false /\
  isNaN (calculatePearsonCorrelation x y) = true /\
  calculateCorrelations
    {| totalRows := 3; totalColumns := 2;
       columns := [{| name := "x"; type := numerical; values := x;
                      missingCount := 0; missingRate := PrimFloat.zero |};
                   {| name := "y"; type := numerical; values := y;
                      missingCount := 0; missingRate := PrimFloat.zero |}];
       fileName := "xy.csv" |} !! "x" ≫= (fun row => row !! "y") = Some PrimFloat.nan.
Proof. repeat split; vm_compute; reflexivity. Qed.

(** ** A second cleaning pass *)

(** C8 (the code at the failing input). A price column holding the two
    infinities and an empty cell: the first pass imputes the median of
    -Infinity and Infinity, which is NaN; the second pass finds the NaN
    unparseable, empties the cell and imputes it again. *)
Lemma second_pass_imputes_nan_again (isoDate : any -> option string) :
  let t := {| totalRows := 3; totalColumns := 1;
              columns := [{| name := "price"; type := numerical;
                             values := [Str "-Infinity"; Str "Infinity"; Str ""];
                             missingCount := 1;
                             missingRate := PrimFloat.div PrimFloat.one (natToFloat 3) |}];
              fileName := "prices.csv" |} in
  let first := cleanData isoDate t in
  let second := cleanData isoDate (fst first) in
  map values (columns (fst first))
    = [[Num PrimFloat.neg_infinity; Num PrimFloat.infinity; Num PrimFloat.nan];
       [Bool true; Bool true; Bool true]] /\
  totalImputed (summary (snd first)) = 1 /\
  totalImputed (summary (snd second)) = 1.
Proof. repeat split; vm_compute; reflexivity. Qed.

(** ** The price scenario *)

(** C10 (counterexample). For the numerical column price with the values
    10, -5, n/a, 20 the cleaner returns 10, -5, 10, 20, not
    10, 5, 10, 20. *)
Lemma price_scenario_keeps_negative :
  values (fst (cleanColumn (fun _ => None)
                 {| name := "price"; type := numerical;
                    values := [Str "10"; Str "-5"; Str "n/a"; Str "20"];
                    missingCount := 0; missingRate := PrimFloat.zero |} 4))
  <> [Num (natToFloat 10); Num (natToFloat 5); Num (natToFloat 10); Num (natToFloat 20)].
Proof. vm_compute. discriminate. Qed.

(** C10 (amended). Whatever the recorded type of the column price with
    the values 10, -5, n/a, 20: n/a becomes missing and is imputed; -5 is
    not flipped, since only 2 of the 3 numeric values are >= 0, which is
    not more than 80%; the final values are 10, -5, 10, 20, the missing
    cell holding the median 10 of -5, 10, 20; the final type is
    numerical, one erroneous value was fixed and one value imputed. *)
Theorem price_scenario (isoDate : any -> option string) (columnType : colType)
    (missing : nat) (rate : float) (totalRows : nat) :
  let raw := [Str "10"; Str "-5"; Str "n/a"; Str "20"] in
  let result := cleanColumn isoDate
                  {| name := "price"; type := columnType; values := raw;
                     missingCount := missing; missingRate := rate |} totalRows in
  isPriceOrQuantityColumn raw = false /\
  fst (fixErroneousValues raw columnType) = [Str "10"; Str "-5"; Null; Str "20"] /\
  values (fst result)
    = [Num (natToFloat 10); Num (PrimFloat.opp (natToFloat 5)); Num (natToFloat 10);
       Num (natToFloat 20)] /\
  type (fst result) = numerical /\
  finalType (snd result) = numerical /\
  erroneousValuesFixed (snd result) = 1 /\
  missingValuesImputed (snd result) = 1 /\
  imputationMethod (snd result) = Some "median".
Proof. destruct columnType; repeat split; vm_compute; reflexivity. Qed.

(** ** The cleaner keeps the table rectangular *)

Lemma length_mapCounting {A B : Type} (f : A -> B * bool) (l : list A) :
  length (fst (mapCounting f l)) = length l.
Proof. unfold mapCounting. simpl. apply length_map. Qed.

Lemma length_fixErroneousValues vs ty :
  length (fst (fixErroneousValues vs ty)) = length vs.
Proof. apply length_mapCounting. Qed.

Lemma length_convertTypes isoDate vs c :
  length (fst (fst (convertTypes isoDate vs c))) = length vs.
Proof.
  unfold convertTypes, convertToFloat, convertToInteger, convertToDate.
  repeat case_match; simpl; by rewrite ?length_map.
Qed.

Lemma length_imputeMissingValues vs ty :
  length (fst (fst (imputeMissingValues vs ty))) = length vs.
Proof.
  unfold imputeMissingValues.
  destruct (length (filter _ vs) =? 0)%nat; [done|].
  destruct ty; simpl; by rewrite length_map.
Qed.

Lemma cleanColumn_values isoDate c n :
  values (fst (cleanColumn isoDate c n)) =
  fst (fst (imputeMissingValues
              (fst (fst (convertTypes isoDate (fst (fixErroneousValues (values c) (type c))) c)))
              (if snd (convertTypes isoDate (fst (fixErroneousValues (values c) (type c))) c)
               then snd (fst (convertTypes isoDate (fst (fixErroneousValues (values c) (type c))) c))
               else type c))).
Proof.
  unfold cleanColumn.
  destruct (fixErroneousValues (values c) (type c)) as [fixed n1]. simpl.
  destruct (convertTypes isoDate fixed c) as [[converted ty] b]. simpl.
  destruct (imputeMissingValues converted (if b then ty else type c)) as [[imputed n2] m].
  reflexivity.
Qed.

Lemma length_cleanColumn isoDate c n :
  length (values (fst (cleanColumn isoDate c n))) = length (values c).
Proof.
  rewrite cleanColumn_values, length_imputeMissingValues, length_convertTypes.
  apply length_fixErroneousValues.
Qed.

(** ** Marking the modified rows *)

Lemma arraySet_length_lt {A : Type} (hole : A) i v (l : list A) :
  i < length l -> length (arraySet hole i v l) = length l.
Proof.
  intros Hi. unfold arraySet.
  destruct (Nat.ltb_spec i (length l)); [|lia]. apply length_insert.
Qed.

Lemma arraySet_lookup_true i (l : list any) j :
  arraySet Undefined i (Bool true) l !! j = Some (Bool true)
  <-> j = i \/ l !! j = Some (Bool true).
Proof.
  unfold arraySet. destruct (Nat.ltb_spec i (length l)) as [Hi|Hi].
  - destruct (decide (j = i)) as [->|Hne].
    + rewrite list_lookup_insert_eq by done. naive_solver.
    + rewrite list_lookup_insert_ne by done. split; [auto|]. by intros [->|H].
  - destruct (decide (j < length l)) as [Hj|Hj].
    + rewrite lookup_app_l by done. split; [auto|]. intros [->|H]; [lia|done].
    + rewrite lookup_app_r by lia.
      rewrite (lookup_ge_None_2 l j) by lia.
      destruct (decide (j - length l < i - length l)) as [Hk|Hk].
      * rewrite lookup_app_l by (rewrite length_replicate; lia).
        rewrite lookup_replicate_2 by done. split; [done|]. intros [->|H]; [lia|done].
      * rewrite lookup_app_r by (rewrite length_replicate; lia).
        rewrite length_replicate.
        destruct (decide (j = i)) as [->|Hne].
        -- replace (i - length l - (i - length l)) with 0 by lia. naive_solver.
        -- destruct (j - length l - (i - length l)) as [|k] eqn:E; [lia|].
           simpl. split; [done|]. intros [->|H]; done.
Qed.

Lemma arraySet_isFlag i (l : list any) :
  Forall isFlag l -> Forall isFlag (arraySet Undefined i (Bool true) l).
Proof.
  intros Hl. unfold arraySet. destruct (i <? length l)%nat.
  - apply Forall_insert; [done|]. by left.
  - apply Forall_app. split; [done|]. apply Forall_app. split.
    + apply Forall_replicate. right; by right.
    + repeat constructor.
Qed.

Lemma elem_of_indexed {A : Type} (l : list A) i v :
  (i, v) ∈ zip (seq 0 (length l)) l <-> l !! i = Some v.
Proof.
  rewrite list_elem_of_lookup. split.
  - intros [j Hj]. apply lookup_zip_with_Some in Hj as (x & y & [= -> ->] & Hx & Hy).
    apply lookup_seq in Hx as [-> _]. done.
  - intros Hv. exists i. apply lookup_zip_with_Some. exists i, v.
    split; [done|]. split; [|done]. apply lookup_seq. split; [done|].
    by apply lookup_lt_Some in Hv.
Qed.

Section MarkRows.

Variable original : list any.

Lemma markRows_fold (ps : list (nat * any)) (rows : gset nat) (flags : list any) :
  let r := fold_left (markRow original) ps (rows, flags) in
  (forall i, i ∈ fst r <-> i ∈ rows \/ exists v, (i, v) ∈ ps /\ differs original i v) /\
  (forall i, snd r !! i = Some (Bool true)
             <-> flags !! i = Some (Bool true) \/ exists v, (i, v) ∈ ps /\ differs original i v) /\
  (Forall isFlag flags -> Forall isFlag (snd r)) /\
  ((forall i v, (i, v) ∈ ps -> i < length flags) -> length (snd r) = length flags).
Proof.
  revert rows flags. induction ps as [|[index value] ps IH]; intros rows flags; simpl.
  - repeat split; try done; try (intros [H|(v & H & _)]; [done|by apply elem_of_nil in H]); auto.
  - unfold differs in *.
    destruct (strictEquals value (default Undefined (original !! index))) eqn:E; simpl.
    + destruct (IH rows flags) as (H1 & H2 & H3 & H4). repeat split.
      * intros Hi. apply H1 in Hi as [Hi|(v & Hv & Hd)]; [by left|].
        right. exists v. split; [by right|done].
      * intros [Hi|(v & Hv & Hd)]; apply H1; [by left|].
        apply elem_of_cons in Hv as [[= -> ->]|Hv]; [congruence|]. right; eauto.
      * intros Hi. apply H2 in Hi as [Hi|(v & Hv & Hd)]; [by left|].
        right. exists v. split; [by right|done].
      * intros [Hi|(v & Hv & Hd)]; apply H2; [by left|].
        apply elem_of_cons in Hv as [[= -> ->]|Hv]; [congruence|]. right; eauto.
      * done.
      * intros Hlt. apply H4. intros i v Hv. apply (Hlt i v). by right.
    + destruct (IH ({[index]} ∪ rows) (arraySet Undefined index (Bool true) flags))
        as (H1 & H2 & H3 & H4). repeat split.
      * intros Hi. apply H1 in Hi as [Hi|(v & Hv & Hd)].
        -- apply elem_of_union in Hi as [Hi|Hi]; [|by left].
           apply elem_of_singleton in Hi as ->. right. exists value. split; [by left|done].
        -- right. exists v. split; [by right|done].
      * intros [Hi|(v & Hv & Hd)]; apply H1.
        -- left. apply elem_of_union. by right.
        -- apply elem_of_cons in Hv as [[= -> ->]|Hv]; [left|right; eauto].
           apply elem_of_union. left. by apply elem_of_singleton.
      * intros Hi. apply H2 in Hi as [Hi|(v & Hv & Hd)].
        -- apply arraySet_lookup_true in Hi as [->|Hi]; [|by left].
           right. exists value. split; [by left|done].
        -- right. exists v. split; [by right|done].
      * intros [Hi|(v & Hv & Hd)]; apply H2.
        -- left. apply arraySet_lookup_true. by right.
        -- apply elem_of_cons in Hv as [[= -> ->]|Hv]; [|right; eauto].
           left. apply arraySet_lookup_true. by left.
      * intros Hf. apply H3. by apply arraySet_isFlag.
      * intros Hlt. rewrite H4.
        -- apply arraySet_length_lt. apply (Hlt index value). by left.
        -- intros i v Hv. rewrite arraySet_length_lt.
           ++ apply (Hlt i v). by right.
           ++ apply (Hlt index value). by left.
Qed.

Lemma markRows_spec (cleaned : list any) (rows : gset nat) (flags : list any) :
  let r := markRows cleaned original rows flags in
  (forall i, i ∈ fst r <-> i ∈ rows \/ exists v, cleaned !! i = Some v /\ differs original i v) /\
  (forall i, snd r !! i = Some (Bool true)
             <-> flags !! i = Some (Bool true) \/ exists v, cleaned !! i = Some v /\ differs original i v) /\
  (Forall isFlag flags -> Forall isFlag (snd r)) /\
  (length cleaned <= length flags -> length (snd r) = length flags).
Proof.
  pose proof (markRows_fold (zip (seq 0 (length cleaned)) cleaned) rows flags) as (H1 & H2 & H3 & H4).
  unfold markRows. repeat split.
  - intros Hi. apply H1 in Hi as [Hi|(v & Hv & Hd)]; [by left|].
    right. exists v. by rewrite <- elem_of_indexed.
  - intros [Hi|(v & Hv & Hd)]; apply H1; [by left|].
    right. exists v. by rewrite elem_of_indexed.
  - intros Hi. apply H2 in Hi as [Hi|(v & Hv & Hd)]; [by left|].
    right. exists v. by rewrite <- elem_of_indexed.
  - intros [Hi|(v & Hv & Hd)]; apply H2; [by left|].
    right. exists v. by rewrite elem_of_indexed.
  - done.
  - intros Hlen. apply H4. intros i v Hv. apply elem_of_indexed in Hv.
    apply lookup_lt_Some in Hv. lia.
Qed.

End MarkRows.

Lemma cleanStep_fold isoDate (n : nat) (cols : list DataColumn) (st : cleanState) :
  let st' := fold_left (cleanStep isoDate n) cols st in
  cleanedColumns st' = (cleanedColumns st ++ map (fun c => fst (cleanColumn isoDate c n)) cols)%list /\
  reports st' = (reports st ++ map (fun c => snd (cleanColumn isoDate c n)) cols)%list /\
  (forall i, i ∈ rowsModified st'
             <-> i ∈ rowsModified st \/ exists c, c ∈ cols /\ changedAt isoDate n c i) /\
  (forall i, flagValues st' !! i = Some (Bool true)
             <-> flagValues st !! i = Some (Bool true)
                 \/ exists c, c ∈ cols /\ changedAt isoDate n c i) /\
  (Forall isFlag (flagValues st) -> Forall isFlag (flagValues st')) /\
  (Forall (fun c => length (values c) <= length (flagValues st)) cols ->
   length (flagValues st') = length (flagValues st)).
Proof.
  revert st. induction cols as [|c cols IH]; intros st; simpl.
  - rewrite !app_nil_r. repeat split; auto; intros [H|(c & H & _)]; auto; by apply elem_of_nil in H.
  - specialize (IH (cleanStep isoDate n st c)).
    destruct IH as (H1 & H2 & H3 & H4 & H5 & H6).
    pose proof (markRows_spec (values c) (values (fst (cleanColumn isoDate c n)))
                  (rowsModified st) (flagValues st)) as (M1 & M2 & M3 & M4).
    assert (Hstep : cleanStep isoDate n st c =
              {| cleanedColumns := (cleanedColumns st ++ [fst (cleanColumn isoDate c n)])%list;
                 reports := (reports st ++ [snd (cleanColumn isoDate c n)])%list;
                 rowsModified := fst (markRows (values (fst (cleanColumn isoDate c n))) (values c)
                                        (rowsModified st) (flagValues st));
                 flagValues := snd (markRows (values (fst (cleanColumn isoDate c n))) (values c)
                                      (rowsModified st) (flagValues st)) |}).
    { unfold cleanStep. destruct (cleanColumn isoDate c n) as [cc r]. simpl.
      by destruct (markRows (values cc) (values c) (rowsModified st) (flagValues st)). }
    rewrite Hstep in *. simpl in *. clear Hstep.
    split; [by rewrite H1, <- app_assoc|]. split; [by rewrite H2, <- app_assoc|].
    repeat split.
    + intros Hi. apply H3 in Hi as [Hi|(c' & Hc & Hch)].
      * apply M1 in Hi as [Hi|Hi]; [by left|]. right. exists c. split; [by left|done].
      * right. exists c'. split; [by right|done].
    + intros [Hi|(c' & Hc & Hch)]; apply H3.
      * left. apply M1. by left.
      * apply elem_of_cons in Hc as [->|Hc]; [|right; eauto]. left. apply M1. by right.
    + intros Hi. apply H4 in Hi as [Hi|(c' & Hc & Hch)].
      * apply M2 in Hi as [Hi|Hi]; [by left|]. right. exists c. split; [by left|done].
      * right. exists c'. split; [by right|done].
    + intros [Hi|(c' & Hc & Hch)]; apply H4.
      * left. apply M2. by left.
      * apply elem_of_cons in Hc as [->|Hc]; [|right; eauto]. left. apply M2. by right.
    + intros Hf. auto.
    + intros Hlen. apply Forall_cons in Hlen as [Hc Hlen].
      assert (Hkeep : length (snd (markRows (values (fst (cleanColumn isoDate c n))) (values c)
                                     (rowsModified st) (flagValues st)))
                      = length (flagValues st)).
      { apply M4. by rewrite length_cleanColumn. }
      rewrite H6; [done|]. by rewrite Hkeep.
Qed.

(** The number of [true] flags is the size of the set of their rows. *)
Lemma size_true_flags (flags : list any) (rows : gset nat) :
  (forall i, i ∈ rows <-> flags !! i = Some (Bool true)) ->
  size rows = length (List.filter isTrue flags).
Proof.
  revert rows. induction flags as [|v flags IH] using rev_ind; intros rows Hrows.
  - assert (rows = ∅) as ->; [|done].
    apply set_eq. intros i. rewrite Hrows, lookup_nil. split; [done|].
    intros Hi. by apply not_elem_of_empty in Hi.
  - rewrite List.filter_app, length_app. simpl.
    assert (Hlast : length flags ∈ rows <-> v = Bool true).
    { rewrite Hrows, lookup_app_r, Nat.sub_diag by lia. simpl.
      split; [by intros [= ->]|by intros ->]. }
    assert (Hrest : forall i, i ∈ rows ∖ {[length flags]} <-> flags !! i = Some (Bool true)).
    { intros i. rewrite elem_of_difference, elem_of_singleton, Hrows. split.
      - intros [Hi Hne]. destruct (decide (i < length flags)) as [Hlt|Hge].
        + by rewrite lookup_app_l in Hi.
        + rewrite lookup_app_r in Hi by lia.
          destruct (i - length flags) as [|k] eqn:E; [lia|]. done.
      - intros Hi. pose proof (lookup_lt_Some _ _ _ Hi). split; [|lia].
        by rewrite lookup_app_l. }
    rewrite <- (IH _ Hrest).
    destruct (isTrue v) eqn:E; simpl.
    + assert (length flags ∈ rows) as Hin.
      { apply Hlast. by destruct v as [| | | |[|]]. }
      rewrite size_difference by (by apply singleton_subseteq_l). rewrite size_singleton.
      assert (size rows ≠ 0); [|lia].
      intros Hz. apply size_empty_inv in Hz. set_solver.
    + assert (length flags ∉ rows) as Hnin.
      { rewrite Hlast. intros ->. done. }
      rewrite Nat.add_0_r. f_equal. symmetry. apply difference_disjoint_L.
      by apply disjoint_singleton_r.
Qed.

(** C2. For a table whose columns all have [totalRows] values, the
    cleaned table has one column more in [totalColumns] and in
    [columns], the same [totalRows], and every column of it, the
    appended flag column included, has [totalRows] values. *)
Theorem cleaned_table_is_rectangular (isoDate : any -> option string) (t : DataSummary) :
  Forall (fun c => length (values c) = totalRows t) (columns t) ->
  let cleaned := fst (cleanData isoDate t) in
  totalColumns cleaned = totalColumns t + 1 /\
  totalRows cleaned = totalRows t /\
  length (columns cleaned) = length (columns t) + 1 /\
  Forall (fun c => length (values c) = totalRows t) (columns cleaned).
Proof.
  intros Hrect. simpl.
  pose proof (cleanStep_fold isoDate (totalRows t) (columns t)
                {| cleanedColumns := []; reports := []; rowsModified := ∅;
                   flagValues := replicate (totalRows t) (Bool false) |})
    as (H1 & _ & _ & _ & _ & H6).
  simpl in *. rewrite H1.
  split; [done|]. split; [done|]. split.
  - by rewrite length_app, length_map.
  - apply Forall_app. split.
    + apply Forall_map. eapply Forall_impl; [exact Hrect|].
      intros c Hc. simpl. by rewrite length_cleanColumn.
    + constructor; [|constructor]. simpl. rewrite H6.
      * apply length_replicate.
      * eapply Forall_impl; [exact Hrect|]. intros c Hc. simpl.
        rewrite length_replicate. simpl in Hc. lia.
Qed.

(** C2 (witness): a table of two columns and two rows. *)
Lemma cleaned_table_is_rectangular_witness :
  let t := {| totalRows := 2; totalColumns := 2;
              columns := [{| name := "price"; type := text; values := [Str "$5"; Str "n/a"];
                             missingCount := 0; missingRate := PrimFloat.zero |};
                          {| name := "city"; type := text; values := [Str "Oslo"; Str ""];
                             missingCount := 1;
                             missingRate := PrimFloat.div PrimFloat.one PrimFloat.two |}];
              fileName := "cities.csv" |} in
  let cleaned := fst (cleanData (fun _ => None) t) in
  totalColumns cleaned = 3 /\ totalRows cleaned = 2 /\ length (columns cleaned) = 3 /\
  Forall (fun c => length (values c) = 2) (columns cleaned).
Proof.
  apply (cleaned_table_is_rectangular (fun _ => None)
           {| totalRows := 2; totalColumns := 2;
              columns := [{| name := "price"; type := text; values := [Str "$5"; Str "n/a"];
                             missingCount := 0; missingRate := PrimFloat.zero |};
                          {| name := "city"; type := text; values := [Str "Oslo"; Str ""];
                             missingCount := 1;
                             missingRate := PrimFloat.div PrimFloat.one PrimFloat.two |}];
              fileName := "cities.csv" |}).
  repeat constructor.
Defined.

Lemma markRows_keeps_booleans (original cleaned : list any) (rows : gset nat) (flags : list any) :
  length cleaned <= length flags ->
  Forall isBool flags ->
  Forall isBool (snd (markRows cleaned original rows flags)).
Proof.
  unfold markRows. intros Hlen.
  assert (Hps : forall i v, (i, v) ∈ zip (seq 0 (length cleaned)) cleaned -> i < length flags).
  { intros i v Hv. apply elem_of_indexed, lookup_lt_Some in Hv. lia. }
  revert rows flags Hlen Hps.
  induction (zip (seq 0 (length cleaned)) cleaned) as [|[index value] ps IH];
    intros rows flags Hlen Hps Hb; simpl; [done|].
  assert (index < length flags) as Hi by (apply (Hps index value); by left).
  destruct (negb (strictEquals value (default Undefined (original !! index)))).
  - apply IH.
    + by rewrite arraySet_length_lt.
    + intros i v Hv. rewrite arraySet_length_lt by done. apply (Hps i v). by right.
    + unfold arraySet. destruct (Nat.ltb_spec index (length flags)); [|lia].
      apply Forall_insert; [done|]. by exists true.
  - apply IH; [done| |done]. intros i v Hv. apply (Hps i v). by right.
Qed.

Lemma cleanStep_keeps_booleans isoDate (n : nat) (cols : list DataColumn) (st : cleanState) :
  Forall (fun c => length (values c) <= length (flagValues st)) cols ->
  Forall isBool (flagValues st) ->
  Forall isBool (flagValues (fold_left (cleanStep isoDate n) cols st)).
Proof.
  revert st. induction cols as [|c cols IH]; intros st Hlen Hb; simpl; [done|].
  apply Forall_cons in Hlen as [Hc Hlen].
  pose proof (markRows_spec (values c) (values (fst (cleanColumn isoDate c n)))
                (rowsModified st) (flagValues st)) as (_ & _ & _ & M4).
  pose proof (markRows_keeps_booleans (values c) (values (fst (cleanColumn isoDate c n)))
                (rowsModified st) (flagValues st)) as M5.
  rewrite length_cleanColumn in M4, M5.
  assert (Hflags : flagValues (cleanStep isoDate n st c)
                   = snd (markRows (values (fst (cleanColumn isoDate c n))) (values c)
                            (rowsModified st) (flagValues st))).
  { unfold cleanStep. destruct (cleanColumn isoDate c n) as [cc r]. simpl.
    by destruct (markRows (values cc) (values c) (rowsModified st) (flagValues st)). }
  apply IH; rewrite Hflags.
  - by rewrite M4.
  - by apply M5.
Qed.

(** ** The flag column *)

(** C3 (counterexample). The appended column is named
    nettoyage_effectue, not cleaning_performed. *)
Lemma flag_column_name :
  map name (columns (fst (cleanData (fun _ => None)
                            {| totalRows := 1; totalColumns := 1;
                               columns := [{| name := "city"; type := text;
                                              values := [Str "Oslo"];
                                              missingCount := 0;
                                              missingRate := PrimFloat.zero |}];
                               fileName := "cities.csv" |})))
    = ["city"; "nettoyage_effectue"] /\
  "nettoyage_effectue" <> "cleaning_performed".
Proof. split; [vm_compute; reflexivity|discriminate]. Qed.

(** C3 (amended). For every table, [cleanData] appends to the cleaned
    columns exactly one column, named nettoyage_effectue, of flags: its
    entries are booleans (in a table with a column longer than
    [totalRows] also empty slots). The flag at row [i] is true iff the
    cleaned value of some original column at row [i] differs, under
    [!==], from the raw value of that column at row [i]. The report's
    [totalRowsCleaned] is the number of such rows, which is the number
    of true flags. *)
Theorem cleaning_flag_column (isoDate : any -> option string) (t : DataSummary) :
  let result := cleanData isoDate t in
  exists (flag : DataColumn) (rows : gset nat),
    columns (fst result)
      = (map (fun c => fst (cleanColumn isoDate c (totalRows t))) (columns t) ++ [flag])%list /\
    name flag = "nettoyage_effectue" /\
    Forall isFlag (values flag) /\
    (Forall (fun c => length (values c) <= totalRows t) (columns t) ->
     length (values flag) = totalRows t /\ Forall isBool (values flag)) /\
    (forall i, values flag !! i = Some (Bool true)
               <-> exists c, c ∈ columns t /\ changedAt isoDate (totalRows t) c i) /\
    (forall i, i ∈ rows <-> exists c, c ∈ columns t /\ changedAt isoDate (totalRows t) c i) /\
    totalRowsCleaned (snd result) = size rows /\
    totalRowsCleaned (snd result) = length (List.filter isTrue (values flag)).
Proof.
  simpl.
  set (st0 := {| cleanedColumns := []; reports := []; rowsModified := ∅;
                 flagValues := replicate (totalRows t) (Bool false) |}).
  pose proof (cleanStep_fold isoDate (totalRows t) (columns t) st0)
    as (H1 & _ & H3 & H4 & H5 & H6).
  pose proof (cleanStep_keeps_booleans isoDate (totalRows t) (columns t) st0) as H7.
  set (st := fold_left (cleanStep isoDate (totalRows t)) (columns t) st0) in *.
  simpl in *.
  assert (Hfalse : forall i, replicate (totalRows t) (Bool false) !! i <> Some (Bool true)).
  { intros i Hi. apply lookup_replicate in Hi as [Hi _]. done. }
  assert (Hflag : forall i, flagValues st !! i = Some (Bool true)
                     <-> exists c, c ∈ columns t /\ changedAt isoDate (totalRows t) c i).
  { intros i. rewrite H4. split; [|by right]. intros [Hi|Hi]; [by apply Hfalse in Hi|done]. }
  assert (Hrows : forall i, i ∈ rowsModified st
                     <-> exists c, c ∈ columns t /\ changedAt isoDate (totalRows t) c i).
  { intros i. rewrite H3. split; [|by right]. intros [Hi|Hi]; [set_solver|done]. }
  eexists {| name := "nettoyage_effectue"; type := categorical; values := flagValues st;
             missingCount := 0; missingRate := PrimFloat.zero |}, (rowsModified st).
  simpl. split; [by rewrite H1|]. split; [done|]. split.
  { apply H5. apply Forall_replicate. right; by left. }
  split.
  { intros Hlen. rewrite length_replicate in H6, H7. split.
    - by apply H6.
    - apply H7; [done|]. apply Forall_replicate. by exists false. }
  split; [done|]. split; [done|]. split; [done|].
  apply size_true_flags. intros i. by rewrite Hrows, Hflag.
Qed.

(** ** Map keys *)

Lemma canonKey_idem (v : any) : canonKey (canonKey v) = canonKey v.
Proof.
  destruct v as [| |x|s|b]; simpl; try done.
  destruct (PrimFloat.eqb x PrimFloat.zero) eqn:E; simpl; [done|]. by rewrite E.
Qed.

Lemma sameValueZero_canon (a b : any) :
  sameValueZero a b = true <-> canonKey a = canonKey b.
Proof.
  unfold sameValueZero.
  destruct (canonKey a) as [| |x|s|p], (canonKey b) as [| |y|t|q]; split; intros H; try done.
  - apply FloatAxioms.Leibniz.eqb_spec in H. by subst.
  - injection H as ->. by apply FloatAxioms.Leibniz.eqb_spec.
  - apply String.eqb_eq in H. by subst.
  - injection H as ->. apply String.eqb_refl.
  - apply Bool.eqb_prop in H. by subst.
  - injection H as ->. by destruct q.
Qed.

Lemma sameValueZero_refl (a : any) : sameValueZero a a = true.
Proof. by apply sameValueZero_canon. Qed.

Lemma sameValueZero_sym (a b : any) : sameValueZero a b = sameValueZero b a.
Proof.
  destruct (sameValueZero a b) eqn:E1, (sameValueZero b a) eqn:E2; try done.
  - apply sameValueZero_canon in E1. symmetry in E1. apply sameValueZero_canon in E1. congruence.
  - apply sameValueZero_canon in E2. symmetry in E2. apply sameValueZero_canon in E2. congruence.
Qed.

Lemma sameValueZero_trans (a b c : any) :
  sameValueZero a b = true -> sameValueZero b c = true -> sameValueZero a c = true.
Proof. rewrite !sameValueZero_canon. congruence. Qed.

Lemma sameValueZero_canonKey (a : any) : sameValueZero (canonKey a) a = true.
Proof. apply sameValueZero_canon, canonKey_idem. Qed.

(** Two values that are the same value are so for any third one. *)
Lemma sameValueZero_congr (a b c : any) :
  sameValueZero a b = true -> sameValueZero a c = sameValueZero b c.
Proof.
  intros Hab. destruct (sameValueZero a c) eqn:E1, (sameValueZero b c) eqn:E2; try done.
  - rewrite sameValueZero_sym in Hab.
    by rewrite (sameValueZero_trans b a c Hab E1) in E2.
  - by rewrite (sameValueZero_trans a b c Hab E2) in E1.
Qed.

Lemma occurrences_congr (l : list any) (a b : any) :
  sameValueZero a b = true -> occurrences l a = occurrences l b.
Proof.
  intros Hab. unfold occurrences. induction l as [|v l IH]; [done|].
  simpl. rewrite (sameValueZero_congr a b v Hab). destruct (sameValueZero b v); simpl; congruence.
Qed.

Lemma firstIndex_congr (l : list any) (a b : any) :
  sameValueZero a b = true -> firstIndex l a = firstIndex l b.
Proof.
  intros Hab. induction l as [|v l IH]; [done|].
  simpl. rewrite (sameValueZero_congr a b v Hab). destruct (sameValueZero b v); congruence.
Qed.

Lemma occurrences_app (l1 l2 : list any) (w : any) :
  occurrences (l1 ++ l2) w = occurrences l1 w + occurrences l2 w.
Proof. unfold occurrences. by rewrite List.filter_app, length_app. Qed.

Lemma occurrences_pos_elem (l : list any) (w : any) :
  0 < occurrences l w <-> exists v, v ∈ l /\ sameValueZero w v = true.
Proof.
  unfold occurrences. induction l as [|x l IH]; simpl.
  - split; [lia|]. intros (v & Hv & _). by apply elem_of_nil in Hv.
  - destruct (sameValueZero w x) eqn:E; simpl.
    + split; [|lia]. intros _. exists x. split; [by left|done].
    + rewrite IH. split.
      * intros (v & Hv & Hs). exists v. split; [by right|done].
      * intros (v & Hv & Hs). apply elem_of_cons in Hv as [->|Hv]; [congruence|eauto].
Qed.

Lemma firstIndex_lt (l : list any) (w : any) :
  firstIndex l w < length l <-> 0 < occurrences l w.
Proof.
  unfold occurrences. induction l as [|x l IH]; simpl; [lia|].
  destruct (sameValueZero w x); simpl; lia.
Qed.

Lemma firstIndex_app_l (l1 l2 : list any) (w : any) :
  0 < occurrences l1 w -> firstIndex (l1 ++ l2) w = firstIndex l1 w.
Proof.
  unfold occurrences. induction l1 as [|x l IH]; simpl; [lia|].
  destruct (sameValueZero w x); simpl; [done|]. intros H. by rewrite IH.
Qed.

Lemma firstIndex_app_r (l1 l2 : list any) (w : any) :
  occurrences l1 w = 0 -> firstIndex (l1 ++ l2) w = length l1 + firstIndex l2 w.
Proof.
  unfold occurrences. induction l1 as [|x l IH]; simpl; [done|].
  destruct (sameValueZero w x); simpl; [done|]. intros H. by rewrite IH.
Qed.

(** ** The frequency map *)

Lemma map_miss {V : Type} (es : Map V) (w : any) (x : V) :
  (forall i k n, es !! i = Some (k, n) -> sameValueZero k w = false) ->
  mapGet es w = None /\ mapSet es w x = (es ++ [(canonKey w, x)])%list.
Proof.
  induction es as [|[k n] es IH]; intros Hmiss; simpl; [done|].
  rewrite (Hmiss 0 k n eq_refl).
  destruct IH as [IH1 IH2].
  { intros i k' n' Hi. apply (Hmiss (S i) k' n' Hi). }
  by rewrite IH1, IH2.
Qed.

Lemma map_hit {V : Type} (es : Map V) (p : nat) (k : any) (n : V) (w : any) (x : V) :
  es !! p = Some (k, n) ->
  sameValueZero k w = true ->
  (forall i k' n', es !! i = Some (k', n') -> sameValueZero k' w = true -> i = p) ->
  mapGet es w = Some n /\ mapSet es w x = <[p := (k, x)]> es.
Proof.
  revert p. induction es as [|[k0 n0] es IH]; intros p Hp Hk Huniq; [done|].
  simpl. destruct (sameValueZero k0 w) eqn:E.
  - assert (0 = p) as <- by (by apply (Huniq 0 k0 n0)).
    simpl in Hp. injection Hp as -> ->. done.
  - destruct p as [|p]; [simpl in Hp; congruence|]. simpl in Hp.
    destruct (IH p Hp Hk) as [IH1 IH2].
    { intros i k' n' Hi Hs. by injection (Huniq (S i) k' n' Hi Hs). }
    by rewrite IH1, IH2.
Qed.

Lemma occurrences_singleton (v k : any) :
  occurrences [v] k = if sameValueZero k v then 1 else 0.
Proof. unfold occurrences. simpl. by destruct (sameValueZero k v). Qed.

Lemma countValues_snoc (l : list any) (v : any) :
  countValues (l ++ [v]) =
  mapSet (countValues l) v (default 0 (mapGet (countValues l) v) + 1).
Proof. unfold countValues. by rewrite fold_left_app. Qed.

(** The entries of the frequency map of [l]: each key is the stored form
    of an element of [l] and comes with the number of its occurrences;
    every element has its entry; the entries are in the order of the
    first occurrences. *)
Lemma countValues_spec (l : list any) :
  let es := countValues l in
  (forall i k n, es !! i = Some (k, n) ->
                 n = occurrences l k /\ 0 < n /\ exists v, v ∈ l /\ k = canonKey v) /\
  (forall w, 0 < occurrences l w ->
             exists i k n, es !! i = Some (k, n) /\ sameValueZero k w = true) /\
  (forall i j ki ni kj nj,
      es !! i = Some (ki, ni) -> es !! j = Some (kj, nj) -> i < j ->
      firstIndex l ki < firstIndex l kj).
Proof.
  induction l as [|v l IH] using rev_ind.
  { simpl. repeat split; try done. unfold occurrences. simpl. lia. }
  destruct IH as (A1 & A2 & A3). rewrite countValues_snoc.
  set (es := countValues l) in *. simpl.
  assert (Huniq : forall i j ki ni kj nj,
             es !! i = Some (ki, ni) -> es !! j = Some (kj, nj) ->
             sameValueZero ki kj = true -> i = j).
  { intros i j ki ni kj nj Hi Hj Hs.
    pose proof (firstIndex_congr l ki kj Hs) as Hf.
    destruct (Nat.lt_trichotomy i j) as [Hlt|[Heq|Hgt]]; [|done|].
    - pose proof (A3 i j ki ni kj nj Hi Hj Hlt). lia.
    - pose proof (A3 j i kj nj ki ni Hj Hi Hgt). lia. }
  destruct (decide (0 < occurrences l v)) as [Hocc|Hocc].
  - (* the value is already a key *)
    destruct (A2 v Hocc) as (p & k & n & Hp & Hk).
    destruct (map_hit es p k n v (n + 1) Hp Hk) as [Hget Hset].
    { intros i k' n' Hi Hs. apply (Huniq i p k' n' k n Hi Hp).
      rewrite sameValueZero_sym in Hk. by apply (sameValueZero_trans k' v k). }
    rewrite Hget. simpl. rewrite Hset.
    assert (Hentry : forall i k' n', <[p:=(k, n + 1)]> es !! i = Some (k', n') ->
               (i = p /\ k' = k /\ n' = n + 1) \/
               (i <> p /\ es !! i = Some (k', n') /\ sameValueZero k' v = false)).
    { intros i k' n' Hi. destruct (decide (i = p)) as [->|Hne].
      - rewrite list_lookup_insert_eq in Hi by (by apply lookup_lt_Some in Hp).
        injection Hi as <- <-. by left.
      - rewrite list_lookup_insert_ne in Hi by done. right. split; [done|]. split; [done|].
        destruct (sameValueZero k' v) eqn:Hs; [|done]. destruct Hne.
        apply (Huniq i p k' n' k n Hi Hp).
        rewrite sameValueZero_sym in Hk. by apply (sameValueZero_trans k' v k). }
    assert (Hkey : forall i k' n', <[p:=(k, n + 1)]> es !! i = Some (k', n') ->
               exists n0, es !! i = Some (k', n0)).
    { intros i k' n' Hi. apply Hentry in Hi as [(-> & -> & _)|(_ & Hi & _)]; eauto. }
    repeat split.
    + apply Hentry in H as [(-> & -> & ->)|(Hne & Hi & Hs)].
      * rewrite occurrences_app, occurrences_singleton, Hk.
        by destruct (A1 p k n Hp) as (<- & _).
      * rewrite occurrences_app, occurrences_singleton, Hs.
        destruct (A1 i k0 n0 Hi) as (-> & _). lia.
    + apply Hentry in H as [(-> & -> & ->)|(Hne & Hi & Hs)]; [lia|].
      by destruct (A1 i k0 n0 Hi) as (_ & ? & _).
    + apply Hkey in H as (n1 & Hi). destruct (A1 i k0 n1 Hi) as (_ & _ & w & Hw & ->).
      exists w. split; [|done]. apply elem_of_app. by left.
    + intros w Hw.
      assert (0 < occurrences l w) as Hw'.
      { rewrite occurrences_app, occurrences_singleton in Hw.
        destruct (sameValueZero w v) eqn:Hs; [|lia].
        by rewrite (occurrences_congr l w v Hs). }
      destruct (A2 w Hw') as (i & k' & n' & Hi & Hs).
      destruct (decide (i = p)) as [->|Hne].
      * exists p, k, (n + 1). rewrite list_lookup_insert_eq by (by apply lookup_lt_Some in Hp).
        split; [done|]. rewrite Hp in Hi. by injection Hi as -> _.
      * exists i, k', n'. by rewrite list_lookup_insert_ne.
    + intros i j ki ni kj nj Hi Hj Hlt.
      apply Hkey in Hi as (ni' & Hi). apply Hkey in Hj as (nj' & Hj).
      destruct (A1 i ki ni' Hi) as (-> & Hpi & _). destruct (A1 j kj nj' Hj) as (-> & Hpj & _).
      rewrite !firstIndex_app_l by done. by apply (A3 i j ki _ kj _ Hi Hj).
  - (* a new key *)
    assert (occurrences l v = 0) as Hzero by lia.
    assert (Hmiss : forall i k n, es !! i = Some (k, n) -> sameValueZero k v = false).
    { intros i k n Hi. destruct (sameValueZero k v) eqn:Hs; [|done].
      destruct (A1 i k n Hi) as (-> & Hpos & _).
      rewrite (occurrences_congr l k v Hs) in Hpos. lia. }
    destruct (map_miss es v 1 Hmiss) as [Hget Hset].
    rewrite Hget. simpl. rewrite Hset.
    assert (Hentry : forall i k n, (es ++ [(canonKey v, 1)])%list !! i = Some (k, n) ->
               (es !! i = Some (k, n) /\ sameValueZero k v = false) \/
               (i = length es /\ k = canonKey v /\ n = 1)).
    { intros i k n Hi. apply lookup_app_Some in Hi as [Hi|[Hge Hi]].
      - left. split; [done|]. by apply (Hmiss i k n).
      - right. destruct (i - length es) as [|d] eqn:E; [|done].
        simpl in Hi. injection Hi as <- <-. split; [lia|done]. }
    assert (Hnew : occurrences l (canonKey v) = 0).
    { by rewrite (occurrences_congr l _ v (sameValueZero_canonKey v)). }
    repeat split.
    + apply Hentry in H as [(Hi & Hs)|(-> & -> & ->)].
      * rewrite occurrences_app, occurrences_singleton, Hs.
        destruct (A1 i k n Hi) as (-> & _). lia.
      * by rewrite occurrences_app, occurrences_singleton, sameValueZero_canonKey, Hnew.
    + apply Hentry in H as [(Hi & Hs)|(-> & -> & ->)]; [|lia].
      by destruct (A1 i k n Hi) as (_ & ? & _).
    + apply Hentry in H as [(Hi & Hs)|(-> & -> & ->)].
      * destruct (A1 i k n Hi) as (_ & _ & w & Hw & ->).
        exists w. split; [|done]. apply elem_of_app. by left.
      * exists v. split; [|done]. apply elem_of_app. right. by left.
    + intros w Hw. rewrite occurrences_app, occurrences_singleton in Hw.
      destruct (decide (0 < occurrences l w)) as [Hw'|Hw'].
      * destruct (A2 w Hw') as (i & k & n & Hi & Hs).
        exists i, k, n. split; [|done]. by apply lookup_app_l_Some.
      * destruct (sameValueZero w v) eqn:Hs; [|lia].
        exists (length es), (canonKey v), 1. split.
        -- by rewrite lookup_app_r, Nat.sub_diag by lia.
        -- rewrite sameValueZero_sym in Hs.
           apply (sameValueZero_trans _ v _ (sameValueZero_canonKey v) Hs).
    + intros i j ki ni kj nj Hi Hj Hlt.
      apply Hentry in Hi as [(Hi & Hsi)|(-> & -> & ->)];
        apply Hentry in Hj as [(Hj & Hsj)|(-> & -> & ->)].
      * destruct (A1 i ki ni Hi) as (-> & Hpi & _). destruct (A1 j kj nj Hj) as (-> & Hpj & _).
        rewrite !firstIndex_app_l by done. by apply (A3 i j ki _ kj _ Hi Hj).
      * destruct (A1 i ki ni Hi) as (-> & Hpi & _).
        rewrite firstIndex_app_l by done. rewrite firstIndex_app_r by done.
        apply firstIndex_lt in Hpi. lia.
      * apply lookup_lt_Some in Hj. lia.
      * lia.
Qed.

(** [reduce((a, b) => a[1] > b[1] ? a : b)] returns the last of the
    entries with the greatest count. *)
Lemma mostFrequent_spec (first : any * nat) (rest : list (any * nat)) :
  let r := fold_left (fun a b => if (snd b <? snd a)%nat then a else b) rest first in
  exists j, (first :: rest) !! j = Some r /\
            forall i e, (first :: rest) !! i = Some e ->
                        snd e <= snd r /\ (snd e = snd r -> i <= j).
Proof.
  induction rest as [|b rest IH] using rev_ind; simpl.
  - exists 0. split; [done|]. intros [|i] e He; [|done]. injection He as <-. lia.
  - rewrite fold_left_app. simpl.
    destruct IH as (j & Hj & Hmax).
    set (r := fold_left _ rest first) in *.
    assert (Hlast : (first :: rest ++ [b]) !! (S (length rest)) = Some b).
    { simpl. by rewrite lookup_app_r, Nat.sub_diag by lia. }
    assert (Hsplit : forall i e, (first :: rest ++ [b]) !! i = Some e ->
               (first :: rest) !! i = Some e \/ (i = S (length rest) /\ e = b)).
    { intros i e He. change (first :: rest ++ [b]) with ((first :: rest) ++ [b])%list in He.
      apply lookup_app_Some in He as [He|[Hge He]]; [by left|right].
      simpl in *. destruct (i - S (length rest)) as [|d] eqn:E; [|done].
      injection He as <-. split; [lia|done]. }
    destruct (Nat.ltb_spec (snd b) (snd r)) as [Hlt|Hge].
    + exists j. split.
      { change (first :: rest ++ [b]) with ((first :: rest) ++ [b])%list.
        by apply lookup_app_l_Some. }
      intros i e He. apply Hsplit in He as [He|[-> ->]]; [by apply Hmax|]. lia.
    + exists (S (length rest)). split; [done|].
      intros i e He. pose proof (lookup_lt_Some _ _ _ He) as Hi. simpl in Hi.
      rewrite length_app in Hi. simpl in Hi.
      apply Hsplit in He as [He|[-> ->]]; [|lia].
      destruct (Hmax i e He) as [Hle _]. lia.
Qed.

Lemma imputed_values (values : list any) (m : any) :
  mapCounting (fun value => if isMissing value then (m, true) else (value, false)) values
  = (map (fun v => if isMissing v then m else v) values,
     length (filter (fun v => isMissing v) values)).
Proof.
  unfold mapCounting. f_equal.
  - apply map_ext. intros v. by destruct (isMissing v).
  - f_equal. induction values as [|v l IH]; [done|].
    rewrite !filter_cons. destruct (isMissing v) eqn:E; simpl; by rewrite IH.
Qed.

(** ** Imputation of a categorical column *)

(** C9 (counterexample). With a tie between a, met first, and b, the
    missing cell gets b. *)
Lemma mode_tie_goes_to_last_value :
  imputeMissingValues [Str "a"; Str "b"; Null] categorical
  = ([Str "a"; Str "b"; Str "b"], 1, "mode").
Proof. vm_compute. reflexivity. Qed.

(** C9 (amended). When a categorical column has a non-missing value,
    every missing cell gets one and the same value [m]: a mode of the
    non-missing values, that is, no value occurs more often; and among
    the values that occur as often, [m] is the one met last: none has
    its first occurrence after the first occurrence of [m]. *)
Theorem categorical_imputation_takes_last_mode (values : list any) :
  let present := filter (fun v => negb (isMissing v)) values in
  present <> [] ->
  exists m,
    imputeMissingValues values categorical
      = (map (fun v => if isMissing v then m else v) values,
         length (filter (fun v => isMissing v) values), "mode") /\
    (exists v, v ∈ present /\ m = canonKey v) /\
    (forall w, w ∈ present ->
       occurrences present w <= occurrences present m /\
       (occurrences present w = occurrences present m ->
        firstIndex present w <= firstIndex present m)).
Proof.
  intros present Hne. unfold imputeMissingValues. fold present.
  destruct (Nat.eqb_spec (length present) 0) as [Hz|_].
  { destruct present; [done|simpl in Hz; lia]. }
  pose proof (countValues_spec present) as (A1 & A2 & A3). simpl in A1, A2, A3.
  destruct (countValues present) as [|first rest] eqn:Hes.
  { destruct present as [|v l]; [done|].
    destruct (A2 v) as (i & k & n & Hi & _); [|done].
    apply occurrences_pos_elem. exists v. split; [by left|apply sameValueZero_refl]. }
  unfold mostFrequent.
  destruct (mostFrequent_spec first rest) as (j & Hj & Hmax). simpl in Hj, Hmax.
  set (r := fold_left _ rest first) in *.
  destruct r as [m c] eqn:Hr. simpl in *.
  exists m. pose proof (imputed_values values m) as Himp. unfold mapCounting in Himp. rewrite Himp. split; [done|].
  destruct (A1 j m c Hj) as (Hc & Hpos & Hm).
  split; [done|].
  intros w Hw.
  assert (0 < occurrences present w) as Hocc.
  { apply occurrences_pos_elem. exists w. split; [done|apply sameValueZero_refl]. }
  destruct (A2 w Hocc) as (i & k & n & Hi & Hk).
  destruct (A1 i k n Hi) as (Hn & _ & _).
  rewrite (occurrences_congr present k w Hk) in Hn.
  destruct (Hmax i (k, n) Hi) as [Hle Hlast]. simpl in Hle, Hlast.
  split; [lia|]. intros Heq.
  assert (i <= j) as Hij by (apply Hlast; lia).
  destruct (decide (i = j)) as [->|Hneq].
  - rewrite Hj in Hi. injection Hi as <- <-.
    by rewrite (firstIndex_congr present m w Hk).
  - rewrite <- (firstIndex_congr present k w Hk).
    assert (i < j) as Hlt by lia.
    pose proof (A3 i j k n m c Hi Hj Hlt). lia.
Qed.

(** C9 (witness): a column where a and b both occur twice. *)
Lemma categorical_imputation_takes_last_mode_witness :
  exists m,
    imputeMissingValues [Str "b"; Str "a"; Null; Str "a"; Str "b"; Str "c"] categorical
      = (map (fun v => if isMissing v then m else v)
             [Str "b"; Str "a"; Null; Str "a"; Str "b"; Str "c"],
         length (filter (fun v => isMissing v)
                        [Str "b"; Str "a"; Null; Str "a"; Str "b"; Str "c"]), "mode") /\
    (exists v, v ∈ [Str "b"; Str "a"; Str "a"; Str "b"; Str "c"] /\ m = canonKey v) /\
    (forall w, w ∈ [Str "b"; Str "a"; Str "a"; Str "b"; Str "c"] ->
       occurrences [Str "b"; Str "a"; Str "a"; Str "b"; Str "c"] w
       <= occurrences [Str "b"; Str "a"; Str "a"; Str "b"; Str "c"] m /\
       (occurrences [Str "b"; Str "a"; Str "a"; Str "b"; Str "c"] w
        = occurrences [Str "b"; Str "a"; Str "a"; Str "b"; Str "c"] m ->
        firstIndex [Str "b"; Str "a"; Str "a"; Str "b"; Str "c"] w
        <= firstIndex [Str "b"; Str "a"; Str "a"; Str "b"; Str "c"] m)).
Proof.
  apply (categorical_imputation_takes_last_mode
           [Str "b"; Str "a"; Null; Str "a"; Str "b"; Str "c"]).
  vm_compute. discriminate.
Defined.

(** ** The correlation matrix *)

Lemma float_mul_comm (x y : float) : PrimFloat.mul x y = PrimFloat.mul y x.
Proof.
  apply Prim2SF_inj. rewrite !mul_spec.
  destruct (Prim2SF x) as [sx|sx| |sx mx ex], (Prim2SF y) as [sy|sy| |sy my ey];
    simpl; try reflexivity; try (by rewrite xorb_comm).
  unfold SF64mul, SFmul. by rewrite xorb_comm, Pos.mul_comm, Z.add_comm.
Qed.

Lemma no_usable_pair (x : list any) (f : nat -> any -> float * float) :
  (forall i v, snd (f i v) = PrimFloat.nan) ->
  List.filter (fun '(a, b) => negb (isNaN a) && negb (isNaN b)) (imap f x) = [].
Proof.
  revert f. induction x as [|v x IH]; intros f Hf; [done|].
  simpl. destruct (f 0 v) as [a b] eqn:E.
  pose proof (Hf 0 v) as Hb. rewrite E in Hb. simpl in Hb. subst b.
  rewrite andb_false_r. apply IH. intros i w. apply Hf.
Qed.

Lemma usablePairs_nil_r (x : list any) : usablePairs x [] = [].
Proof. unfold usablePairs. by apply no_usable_pair. Qed.

Lemma usablePairs_swap (x y : list any) :
  usablePairs y x = map (fun '(a, b) => (b, a)) (usablePairs x y).
Proof.
  revert y. induction x as [|a x IH]; intros y.
  { by rewrite usablePairs_nil_r. }
  destruct y as [|b y]; [by rewrite usablePairs_nil_r|].
  unfold usablePairs in *. simpl.
  rewrite (andb_comm (negb (isNaN (Number b)))).
  specialize (IH y). unfold compose. simpl.
  destruct (negb (isNaN (Number a)) && negb (isNaN (Number b))); simpl; by rewrite IH.
Qed.

Lemma fold_swap (g : float -> float -> float -> float) (ps : list (float * float)) (init : float) :
  fold_left (fun sum '(a, b) => g sum a b) (map (fun '(a, b) => (b, a)) ps) init
  = fold_left (fun sum '(a, b) => g sum b a) ps init.
Proof.
  revert init. induction ps as [|[a b] ps IH]; intros init; [done|]. simpl. apply IH.
Qed.

Lemma pearsonNumerator_swap (ps : list (float * float)) :
  pearsonNumerator (map (fun '(a, b) => (b, a)) ps) = pearsonNumerator ps.
Proof.
  unfold pearsonNumerator. rewrite length_map.
  rewrite (fold_swap (fun sum a _ => PrimFloat.add sum a)).
  rewrite (fold_swap (fun sum _ b => PrimFloat.add sum b)).
  rewrite (fold_swap (fun sum a b => PrimFloat.add sum (PrimFloat.mul a b))).
  rewrite (float_mul_comm (fold_left (fun sum '(_, b) => PrimFloat.add sum b) ps _)).
  do 2 f_equal.
  generalize PrimFloat.zero. induction ps as [|[a b] ps IH]; intros init; [done|].
  simpl. rewrite (float_mul_comm b a). apply IH.
Qed.

Lemma pearsonDenominator_swap (ps : list (float * float)) :
  pearsonDenominator (map (fun '(a, b) => (b, a)) ps) = pearsonDenominator ps.
Proof.
  unfold pearsonDenominator. rewrite length_map.
  rewrite (fold_swap (fun sum a _ => PrimFloat.add sum a)).
  rewrite (fold_swap (fun sum _ b => PrimFloat.add sum b)).
  rewrite (fold_swap (fun sum a _ => PrimFloat.add sum (PrimFloat.mul a a))).
  rewrite (fold_swap (fun sum _ b => PrimFloat.add sum (PrimFloat.mul b b))).
  f_equal. apply float_mul_comm.
Qed.

Lemma calculatePearsonCorrelation_sym (x y : list any) :
  calculatePearsonCorrelation x y = calculatePearsonCorrelation y x.
Proof.
  unfold calculatePearsonCorrelation. rewrite (usablePairs_swap x y).
  by rewrite length_map, pearsonNumerator_swap, pearsonDenominator_swap.
Qed.

(** After the assignments [m[c.name] = f(c)] for the columns of [l] in
    turn, the entry of a name is the one of the last column with it. *)
Lemma fold_insert_last (l : list DataColumn) (k : string) :
  (exists c, c ∈ l /\ name c = k) ->
  exists c, c ∈ l /\ name c = k /\
    forall (V : Type) (f : DataColumn -> V) (m0 : gmap string V),
      fold_left (fun m c => <[name c := f c]> m) l m0 !! k = Some (f c).
Proof.
  induction l as [|x l IH] using rev_ind; intros (c & Hc & Hk).
  { by apply elem_of_nil in Hc. }
  destruct (decide (name x = k)) as [Hx|Hx].
  - exists x. split; [apply elem_of_app; right; by left|]. split; [done|].
    intros V f m0. rewrite fold_left_app. simpl. rewrite <- Hx. apply lookup_insert_eq.
  - destruct IH as (c' & Hc' & Hk' & Hfold).
    { exists c. split; [|done]. apply elem_of_app in Hc as [Hc|Hc]; [done|].
      apply list_elem_of_singleton in Hc. congruence. }
    exists c'. split; [apply elem_of_app; by left|]. split; [done|].
    intros V f m0. rewrite fold_left_app. simpl. rewrite lookup_insert_ne by done. apply Hfold.
Qed.

Lemma fold_left_ext_in {A B : Type} (f g : A -> B -> A) (l : list B) (a : A) :
  (forall x y, f x y = g x y) -> fold_left f l a = fold_left g l a.
Proof. intros Hfg. revert a. induction l as [|y l IH]; intros a; simpl; [done|]. by rewrite Hfg, IH. Qed.

(** C5. The correlation matrix holds exactly 1 at (c, c) for every
    numerical column c, and it is symmetric: for numerical columns a and
    b the entries at (a, b) and at (b, a) are one and the same number,
    so they agree within the 3-decimal rounding. *)
Theorem correlation_matrix_diagonal_and_symmetry (t : DataSummary) :
  let m := calculateCorrelations t in
  (forall c, c ∈ columns t -> type c = numerical ->
     exists row, m !! name c = Some row /\ row !! name c = Some PrimFloat.one) /\
  (forall a b, a ∈ columns t -> b ∈ columns t -> type a = numerical -> type b = numerical ->
     exists rowA rowB r,
       m !! name a = Some rowA /\ m !! name b = Some rowB /\
       rowA !! name b = Some r /\ rowB !! name a = Some r).
Proof.
  unfold calculateCorrelations.
  set (cols := filter (fun col => colType_eqb (type col) numerical) (columns t)).
  set (g := fun c1 c2 : DataColumn =>
              if String.eqb (name c1) (name c2) then PrimFloat.one
              else calculatePearsonCorrelation (values c1) (values c2)).
  set (inner := fun c1 : DataColumn =>
                  fold_left (fun row c2 => <[name c2 := g c1 c2]> row) cols (∅ : gmap string float)).
  simpl.
  rewrite (fold_left_ext_in _ (fun (m : gmap string (gmap string float)) c => <[name c := inner c]> m)).
  2: { intros m c. f_equal. unfold inner.
       apply fold_left_ext_in. intros row c2. unfold g.
       by destruct (String.eqb (name c) (name c2)). }
  assert (Hin : forall c, c ∈ columns t -> type c = numerical -> exists c', c' ∈ cols /\ name c' = name c).
  { intros c Hc Hty. exists c. split; [|done]. apply list_elem_of_filter. by rewrite Hty. }
  assert (Hsym : forall c1 c2, g c1 c2 = g c2 c1).
  { intros c1 c2. unfold g. rewrite (String.eqb_sym (name c2)).
    by rewrite calculatePearsonCorrelation_sym. }
  split.
  - intros c Hc Hty.
    destruct (fold_insert_last cols (name c) (Hin c Hc Hty)) as (C & _ & HC & Hfold).
    exists (inner C). split; [apply Hfold|].
    unfold inner. rewrite Hfold. f_equal. unfold g. by rewrite String.eqb_refl.
  - intros a b Ha Hb Hta Htb.
    destruct (fold_insert_last cols (name a) (Hin a Ha Hta)) as (A & _ & HA & HfoldA).
    destruct (fold_insert_last cols (name b) (Hin b Hb Htb)) as (B & _ & HB & HfoldB).
    exists (inner A), (inner B), (g A B).
    split; [apply HfoldA|]. split; [apply HfoldB|].
    unfold inner. rewrite HfoldA, HfoldB. by rewrite (Hsym B A).
Qed.

(** C5 (witness): a table of two numerical columns. *)
Lemma correlation_matrix_diagonal_and_symmetry_witness :
  let height := {| name := "height"; type := numerical;
                   values := [Num PrimFloat.one; Num PrimFloat.two; Str "4"];
                   missingCount := 0; missingRate := PrimFloat.zero |} in
  let weight := {| name := "weight"; type := numerical;
                   values := [Str "3"; Num PrimFloat.one; Num PrimFloat.two];
                   missingCount := 0; missingRate := PrimFloat.zero |} in
  let m := calculateCorrelations {| totalRows := 3; totalColumns := 2;
                                    columns := [height; weight]; fileName := "people.csv" |} in
  (exists row, m !! "height" = Some row /\ row !! "height" = Some PrimFloat.one) /\
  (exists rowA rowB r,
      m !! "height" = Some rowA /\ m !! "weight" = Some rowB /\
      rowA !! "weight" = Some r /\ rowB !! "height" = Some r).
Proof.
  intros height weight m.
  destruct (correlation_matrix_diagonal_and_symmetry
              {| totalRows := 3; totalColumns := 2;
                 columns := [height; weight]; fileName := "people.csv" |}) as [Hdiag Hsym].
  split.
  - apply (Hdiag height); [by left|reflexivity].
  - apply (Hsym height weight); [by left|right; by left|reflexivity|reflexivity].
Defined.

(** ** Sorting *)

Lemma insertSorted_length {A : Type} (after : A -> A -> bool) (x : A) (l : list A) :
  length (insertSorted after x l) = S (length l).
Proof. induction l as [|y l IH]; simpl; [done|]. destruct (after x y); simpl; by rewrite ?IH. Qed.

Lemma sort_length {num : Type} `{Arith num} {A : Type} (compareFn : A -> A -> num) (l : list A) :
  length (sort compareFn l) = length l.
Proof.
  unfold sort. induction l as [|x l IH]; [done|].
  cbn [fold_right]. by rewrite insertSorted_length, IH.
Qed.


(** ** The five-number summary *)

(** C6 (the code at the failing input). For the two values 0.045 and
    0.045000000000000005 the first quartile is interpolated to
    0.045000000000000005 and rounded to 0.05, while the median, their
    mean 0.045, is rounded to 0.04, as is the third quartile: q1 is
    above the median and above q3. For the single value 0.001 the
    minimum is returned as it is and the first quartile rounded to two
    decimals: min = 0.001 is above q1 = 0. *)
Lemma quartiles_out_of_order :
  let s := calculateNumericalStats [Str "0.045"; Str "0.045000000000000005"] in
  let sorted := [stringToNumber "0.045"; stringToNumber "0.045000000000000005"] in
  let t := calculateNumericalStats [Str "0.001"] in
  calculatePercentile sorted (natToFloat 25) = stringToNumber "0.045000000000000005" /\
  calculateMedian sorted = stringToNumber "0.045" /\
  min s = stringToNumber "0.045" /\
  q1 s = stringToNumber "0.05" /\
  median s = stringToNumber "0.04" /\
  q3 s = stringToNumber "0.04" /\
  max s = stringToNumber "0.045000000000000005" /\
  PrimFloat.leb (q1 s) (median s) = false /\
  PrimFloat.leb (q1 s) (q3 s) = false /\
  PrimFloat.leb (min s) (median s) = false /\
  min t = stringToNumber "0.001" /\
  q1 t = PrimFloat.zero /\
  PrimFloat.leb (min t) (q1 t) = false.
Proof. repeat split; vm_compute; reflexivity. Qed.

(** * Further properties of the code *)

Import FileProcessor ExportService.

(** ** Numbers *)

Lemma ltb_zero_cases (x : float) :
  PrimFloat.ltb x PrimFloat.zero = true ->
  exists s, (Prim2SF x = S754_infinity s \/ exists m e, Prim2SF x = S754_finite s m e) /\ s = true.
Proof.
  rewrite ltb_spec. change (Prim2SF PrimFloat.zero) with (S754_zero false).
  destruct (Prim2SF x) as [s| s | |s m e] eqn:E; simpl; try done.
  - destruct s; [|done]. intros _. exists true. eauto.
  - destruct s; [|done]. intros _. exists true. split; [right; eauto|done].
Qed.

Lemma SFeqb_refl_neg (s : bool) (m : positive) (e : Z) :
  SFeqb (S754_finite s m e) (S754_finite s m e) = true.
Proof.
  unfold SFeqb, SFcompare. rewrite Z.compare_refl.
  destruct s; by rewrite ?Pos.compare_cont_refl.
Qed.

Lemma ltb_zero_not_nan (x : float) :
  PrimFloat.ltb x PrimFloat.zero = true -> isNaN x = false.
Proof.
  intros H. apply ltb_zero_cases in H as (s & [H|(m & e & H)] & ->);
    unfold isNaN, PrimFloat.is_nan; rewrite FloatAxioms.eqb_spec, H; [done|].
  by rewrite SFeqb_refl_neg.
Qed.

Lemma abs_not_negative (x : float) :
  PrimFloat.ltb (PrimFloat.abs x) PrimFloat.zero = false.
Proof.
  rewrite ltb_spec, abs_spec. change (Prim2SF PrimFloat.zero) with (S754_zero false).
  by destruct (Prim2SF x) as [s|s| |s m e].
Qed.

Lemma negative_not_abs (x : float) :
  PrimFloat.ltb x PrimFloat.zero = true ->
  sameValueZero (Num x) (Num (PrimFloat.abs x)) = false.
Proof.
  intros H. apply ltb_zero_cases in H as (s & H & ->).
  assert (Hx : PrimFloat.eqb x PrimFloat.zero = false).
  { rewrite FloatAxioms.eqb_spec. change (Prim2SF PrimFloat.zero) with (S754_zero false).
    by destruct H as [->|(m & e & ->)]. }
  assert (Ha : PrimFloat.eqb (PrimFloat.abs x) PrimFloat.zero = false).
  { rewrite FloatAxioms.eqb_spec, abs_spec. change (Prim2SF PrimFloat.zero) with (S754_zero false).
    by destruct H as [->|(m & e & ->)]. }
  unfold sameValueZero, canonKey. rewrite Hx, Ha.
  destruct (PrimFloat.Leibniz.eqb x (PrimFloat.abs x)) eqn:E; [|done].
  apply FloatAxioms.Leibniz.eqb_spec in E.
  apply (f_equal Prim2SF) in E. rewrite abs_spec in E.
  by destruct H as [H|(m & e & H)]; rewrite H in E.
Qed.

(** ** Fixing erroneous values *)

(** What the callback of [fixErroneousValues] does to one cell. *)
Lemma fixValue_cases (values : list any) (columnType : colType) (v : any) :
  fixValue values columnType v = (v, false) \/
  (isMissing v = false /\ fixValue values columnType v = (Null, true)) \/
  (isMissing v = false /\ columnType = numerical /\ isPriceOrQuantityColumn values = true /\
   PrimFloat.ltb (Number v) PrimFloat.zero = true /\
   fixValue values columnType v = (Num (PrimFloat.abs (Number v)), true)).
Proof.
  unfold fixValue.
  destruct (isMissing v) eqn:Hm; [by left|].
  destruct (existsb _ sentinels); [by right; left|].
  destruct columnType; simpl; try by left.
  destruct (isPriceOrQuantityColumn values); simpl; [|by left].
  destruct (isNaN (Number v)); simpl; [by left|].
  destruct (PrimFloat.ltb (Number v) PrimFloat.zero) eqn:Hlt; [|by left].
  right; right. done.
Qed.

Lemma fixValue_counted (values : list any) (columnType : colType) (v : any) :
  snd (fixValue values columnType v) = negb (sameValueZero v (fst (fixValue values columnType v))).
Proof.
  destruct (fixValue_cases values columnType v) as [H|[[Hm H]|(Hm & _ & _ & Hlt & H)]];
    rewrite H; simpl.
  - by rewrite sameValueZero_refl.
  - destruct v as [| |x|s|b]; try done.
    unfold sameValueZero, canonKey. by destruct (PrimFloat.eqb x PrimFloat.zero).
  - destruct v as [| |x|s|b]; try done.
    + simpl in Hlt. by rewrite negative_not_abs.
    + unfold sameValueZero, canonKey. by destruct (PrimFloat.eqb _ PrimFloat.zero).
    + by destruct b.
Qed.

(** X1. The number of erroneous values that [fixErroneousValues]
    reports is the number of cells it changed: a cell is counted exactly
    when the fixed cell is not the same value as the raw one. *)
Theorem erroneous_count_is_number_of_changed_cells (values : list any) (columnType : colType) :
  let '(fixedValues, erroneousCount) := fixErroneousValues values columnType in
  erroneousCount
  = length (List.filter (fun '(raw, fixed) => negb (sameValueZero raw fixed))
                        (zip values fixedValues)).
Proof.
  unfold fixErroneousValues, mapCounting.
  generalize (fixValue values columnType) (fixValue_counted values columnType).
  intros f Hf. induction values as [|v l IH]; [done|].
  rewrite filter_cons. simpl. rewrite <- Hf.
  destruct (f v) as [w []]; simpl in *.
  - destruct (decide (Is_true true)) as [_|[]]; [|done]. simpl. by rewrite IH.
  - destruct (decide (Is_true false)) as [[]|_]. by rewrite IH.
Qed.

Lemma missing_reads_not_negative (v : any) :
  isMissing v = true -> PrimFloat.ltb (Number v) PrimFloat.zero = false.
Proof.
  intros H. apply isMissing_spec in H as [->|[->|(s & -> & Hs)]]; [done|done|].
  simpl. unfold stringToNumber. by rewrite Hs.
Qed.

(** X2. In a numerical column that passes the test
    [isPriceOrQuantityColumn], no cell reads as a negative number once
    [fixErroneousValues] has run. *)
Theorem fixed_price_column_has_no_negative_number (values : list any) :
  isPriceOrQuantityColumn values = true ->
  Forall (fun fixed => PrimFloat.ltb (Number fixed) PrimFloat.zero = false)
         (fst (fixErroneousValues values numerical)).
Proof.
  intros Hp. unfold fixErroneousValues, mapCounting. simpl.
  apply Forall_map, Forall_forall. intros v _. simpl.
  destruct (fixValue_cases values numerical v) as [H|[[Hm H]|(Hm & _ & _ & Hlt & H)]];
    rewrite H; simpl; [|done|apply abs_not_negative].
  destruct (isMissing v) eqn:Hm; [by apply missing_reads_not_negative|].
  revert H. unfold fixValue. rewrite Hm, Hp.
  destruct (existsb _ sentinels); [done|]. simpl.
  destruct (PrimFloat.ltb (Number v) PrimFloat.zero) eqn:Hlt; [|done].
  by rewrite (ltb_zero_not_nan _ Hlt).
Qed.

(** X2 (witness): five of six numeric cells are not negative. *)
Lemma fixed_price_column_has_no_negative_number_witness :
  Forall (fun fixed => PrimFloat.ltb (Number fixed) PrimFloat.zero = false)
         (fst (fixErroneousValues
                 [Str "10"; Str "-5"; Str "20"; Str "30"; Str "40"; Num 50] numerical)).
Proof.
  apply (fixed_price_column_has_no_negative_number
           [Str "10"; Str "-5"; Str "20"; Str "30"; Str "40"; Num 50]).
  vm_compute. reflexivity.
Defined.

Lemma length_filter_isMissing_cons (v : any) (l : list any) :
  length (filter (fun v => isMissing v) (v :: l))
  = (if isMissing v then 1 else 0) + length (filter (fun v => isMissing v) l).
Proof. rewrite filter_cons. by destruct (isMissing v). Qed.

(** X3. Outside the numerical columns that pass the test
    [isPriceOrQuantityColumn], [fixErroneousValues] only replaces cells
    by null: every cell is left as it is or becomes null, and the number
    of missing cells grows by exactly the count it reports. *)
Theorem fix_without_sign_flip_only_nulls (values : list any) (columnType : colType) :
  columnType <> numerical \/ isPriceOrQuantityColumn values = false ->
  let '(fixedValues, erroneousCount) := fixErroneousValues values columnType in
  Forall2 (fun raw fixed => fixed = raw \/ (fixed = Null /\ isMissing raw = false))
          values fixedValues /\
  length (filter (fun v => isMissing v) fixedValues)
  = length (filter (fun v => isMissing v) values) + erroneousCount.
Proof.
  intros Hno. unfold fixErroneousValues, mapCounting.
  assert (Hf : forall v, fixValue values columnType v = (v, false) \/
                         (isMissing v = false /\ fixValue values columnType v = (Null, true))).
  { intros v.
    destruct (fixValue_cases values columnType v) as [H|[H|(_ & Ht & Hp & _)]]; [by left|by right|].
    destruct Hno; congruence. }
  revert Hf. generalize (fixValue values columnType). clear Hno. intros f Hf.
  induction values as [|v l [IH1 IH2]]; [by split; [apply Forall2_nil|]|].
  simpl. rewrite !length_filter_isMissing_cons, IH2, (filter_cons _ v).
  destruct (Hf v) as [H|[Hm H]]; rewrite H; simpl.
  - split; [constructor; [by left|done]|].
    destruct (decide (Is_true false)) as [[]|_]. lia.
  - split; [constructor; [by right|done]|].
    destruct (decide (Is_true true)) as [_|[]]; [|done]. rewrite Hm. simpl. lia.
Qed.

(** X3 (witness): a text column with two sentinel cells. *)
Lemma fix_without_sign_flip_only_nulls_witness :
  let '(fixedValues, erroneousCount) :=
    fixErroneousValues [Str "Paris"; Str "N/A"; Str ""; Str " unknown "] text in
  Forall2 (fun raw fixed => fixed = raw \/ (fixed = Null /\ isMissing raw = false))
          [Str "Paris"; Str "N/A"; Str ""; Str " unknown "] fixedValues /\
  length (filter (fun v => isMissing v) fixedValues)
  = length (filter (fun v => isMissing v) [Str "Paris"; Str "N/A"; Str ""; Str " unknown "])
    + erroneousCount.
Proof.
  apply (fix_without_sign_flip_only_nulls [Str "Paris"; Str "N/A"; Str ""; Str " unknown "] text).
  left. discriminate.
Defined.

(** X4. A column without any numeric cell never passes the test
    [isPriceOrQuantityColumn]: the ratio is 0/0. *)
Theorem no_numeric_cell_is_no_price_column (values : list any) :
  Forall (fun v => isNumeric v = false) values ->
  isPriceOrQuantityColumn values = false.
Proof.
  intros Hnone. unfold isPriceOrQuantityColumn.
  assert (filter (fun v => isNumeric v) values = []) as ->; [|done].
  induction Hnone as [|v l Hv _ IH]; [done|].
  rewrite filter_cons, IH. rewrite Hv. by destruct (decide (Is_true false)) as [[]|_].
Qed.

(** X4 (witness): a column of a word and of empty cells. *)
Lemma no_numeric_cell_is_no_price_column_witness :
  isPriceOrQuantityColumn [Str "abc"; Null; Str ""; Undefined] = false.
Proof.
  apply no_numeric_cell_is_no_price_column.
  repeat constructor.
Defined.

(** ** Type conversion *)

(** X5. [convertToFloat] and [convertToInteger] leave a missing cell as
    it is and turn any other cell into null or into a number that is
    not NaN. *)
Theorem numeric_conversion_yields_numbers_or_null (values : list any) :
  let converted raw cell :=
    (isMissing raw = true /\ cell = raw) \/
    (isMissing raw = false /\ (cell = Null \/ exists x, cell = Num x /\ isNaN x = false)) in
  Forall2 converted values (fst (fst (convertToFloat values))) /\
  Forall2 converted values (fst (fst (convertToInteger values))).
Proof.
  simpl. split; apply Forall2_fmap_r, Forall_Forall2_diag, Forall_forall; intros v _;
    unfold compose; simpl;
    (destruct (isMissing v); [left; by split|right; split; [done|]]).
  - destruct (isNaN (parseFloat _)) eqn:E; eauto.
  - destruct (isNaN (parseInt _)) eqn:E; eauto.
Qed.

(** X6. The keyword amount is in the list of [isPriceColumn] and in
    the list of [isQuantityColumn]; since the price test comes first, a
    column whose name contains it is always converted by
    [convertToFloat], never by [convertToInteger]. *)
Theorem amount_column_is_converted_to_float (isoDate : any -> option string)
    (values : list any) (column : DataColumn) :
  includes (toLowerCase (name column)) "amount" = true ->
  isQuantityColumn (toLowerCase (name column)) = true /\
  convertTypes isoDate values column = convertToFloat values.
Proof.
  intros H. unfold convertTypes, isPriceColumn, isQuantityColumn.
  cbn [existsb]. rewrite H. rewrite !orb_true_r. done.
Qed.

(** X6 (witness): a column named Total Amount. *)
Lemma amount_column_is_converted_to_float_witness :
  let column := {| name := "Total Amount"; type := text; values := [Str "12.5"];
                   missingCount := 0; missingRate := PrimFloat.zero |} in
  isQuantityColumn (toLowerCase (name column)) = true /\
  convertTypes (fun _ => None) [Str "12.5"] column = convertToFloat [Str "12.5"].
Proof.
  apply (amount_column_is_converted_to_float (fun _ => None) [Str "12.5"]
           {| name := "Total Amount"; type := text; values := [Str "12.5"];
              missingCount := 0; missingRate := PrimFloat.zero |}).
  vm_compute. reflexivity.
Defined.

(** ** White space *)

Lemma trimStart_head (s : string) :
  trimStart s = "" \/ exists c r, trimStart s = String c r /\ isWhiteSpace c = false.
Proof.
  induction s as [|c s IH]; [by left|]. simpl.
  destruct (isWhiteSpace c) eqn:E; [done|]. right. eauto.
Qed.

Lemma trimStart_blank (s : string) :
  trimStart s = "" -> Forall (fun c => isWhiteSpace c = true) (list_ascii_of_string s).
Proof.
  induction s as [|c s IH]; simpl; [constructor|].
  destruct (isWhiteSpace c) eqn:E; [|done]. intros H. constructor; auto.
Qed.

Lemma trimEnd_blank (s : string) :
  trimEnd s = "" <-> Forall (fun c => isWhiteSpace c = true) (list_ascii_of_string s).
Proof.
  induction s as [|c s IH]; simpl; [split; [constructor|done]|].
  split.
  - destruct (trimEnd s) eqn:Es; [|done].
    destruct (isWhiteSpace c) eqn:E; [|done]. intros _. constructor; [done|]. by apply IH.
  - intros H. apply Forall_cons in H as [Hc Hs]. apply IH in Hs. by rewrite Hs, Hc.
Qed.

(** A string is blank, that is, its trimmed form is empty, exactly when
    all its characters are white space. *)
Lemma trim_blank (s : string) :
  trim s = "" <-> Forall (fun c => isWhiteSpace c = true) (list_ascii_of_string s).
Proof.
  unfold trim. split.
  - intros H. apply trimStart_blank.
    destruct (trimStart_head s) as [Hs|(c & r & Hs & Hc)]; [done|].
    rewrite Hs in H. apply trimEnd_blank in H. simpl in H.
    apply Forall_cons in H as [H _]. congruence.
  - intros H. apply trimEnd_blank.
    induction s as [|c s IH]; simpl; [constructor|].
    apply Forall_cons in H as [Hc Hs]. rewrite Hc. by apply IH.
Qed.

Lemma list_ascii_of_string_app (a b : string) :
  list_ascii_of_string (a ++ b) = (list_ascii_of_string a ++ list_ascii_of_string b)%list.
Proof. induction a as [|c a IH]; simpl; [done|]. by rewrite IH. Qed.

Lemma not_blank (a : string) (c : ascii) (b : string) :
  isWhiteSpace c = false -> trim (a ++ String c b) <> "".
Proof.
  intros Hc H. apply trim_blank in H. rewrite list_ascii_of_string_app in H.
  apply Forall_app in H as [_ H]. simpl in H. apply Forall_cons in H as [H _]. congruence.
Qed.

Lemma decString_head (z : Z) :
  exists c r, decString z = String c r /\ isWhiteSpace c = false.
Proof.
  unfold decString. destruct (N.to_uint (Z.to_N z)); simpl; eauto.
Qed.

Lemma formatDigits_not_blank (s k n : Z) : trim (formatDigits s k n) <> "".
Proof.
  unfold formatDigits. destruct (decString_head s) as (c & r & -> & Hc).
  repeat case_match;
    first [ by apply (not_blank "")
          | by apply (not_blank (String c r) "e")
          | by apply (not_blank (substring 0 1 (String c r)) ".")
          | by apply not_blank ].
Qed.

Lemma numberToString_not_blank (x : float) : trim (numberToString x) <> "".
Proof.
  unfold numberToString. destruct (Prim2SF x) as [s|s| |s m e]; try done.
  - by destruct s.
  - destruct (shortestDigits _ _ _ _ _ _) as [[d k] n].
    destruct s; [by apply (not_blank "" "-")|]. apply formatDigits_not_blank.
Qed.

(** The text of a cell that is not missing is not blank. *)
Lemma ToString_not_missing (v : any) :
  isMissing v = false -> isMissing (Str (ToString v)) = false.
Proof.
  intros H. destruct (isMissing (Str (ToString v))) eqn:E; [|done].
  apply isMissing_spec in E as [E|[E|(s & [= <-] & E)]]; try done.
  destruct v as [| |x|s|b]; try done.
  - by apply numberToString_not_blank in E.
  - assert (isMissing (Str s) = true); [|congruence].
    apply isMissing_spec. eauto.
  - by destruct b.
Qed.

Lemma canonKey_not_missing (v : any) : isMissing (canonKey v) = isMissing v.
Proof.
  destruct v as [| |x|s|b]; simpl; try done. by destruct (PrimFloat.eqb x PrimFloat.zero).
Qed.

(** ** Imputation *)

Lemma mostFrequent_key (l : list any) :
  l <> [] -> exists v, v ∈ l /\ mostFrequent (countValues l) = canonKey v.
Proof.
  intros Hl. destruct (countValues_spec l) as (Hentries & Hall & _).
  destruct l as [|w l]; [done|].
  destruct (Hall w) as (i & k & n & Hi & _).
  { apply occurrences_pos_elem. exists w. split; [by left|apply sameValueZero_refl]. }
  destruct (countValues (w :: l)) as [|first rest] eqn:E; [done|].
  unfold mostFrequent.
  destruct (mostFrequent_spec first rest) as (j & Hj & _).
  destruct (fold_left _ rest first) as [k' n'].
  destruct (Hentries j k' n' Hj) as (_ & _ & v & Hv & ->). eauto.
Qed.

Lemma filter_not_missing_elem (values : list any) (v : any) :
  v ∈ filter (fun v => negb (isMissing v)) values <-> v ∈ values /\ isMissing v = false.
Proof.
  rewrite list_elem_of_filter. destruct (isMissing v); simpl; split; intros []; done.
Qed.

(** The value that replaces the missing cells is not missing itself. *)
Lemma imputation_value_not_missing (values : list any) (columnType : colType) :
  filter (fun v => negb (isMissing v)) values <> [] ->
  exists m method,
    method <> "no_imputation_possible" /\
    isMissing m = false /\
    imputeMissingValues values columnType
    = (map (fun v => if isMissing v then m else v) values,
       length (filter (fun v => isMissing v) values), method).
Proof.
  intros Hne. unfold imputeMissingValues.
  set (present := filter (fun v => negb (isMissing v)) values) in *.
  destruct (Nat.eqb_spec (length present) 0) as [H0|_].
  { by apply length_zero_iff_nil in H0. }
  assert (Htext : isMissing (mostFrequent (countValues (map (fun v => Str (ToString v)) present)))
                  = false).
  { destruct (mostFrequent_key (map (fun v => Str (ToString v)) present)) as (k & Hk & ->).
    { by destruct present. }
    apply list_elem_of_fmap in Hk as (v & -> & Hv).
    apply filter_not_missing_elem in Hv as [_ Hv].
    rewrite canonKey_not_missing. by apply ToString_not_missing. }
  destruct columnType; rewrite imputed_values; eexists _, _; (split; [|split; [|reflexivity]]);
    try done.
  destruct (mostFrequent_key present Hne) as (k & Hk & ->).
  apply filter_not_missing_elem in Hk as [_ Hk]. by rewrite canonKey_not_missing.
Qed.

(** X7. When a column has a cell that is not missing, whatever its
    type, [imputeMissingValues] leaves no missing cell, keeps the cells
    that were not missing, and the count it reports is the number of
    cells that were missing. *)
Theorem imputation_leaves_no_missing_cell (values : list any) (columnType : colType) :
  Exists (fun v => isMissing v = false) values ->
  let '(imputedValues, imputedCount, method) := imputeMissingValues values columnType in
  Forall (fun v => isMissing v = false) imputedValues /\
  Forall2 (fun raw imputed => isMissing raw = false -> imputed = raw) values imputedValues /\
  imputedCount = length (filter (fun v => isMissing v) values) /\
  method <> "no_imputation_possible".
Proof.
  intros Hex.
  destruct (imputation_value_not_missing values columnType) as (m & method & Hmethod & Hm & ->).
  { apply Exists_exists in Hex as (v & Hv & Hmiss). intros Hnil.
    assert (v ∈ filter (fun v => negb (isMissing v)) values) as Hin
      by (by apply filter_not_missing_elem).
    rewrite Hnil in Hin. by apply elem_of_nil in Hin. }
  repeat split; [| |done].
  - apply Forall_map, Forall_forall. intros v _. simpl. by destruct (isMissing v) eqn:E.
  - apply Forall2_fmap_r, Forall_Forall2_diag, Forall_forall. intros v _. simpl.
    by destruct (isMissing v).
Qed.

(** X7 (witness): a date column with two missing cells. *)
Lemma imputation_leaves_no_missing_cell_witness :
  let '(imputedValues, imputedCount, method) :=
    imputeMissingValues [Str "2024-01-05"; Null; Str "  "; Num 7] date in
  Forall (fun v => isMissing v = false) imputedValues /\
  Forall2 (fun raw imputed => isMissing raw = false -> imputed = raw)
          [Str "2024-01-05"; Null; Str "  "; Num 7] imputedValues /\
  imputedCount = length (filter (fun v => isMissing v) [Str "2024-01-05"; Null; Str "  "; Num 7]) /\
  method <> "no_imputation_possible".
Proof.
  apply (imputation_leaves_no_missing_cell [Str "2024-01-05"; Null; Str "  "; Num 7] date).
  apply Exists_cons_hd. reflexivity.
Defined.

Lemma filter_missing_all (values : list any) :
  Forall (fun v => isMissing v = true) values ->
  filter (fun v => negb (isMissing v)) values = [] /\
  filter (fun v => isMissing v) values = values.
Proof.
  induction 1 as [|v l Hv _ [IH1 IH2]]; [done|].
  rewrite !filter_cons, IH1, IH2, Hv. simpl.
  destruct (decide (Is_true false)) as [[]|_]. by destruct (decide (Is_true true)) as [_|[]].
Qed.

Lemma filter_missing_none (values : list any) :
  Forall (fun v => isMissing v = false) values ->
  filter (fun v => isMissing v) values = [].
Proof.
  induction 1 as [|v l Hv _ IH]; [done|].
  rewrite filter_cons, IH, Hv. by destruct (decide (Is_true false)) as [[]|_].
Qed.

(** ** Cleaning a column *)

(** X8. A cleaned column is complete or empty: either none of its
    cells is missing, or the column had no usable cell, all its cells
    are still missing and the report says that nothing was imputed. The
    missing count of the cleaned column is the number of its missing
    cells. *)
Theorem cleaned_column_is_complete_or_empty (isoDate : any -> option string)
    (column : DataColumn) (totalRows : nat) :
  let '(cleaned, report) := cleanColumn isoDate column totalRows in
  missingCount cleaned = length (filter (fun v => isMissing v) (values cleaned)) /\
  ((missingCount cleaned = 0 /\
    imputationMethod report <> Some "no_imputation_possible") \/
   (missingCount cleaned = length (values column) /\
    missingValuesImputed report = 0 /\
    imputationMethod report = Some "no_imputation_possible")).
Proof.
  unfold cleanColumn.
  pose proof (length_fixErroneousValues (values column) (type column)) as Hlen1.
  destruct (fixErroneousValues (values column) (type column)) as [fixedValues n1].
  pose proof (length_convertTypes isoDate fixedValues column) as Hlen2.
  destruct (convertTypes isoDate fixedValues column) as [[convertedValues newType] converted].
  simpl in Hlen1, Hlen2.
  set (finalType := if converted then newType else type column).
  destruct (decide (filter (fun v => negb (isMissing v)) convertedValues = [])) as [Hnone|Hsome].
  - assert (Hall : Forall (fun v => isMissing v = true) convertedValues).
    { apply Forall_forall. intros v Hv. destruct (isMissing v) eqn:E; [done|].
      assert (v ∈ filter (fun v => negb (isMissing v)) convertedValues) as Hin
        by (by apply filter_not_missing_elem).
      rewrite Hnone in Hin. by apply elem_of_nil in Hin. }
    unfold imputeMissingValues. rewrite Hnone. simpl.
    destruct (filter_missing_all _ Hall) as [_ ->].
    split; [done|]. right. split; [lia|done].
  - destruct (imputation_value_not_missing convertedValues finalType Hsome)
      as (m & method & Hmethod & Hm & ->).
    simpl. split; [done|]. left. split; [|congruence].
    rewrite filter_missing_none; [done|].
    apply Forall_map, Forall_forall. intros v _. simpl. by destruct (isMissing v) eqn:E.
Qed.

(** ** Cleaning a table *)

Lemma cleanColumn_fields (isoDate : any -> option string) (c : DataColumn) (n : nat) :
  let '(cleaned, report) := cleanColumn isoDate c n in
  name cleaned = name c /\ columnName report = name c /\
  originalType report = type c /\ type cleaned = finalType report /\
  missingValuesImputed report <= length (values c) /\
  erroneousValuesFixed report <= length (values c).
Proof.
  unfold cleanColumn.
  pose proof (length_fixErroneousValues (values c) (type c)) as Hlen1.
  assert (Hn1 : snd (fixErroneousValues (values c) (type c)) <= length (values c))
    by apply length_filter.
  destruct (fixErroneousValues (values c) (type c)) as [fixedValues n1].
  pose proof (length_convertTypes isoDate fixedValues c) as Hlen2.
  destruct (convertTypes isoDate fixedValues c) as [[convertedValues newType] converted].
  simpl in *.
  set (finalType := if converted then newType else type c).
  assert (Hn2 : snd (fst (imputeMissingValues convertedValues finalType))
                <= length convertedValues).
  { unfold imputeMissingValues. case_match; [simpl; lia|].
    destruct finalType; simpl; apply length_filter. }
  destruct (imputeMissingValues convertedValues finalType) as [[imputedValues n2] method].
  simpl in *. repeat split; lia.
Qed.

Lemma cleanData_unfold (isoDate : any -> option string) (t : DataSummary) :
  let cleaned := fst (cleanData isoDate t) in
  let report := snd (cleanData isoDate t) in
  (exists flags,
     columns cleaned
     = (map (fun c => fst (cleanColumn isoDate c (totalRows t))) (columns t)
        ++ [{| name := "nettoyage_effectue"; type := categorical; values := flags;
               missingCount := 0; missingRate := PrimFloat.zero |}])%list) /\
  columnReports report = map (fun c => snd (cleanColumn isoDate c (totalRows t))) (columns t) /\
  exists rows : gset nat,
    totalRowsCleaned report = size rows /\
    forall i, i ∈ rows -> exists c, c ∈ columns t /\ changedAt isoDate (totalRows t) c i.
Proof.
  simpl.
  pose proof (cleanStep_fold isoDate (totalRows t) (columns t)
                {| cleanedColumns := []; reports := []; rowsModified := ∅;
                   flagValues := replicate (totalRows t) (Bool false) |})
    as (H1 & H2 & H3 & _).
  simpl in *. rewrite H1, H2. split; [eauto|]. split; [done|].
  eexists. split; [done|].
  intros i Hi. apply H3 in Hi as [Hi|Hi]; [|done]. by apply elem_of_empty in Hi.
Qed.

(** X9. The report of [cleanData] follows the columns of the table:
    one column report for each column, in order, under its name and
    with its original type; the cleaned table keeps the names in order
    before the flag column, and the type of each cleaned column is the
    final type of its report. The number of converted types is at most
    the number of columns. *)
Theorem cleaning_report_follows_the_columns (isoDate : any -> option string) (t : DataSummary) :
  let '(cleaned, report) := cleanData isoDate t in
  map columnName (columnReports report) = map name (columns t) /\
  map originalType (columnReports report) = map type (columns t) /\
  map name (columns cleaned) = (map name (columns t) ++ ["nettoyage_effectue"])%list /\
  map type (columns cleaned) = (map finalType (columnReports report) ++ [categorical])%list /\
  typesConverted (summary report) <= length (columns t).
Proof.
  pose proof (cleanData_unfold isoDate t) as ([flags Hc] & Hr & _).
  assert (Hlen : typesConverted (summary (snd (cleanData isoDate t))) <= length (columns t)).
  { simpl. etrans; [apply length_filter|]. fold (snd (cleanData isoDate t)).
    change (reports _) with (columnReports (snd (cleanData isoDate t))).
    by rewrite Hr, length_map. }
  destruct (cleanData isoDate t) as [cleaned report]. simpl in Hc, Hr, Hlen.
  rewrite Hc, Hr, !map_app, !map_map. simpl.
  repeat split; try done; first [apply map_ext | (f_equal; apply map_ext)]; intros c;
    pose proof (cleanColumn_fields isoDate c (totalRows t)) as Hf;
    destruct (cleanColumn isoDate c (totalRows t)); simpl; tauto.
Qed.

Lemma fold_sum_bound {A : Type} (f : A -> nat) (n : nat) (l : list A) (a : nat) :
  Forall (fun r => f r <= n) l ->
  fold_left (fun sum r => sum + f r) l a <= a + n * length l.
Proof.
  intros H. revert a. induction H as [|r l Hr _ IH]; intros a; simpl; [lia|].
  etrans; [apply IH|]. lia.
Qed.

(** X10. For a table whose columns all have [totalRows] values, the
    totals of the cleaning report are bounded by the table: at most
    [totalRows] rows are reported as cleaned, and the numbers of imputed
    and of fixed values are at most the number of cells. *)
Theorem cleaning_totals_are_bounded (isoDate : any -> option string) (t : DataSummary) :
  Forall (fun c => length (values c) = totalRows t) (columns t) ->
  let report := snd (cleanData isoDate t) in
  totalRowsCleaned report <= totalRows t /\
  totalImputed (summary report) <= totalRows t * length (columns t) /\
  totalFixed (summary report) <= totalRows t * length (columns t).
Proof.
  intros Hrect report.
  pose proof (cleanData_unfold isoDate t) as (_ & Hr & rows & Hsize & Hrows).
  fold report in Hr, Hsize. split; [|split].
  - rewrite Hsize. rewrite <- (size_set_seq 0 (totalRows t) (C := gset nat)).
    apply subseteq_size. intros i Hi. apply elem_of_set_seq. split; [lia|]. simpl.
    destruct (Hrows i Hi) as (c & Hc & v & Hv & _).
    apply lookup_lt_Some in Hv. rewrite length_cleanColumn in Hv.
    rewrite Forall_forall in Hrect. by rewrite <- (Hrect c Hc).
  - change (totalImputed (summary report))
      with (fold_left (fun sum r => sum + missingValuesImputed r) (columnReports report) 0).
    etrans; [apply (fold_sum_bound _ (totalRows t))|].
    + rewrite Hr. apply Forall_map, Forall_forall. intros c Hc. simpl.
      rewrite Forall_forall in Hrect. specialize (Hrect c Hc). simpl in Hrect.
      pose proof (cleanColumn_fields isoDate c (totalRows t)) as Hf.
      destruct (cleanColumn isoDate c (totalRows t)). simpl. lia.
    + rewrite Hr, length_map. lia.
  - change (totalFixed (summary report))
      with (fold_left (fun sum r => sum + erroneousValuesFixed r) (columnReports report) 0).
    etrans; [apply (fold_sum_bound _ (totalRows t))|].
    + rewrite Hr. apply Forall_map, Forall_forall. intros c Hc. simpl.
      rewrite Forall_forall in Hrect. specialize (Hrect c Hc). simpl in Hrect.
      pose proof (cleanColumn_fields isoDate c (totalRows t)) as Hf.
      destruct (cleanColumn isoDate c (totalRows t)). simpl. lia.
    + rewrite Hr, length_map. lia.
Qed.

(** X10 (witness): a table of two columns and two rows. *)
Lemma cleaning_totals_are_bounded_witness :
  let t := {| totalRows := 2; totalColumns := 2;
              columns := [{| name := "price"; type := text; values := [Str "$5"; Str "n/a"];
                             missingCount := 0; missingRate := PrimFloat.zero |};
                          {| name := "city"; type := text; values := [Str ""; Str "Rome"];
                             missingCount := 1; missingRate := PrimFloat.zero |}];
              fileName := "t.csv" |} in
  let report := snd (cleanData (fun _ => None) t) in
  totalRowsCleaned report <= totalRows t /\
  totalImputed (summary report) <= totalRows t * length (columns t) /\
  totalFixed (summary report) <= totalRows t * length (columns t).
Proof.
  apply (cleaning_totals_are_bounded (fun _ => None)
           {| totalRows := 2; totalColumns := 2;
              columns := [{| name := "price"; type := text; values := [Str "$5"; Str "n/a"];
                             missingCount := 0; missingRate := PrimFloat.zero |};
                          {| name := "city"; type := text; values := [Str ""; Str "Rome"];
                             missingCount := 1; missingRate := PrimFloat.zero |}];
              fileName := "t.csv" |}).
  repeat constructor.
Defined.

(** ** Sorting and counting *)

Lemma insertSorted_Permutation {A : Type} (after : A -> A -> bool) (x : A) (l : list A) :
  insertSorted after x l ≡ₚ x :: l.
Proof.
  induction l as [|y l IH]; simpl; [done|].
  destruct (after x y); [|done]. rewrite IH. apply Permutation_swap.
Qed.

Lemma sort_Permutation {num : Type} `{Arith num} {A : Type} (compareFn : A -> A -> num)
    (l : list A) :
  sort compareFn l ≡ₚ l.
Proof.
  unfold sort. induction l as [|x l IH]; simpl; [done|].
  by rewrite insertSorted_Permutation, IH.
Qed.

Lemma countKeys_countValues (keys : list string) :
  countKeys keys = countValues (map Str keys).
Proof.
  unfold countKeys, countValues. generalize (@nil (any * nat)).
  induction keys as [|k keys IH]; intros m; simpl; [done|]. apply IH.
Qed.

Lemma mapSet_count_total (m : Map nat) (k : any) :
  sum_list_with snd (mapSet m k (default 0 (mapGet m k) + 1)) = S (sum_list_with snd m).
Proof.
  induction m as [|[k' n] m IH]; simpl; [done|].
  destruct (sameValueZero k' k); simpl; [lia|]. rewrite IH. lia.
Qed.

Lemma mapSet_length {V : Type} (m : Map V) (k : any) (v : V) :
  length (mapSet m k v) <= S (length m) /\ 1 <= length (mapSet m k v).
Proof.
  induction m as [|[k' n] m IH]; simpl; [lia|].
  destruct (sameValueZero k' k); simpl; lia.
Qed.

Lemma countValues_total (l : list any) :
  sum_list_with snd (countValues l) = length l /\
  length (countValues l) <= length l /\
  (l <> [] -> 1 <= length (countValues l)).
Proof.
  induction l as [|v l (IH1 & IH2 & IH3)] using rev_ind; [done|].
  rewrite countValues_snoc, mapSet_count_total, IH1, length_app. simpl.
  pose proof (mapSet_length (countValues l) v (default 0 (mapGet (countValues l) v) + 1)).
  repeat split; lia.
Qed.

Lemma countValues_counts_positive (l : list any) :
  Forall (fun entry => 1 <= snd entry) (countValues l).
Proof.
  destruct (countValues_spec l) as (Hentries & _).
  apply Forall_lookup. intros i [k n] Hi. simpl. destruct (Hentries i k n Hi). lia.
Qed.

(** ** Descriptive statistics of a categorical column *)

Lemma calculateCategoricalStats_unfold (values : list any) :
  let present := filter (fun v => nonNull v) values in
  exists entries : list (any * nat),
    entries ≡ₚ countValues (map (fun v => Str (ToString v)) present) /\
    uniqueCount (calculateCategoricalStats values) = length entries /\
    map count (topValues (calculateCategoricalStats values)) = map snd (take 10 entries).
Proof.
  simpl. eexists. split; [|split; [|rewrite map_map; apply map_ext; by intros [k n]]].
  - rewrite countKeys_countValues, map_map. apply sort_Permutation.
  - by rewrite sort_length.
Qed.

(** X11. The shape of the statistics of a categorical column: there
    are as many top values as distinct values, but at most ten; the
    number of distinct values is at most the number of present cells, and
    it is zero only when no cell is present; every top value was counted
    at least once, and the counts of the top values add up to at most the
    number of present cells. *)
Theorem categorical_stats_shape (values : list any) :
  let stats := calculateCategoricalStats values in
  let present := length (filter (fun v => nonNull v) values) in
  length (topValues stats) = Nat.min 10 (uniqueCount stats) /\
  uniqueCount stats <= present /\
  (uniqueCount stats = 0 <-> present = 0) /\
  Forall (fun top => 1 <= count top) (topValues stats) /\
  sum_list (map count (topValues stats)) <= present.
Proof.
  intros stats present.
  destruct (calculateCategoricalStats_unfold values) as (entries & Hperm & Hunique & Hcounts).
  fold stats in Hunique, Hcounts.
  set (keys := map (fun v => Str (ToString v)) (filter (fun v => nonNull v) values)) in *.
  assert (Hkeys : length keys = present) by apply length_map.
  destruct (countValues_total keys) as (Htotal & Hlen & Hpos).
  assert (Hsum : sum_list (map snd entries) = present).
  { rewrite <- Hkeys, <- Htotal, <- Hperm. clear. induction entries as [|[k n] l IH]; [done|].
    simpl. by rewrite IH. }
  assert (Hone : Forall (fun n => 1 <= n) (map snd entries)).
  { apply Forall_map. rewrite Hperm. apply countValues_counts_positive. }
  rewrite Hunique, <- (length_map count), Hcounts, <- List.firstn_map.
  rewrite length_take, length_map, (Permutation_length Hperm).
  split; [done|]. split; [lia|]. split; [|split].
  - split; intros H0; [|lia].
    destruct keys; [by rewrite <- Hkeys|]. specialize (Hpos ltac:(done)). lia.
  - apply Forall_forall. intros top Htop.
    assert (count top ∈ map count (topValues stats)) as Hin
      by (apply list_elem_of_fmap; eauto).
    rewrite Hcounts, <- List.firstn_map in Hin. apply elem_of_take in Hin as (i & Hi & _).
    rewrite Forall_lookup in Hone. by apply (Hone i).
  - rewrite <- Hsum. rewrite <- (take_drop 10 (map snd entries)) at 2.
    rewrite sum_list_with_app. lia.
Qed.

(** X12. When a categorical column has at most ten distinct values,
    the counts of its top values add up to the number of present
    cells. *)
Theorem top_value_counts_cover_small_columns (values : list any) :
  let stats := calculateCategoricalStats values in
  uniqueCount stats <= 10 ->
  sum_list (map count (topValues stats)) = length (filter (fun v => nonNull v) values).
Proof.
  intros stats Hsmall.
  destruct (calculateCategoricalStats_unfold values) as (entries & Hperm & Hunique & Hcounts).
  fold stats in Hunique, Hcounts.
  rewrite Hcounts, take_ge by lia.
  transitivity (sum_list_with snd entries).
  { clear. induction entries as [|[k n] l IH]; [done|]. simpl. by rewrite IH. }
  rewrite Hperm. destruct (countValues_total
    (map (fun v => Str (ToString v)) (filter (fun v => nonNull v) values))) as (-> & _).
  apply length_map.
Qed.

(** X12 (witness): a column with three distinct values. *)
Lemma top_value_counts_cover_small_columns_witness :
  sum_list (map count (topValues (calculateCategoricalStats
                                    [Str "a"; Str "b"; Null; Str "a"; Num 1; Str ""])))
  = length (filter (fun v => nonNull v) [Str "a"; Str "b"; Null; Str "a"; Num 1; Str ""]).
Proof.
  apply (top_value_counts_cover_small_columns [Str "a"; Str "b"; Null; Str "a"; Num 1; Str ""]).
  vm_compute. lia.
Defined.

(** ** Column statistics *)

(** X13. [generateColumnStats] gives one entry for each column, in
    order, with the name and the type of the column; the entry carries
    numerical statistics exactly when the column is numerical and
    categorical statistics exactly when it is categorical, so never both,
    and none for a date or text column. *)
Theorem column_stats_follow_the_columns (data : DataSummary) :
  Forall2 (fun column stat =>
             statName stat = name column /\ statType stat = type column /\
             (is_Some (numericalStats stat) <-> type column = numerical) /\
             (is_Some (categoricalStats stat) <-> type column = categorical))
          (columns data) (generateColumnStats data).
Proof.
  unfold generateColumnStats. apply Forall2_fmap_r, Forall_Forall2_diag, Forall_forall.
  intros c _. simpl. split; [done|]. split; [done|].
  destruct (type c); simpl; repeat split; intros H; try done; try (by destruct H); eauto.
Qed.

(** X14. The outliers of a numerical column are numbers read from its
    numeric cells, so there are at most as many as numeric cells. *)
Theorem outliers_are_numeric_cells (values : list any) :
  let stats := calculateNumericalStats values in
  Forall (fun o => exists v, v ∈ values /\ isNumeric v = true /\ o = Number v) (outliers stats) /\
  length (outliers stats) <= length (filter (fun v => isNumeric v) values).
Proof.
  unfold calculateNumericalStats, statsOfNumbers.
  set (numeric := filter (fun v => isNumeric v) values).
  assert (Hnum : forall o, In o (map Number numeric) ->
                           exists v, v ∈ values /\ isNumeric v = true /\ o = Number v).
  { intros o Ho. apply in_map_iff in Ho as (v & <- & Hv).
    apply list_elem_of_In, list_elem_of_filter in Hv as [Hv Hin].
    exists v. split; [done|]. split; [by apply Is_true_true|done]. }
  destruct (length (map Number numeric) =? 0)%nat; simpl.
  - split; [constructor|lia].
  - split.
    + apply List.Forall_forall. intros o Ho. apply List.filter_In in Ho as [Ho _]. auto.
    + etrans; [apply List.filter_length_le|]. by rewrite length_map.
Qed.

(** ** Correlation *)

Lemma usablePairs_take (x y : list any) :
  usablePairs x y = usablePairs (take (length y) x) y.
Proof.
  revert y. induction x as [|a x IH]; intros y; [by destruct y|].
  destruct y as [|b y]; [by rewrite usablePairs_nil_r|].
  unfold usablePairs in *. simpl. unfold compose. simpl.
  rewrite <- (IH y). done.
Qed.

(** X15. The correlation of two columns of different lengths is the
    correlation of their first rows, up to the length of the shorter
    column: the rows beyond it are ignored. *)
Theorem correlation_ignores_rows_beyond_the_shorter_column (x y : list any) :
  let n := Nat.min (length x) (length y) in
  calculatePearsonCorrelation x y = calculatePearsonCorrelation (take n x) (take n y).
Proof.
  intros n. unfold calculatePearsonCorrelation.
  assert (usablePairs x y = usablePairs (take n x) (take n y)) as ->; [|done].
  assert (Hx : take n x = take (length y) x).
  { unfold n. destruct (Nat.min_spec (length x) (length y)) as [[Hlt ->]|[Hle ->]]; [|done].
    by rewrite !take_ge by lia. }
  assert (Hy : take n y = take (length (take n x)) y).
  { rewrite length_take. f_equal. unfold n. lia. }
  rewrite Hy, (usablePairs_swap (take (length (take n x)) y) (take n x)).
  rewrite <- usablePairs_take, <- usablePairs_swap, Hx. apply usablePairs_take.
Qed.

(** ** Anomalies *)

Lemma setSize_bounds (l : list any) :
  setSize l <= length l /\ (l <> [] -> 1 <= setSize l).
Proof.
  induction l as [|v l [IH1 IH2]]; simpl; [done|].
  destruct (existsb (sameValueZero v) l) eqn:E; [|split; lia].
  split; [lia|]. intros _. apply IH2. by destruct l.
Qed.

(** With at most five values, of which at least one and at most all are
    distinct, the duplicate rate is not above 0.8. *)
Lemma duplicate_rate_of_few_values (unique n : nat) :
  n <= 5 -> unique <= n -> (n <> 0 -> 1 <= unique) ->
  PrimFloat.ltb (decToFloat false 8 (-1))
                (PrimFloat.sub PrimFloat.one
                               (PrimFloat.div (natToFloat unique) (natToFloat n))) = false.
Proof.
  intros Hn Hu Hpos.
  destruct n as [|[|[|[|[|[|n]]]]]]; try lia;
    destruct unique as [|[|[|[|[|[|unique]]]]]]; try lia; by vm_compute.
Qed.

(** When a callback returns at most one element, the elements that
    [flatMap] collects follow the list: one for some of its entries, in
    order. *)
Lemma flat_map_sublist {A B K : Type} (kind : B -> K) (expected : A -> K) (f : A -> list B)
    (l : list A) :
  (forall x, f x = [] \/ exists y, f x = [y] /\ kind y = expected x) ->
  map kind (flat_map f l) `sublist_of` map expected l.
Proof.
  intros Hf. induction l as [|x l IH]; simpl; [constructor|].
  rewrite map_app. destruct (Hf x) as [->|(y & -> & <-)]; simpl.
  - by apply sublist_cons.
  - by apply sublist_skip.
Qed.

(** X16. The anomalies are listed in three blocks: first those on
    missing values, then the outliers, then the duplicate values. Each
    block follows the columns (the entries of the column statistics for
    the outliers) in order, with at most one anomaly of its kind for each
    of them, under the name of the column. The kinds
    inconsistent_format and invalid_values are never reported. *)
Theorem anomalies_come_in_three_blocks (data : DataSummary) (columnStats : list ColumnStats) :
  exists onMissing onOutliers onDuplicates,
    map (fun a => (anomaly a, column a)) (detectAnomalies data columnStats)
    = (onMissing ++ onOutliers ++ onDuplicates)%list /\
    onMissing `sublist_of` map (fun c => (missing_values, name c)) (columns data) /\
    onOutliers `sublist_of` map (fun stat => (outlier, statName stat)) columnStats /\
    onDuplicates `sublist_of` map (fun c => (duplicate_values, name c)) (columns data).
Proof.
  unfold detectAnomalies. rewrite !map_app. eexists _, _, _. split; [reflexivity|].
  split; [|split]; apply flat_map_sublist.
  - intros column. case_match; eauto.
  - intros stat. destruct (numericalStats stat); [|by left]. case_match; eauto.
  - intros column. cbv zeta. case_match; eauto.
Qed.

(** X17. What each anomaly says. An anomaly on missing values is
    never of low severity and carries the missing count of its column.
    An outlier anomaly comes from an entry of the column statistics that
    has outliers and carries their number. An anomaly on duplicate
    values is of medium severity, carries no count, and is only reported
    for a column that is not categorical and has at least six present
    values. *)
Theorem anomaly_contents (data : DataSummary) (columnStats : list ColumnStats) :
  Forall (fun a =>
            match anomaly a with
            | missing_values =>
                severity a <> low /\
                exists c, c ∈ columns data /\ column a = name c /\
                          affected a = Some (missingCount c)
            | outlier =>
                exists stat stats, stat ∈ columnStats /\ numericalStats stat = Some stats /\
                                   column a = statName stat /\
                                   0 < length (outliers stats) /\
                                   affected a = Some (length (outliers stats))
            | duplicate_values =>
                severity a = medium /\ affected a = None /\
                exists c, c ∈ columns data /\ column a = name c /\ type c <> categorical /\
                          6 <= length (filter (fun v => nonNull v) (values c))
            | _ => False
            end)
         (detectAnomalies data columnStats).
Proof.
  unfold detectAnomalies. rewrite !Forall_app. repeat split.
  - apply Forall_flat_map, Forall_forall. intros c Hc.
    case_match; [|constructor]. constructor; [|constructor]. simpl.
    split; [by case_match|]. eauto.
  - apply Forall_flat_map, Forall_forall. intros stat Hstat.
    destruct (numericalStats stat) as [stats|] eqn:E; [|constructor].
    destruct (Nat.ltb_spec 0 (length (outliers stats))); [|constructor].
    constructor; [|constructor]. simpl. eauto 10.
  - apply Forall_flat_map, Forall_forall. intros c Hc.
    destruct (_ && _) eqn:E; [|constructor]. constructor; [|constructor]. simpl.
    split; [done|]. split; [done|]. exists c. split; [done|]. split; [done|].
    apply andb_true_iff in E as [Hrate Htype]. split; [by destruct (type c)|].
    destruct (setSize_bounds (filter (fun v => nonNull v) (values c))) as [Hle Hpos].
    destruct (Nat.le_gt_cases 6 (length (filter (fun v => nonNull v) (values c))))
      as [Hlen|Hlen]; [done|].
    rewrite duplicate_rate_of_few_values in Hrate; [done|lia|done|].
    intros Hn. apply Hpos. intros Hnil. by rewrite Hnil in Hn.
Qed.

(** ** Recommendations *)

Lemma length_filter_pos {A : Type} (P : A -> Prop) `{forall x, Decision (P x)} (l : list A) :
  0 < length (filter P l) <-> exists x, x ∈ l /\ P x.
Proof.
  split.
  - destruct (filter P l) as [|x k] eqn:E; simpl; [lia|]. intros _.
    assert (x ∈ filter P l) as Hin by (rewrite E; by left).
    apply list_elem_of_filter in Hin as [HP Hin]. eauto.
  - intros (x & Hx & HP). assert (x ∈ filter P l) as Hin by (by apply list_elem_of_filter).
    destruct (filter P l); [by apply elem_of_nil in Hin|simpl; lia].
Qed.

(** X18. The recommendations come in a fixed order, each with a fixed
    priority and title: at most one on data quality, of high priority;
    then at most one on analysis and at most one on outliers, of medium
    priority; then those on high cardinality, of low priority, which
    follow the categorical entries of the column statistics in order,
    with at most one for each entry, under its name. The first is given
    exactly when a column has a missing rate above 0.2, the one on
    analysis only with two numerical entries, the one on outliers
    exactly when an outlier anomaly of high severity was found. *)
Theorem recommendations_shape (data : DataSummary) (columnStats : list ColumnStats)
    (anomalies : list Anomaly) :
  exists a b c onCardinality,
    map (fun r => (category r, priority r, recTitle r))
        (generateRecommendations data columnStats anomalies)
    = (replicate a (data_quality, high, "Address Missing Values")
       ++ replicate b (analysis, medium, "Strong Correlations Detected")
       ++ replicate c (preprocessing, medium, "Handle Outliers")
       ++ onCardinality)%list /\
    a <= 1 /\ b <= 1 /\ c <= 1 /\
    onCardinality
      `sublist_of` map (fun stat => (preprocessing, low, "High Cardinality in " ++ statName stat))
                       (filter (fun stat => colType_eqb (statType stat) categorical) columnStats) /\
    length onCardinality
      <= length (filter (fun stat => colType_eqb (statType stat) categorical) columnStats) /\
    (a = 1 <-> exists col, col ∈ columns data /\
                           PrimFloat.ltb (decToFloat false 2 (-1)) (missingRate col) = true) /\
    (b = 1 -> 2 <= length (filter (fun stat => colType_eqb (statType stat) numerical) columnStats)) /\
    (c = 1 <-> exists an, an ∈ anomalies /\ anomaly an = outlier /\ severity an = high).
Proof.
  unfold generateRecommendations. rewrite !map_app.
  match goal with
  | |- context [(0 <? length (filter ?P (columns data)))%nat] =>
      pose proof (length_filter_pos P (columns data)) as Ha
  end.
  match goal with
  | |- context [(0 <? length (filter ?P anomalies))%nat] =>
      pose proof (length_filter_pos P anomalies) as Hc
  end.
  match goal with
  | |- context [(map _ (if ?ta then _ else _) ++ map _ (if ?tb then ?rb else _)
                 ++ map _ (if ?tc then _ else _) ++ ?rd)%list] =>
      exists (if ta then 1 else 0),
             (if tb then length rb else 0),
             (if tc then 1 else 0), rd;
      assert (Hd : rd `sublist_of`
                     map (fun stat => (preprocessing, low, "High Cardinality in " ++ statName stat))
                         (filter (fun stat => colType_eqb (statType stat) categorical)
                                 columnStats))
  end.
  { apply flat_map_sublist. intros stat.
    destruct (categoricalStats stat); [|by left]. case_match; eauto. }
  split; [|split; [|split; [|split; [|split; [exact Hd|split; [|split; [|split]]]]]]].
  - cbv zeta. by repeat case_match.
  - case_match; lia.
  - cbv zeta. repeat case_match; simpl; lia.
  - case_match; lia.
  - etrans; [exact (sublist_length _ _ Hd)|]. by rewrite length_map.
  - destruct (Nat.ltb_spec 0 (length (filter (fun col => decToFloat false 2 (-1) <? missingRate col)%float
                                             (columns data)))) as [Hlt|Hge].
    + split; [|done]. intros _. apply Ha in Hlt as (col & Hcol & Hrate).
      exists col. split; [done|]. by apply Is_true_true.
    + split; [done|]. intros (col & Hcol & Hrate). exfalso.
      assert (0 < length (filter (fun col => decToFloat false 2 (-1) <? missingRate col)%float
                                 (columns data))); [|lia].
      apply Ha. exists col. split; [done|]. by apply Is_true_true.
  - destruct (Nat.leb_spec 2 (length (filter (fun stat => colType_eqb (statType stat) numerical)
                                             columnStats))) as [Hle|Hgt]; [done|].
    simpl. lia.
  - destruct (Nat.ltb_spec 0 (length (filter
               (fun a => anomalyType_eqb (anomaly a) outlier && severityLevel_eqb (severity a) high)
               anomalies))) as [Hlt|Hge].
    + split; [|done]. intros _. apply Hc in Hlt as (an & Han & Hkind).
      exists an. split; [done|]. apply andb_prop_elim in Hkind as [Hk Hs].
      by destruct (anomaly an), (severity an).
    + split; [done|]. intros (an & Han & Hk & Hs). exfalso.
      assert (0 < length (filter
               (fun a => anomalyType_eqb (anomaly a) outlier && severityLevel_eqb (severity a) high)
               anomalies)); [|lia].
      apply Hc. exists an. split; [done|]. by rewrite Hk, Hs.
Qed.

(** ** Reading a CSV line *)

Lemma parseChar_cases (st : lineState) (char : ascii) :
  (char = doubleQuote /\
   parseChar st char = {| result := result st; current := current st;
                          inQuotes := negb (inQuotes st) |}) \/
  (char <> doubleQuote /\ char = ","%char /\ inQuotes st = false /\
   parseChar st char = {| result := result st ++ [trim (current st)]; current := "";
                          inQuotes := false |}) \/
  (char <> doubleQuote /\ (char <> ","%char \/ inQuotes st = true) /\
   parseChar st char = {| result := result st; current := current st ++ String char "";
                          inQuotes := inQuotes st |}).
Proof.
  unfold parseChar. destruct (Ascii.eqb_spec char doubleQuote) as [->|Hq]; [by left|].
  destruct (Ascii.eqb_spec char ","%char) as [->|Hc]; simpl.
  - destruct (inQuotes st) eqn:E; simpl; [right; right|right; left]; by rewrite ?E; eauto.
  - right; right. eauto.
Qed.

Lemma countChar_cons (c d : ascii) (s : string) :
  countChar c (String d s) = (if Ascii.eqb c d then 1 else 0) + countChar c s.
Proof. unfold countChar. simpl. by destruct (Ascii.eqb c d). Qed.

Lemma countChar_app (c : ascii) (a b : string) :
  countChar c (a ++ b) = countChar c a + countChar c b.
Proof.
  unfold countChar. by rewrite list_ascii_of_string_app, List.filter_app, length_app.
Qed.

Lemma parse_fold_length (line : string) (st : lineState) :
  let st' := fold_left parseChar (list_ascii_of_string line) st in
  length (result st) <= length (result st') <= length (result st) + countChar "," line /\
  (countChar doubleQuote line = 0 -> inQuotes st = false ->
   length (result st') = length (result st) + countChar "," line).
Proof.
  revert st. induction line as [|char line IH]; intros st; simpl.
  { unfold countChar. simpl. lia. }
  specialize (IH (parseChar st char)). simpl in IH. destruct IH as [IH1 IH2].
  rewrite !countChar_cons.
  destruct (parseChar_cases st char) as [[-> H]|[(Hq & -> & Hin & H)|(Hq & Hc & H)]];
    rewrite H in *; cbn [result inQuotes current] in *.
  - rewrite Ascii.eqb_refl.
    destruct (Ascii.eqb_spec ","%char doubleQuote) as [|_]; [done|]. lia.
  - rewrite length_app in *. cbn [length] in *. rewrite Ascii.eqb_refl.
    destruct (Ascii.eqb_spec doubleQuote ","%char) as [|_]; [done|].
    split; [lia|]. intros Hnone _. rewrite IH2; [lia|done|done].
  - destruct (Ascii.eqb_spec doubleQuote char) as [|_]; [congruence|].
    destruct (Ascii.eqb_spec ","%char char) as [<-|Hne].
    + split; [lia|]. intros Hnone Hin. destruct Hc; congruence.
    + split; [lia|]. intros Hnone Hin. rewrite IH2; [lia|done|done].
Qed.

(** X19. A CSV line always has at least one field and at most one more
    than it has commas; a line without any double quote has exactly one
    field more than commas. *)
Theorem csv_line_field_count (line : string) :
  1 <= length (parseCSVLine line) <= S (countChar "," line) /\
  (countChar doubleQuote line = 0 -> length (parseCSVLine line) = S (countChar "," line)).
Proof.
  unfold parseCSVLine. rewrite length_app. simpl.
  destruct (parse_fold_length line {| result := []; current := ""; inQuotes := false |})
    as [H1 H2].
  simpl in *. split; [lia|]. intros Hnone. rewrite H2; [lia|done|done].
Qed.

(** X19 (witness): a line of four fields, one of them empty. *)
Lemma csv_line_field_count_witness :
  1 <= length (parseCSVLine "id, name ,,city") <= S (countChar "," "id, name ,,city") /\
  length (parseCSVLine "id, name ,,city") = S (countChar "," "id, name ,,city").
Proof.
  destruct (csv_line_field_count "id, name ,,city") as [H1 H2].
  split; [exact H1|]. apply H2. reflexivity.
Defined.

Lemma trimEnd_idem (s : string) : trimEnd (trimEnd s) = trimEnd s.
Proof.
  induction s as [|c s IH]; simpl; [done|].
  destruct (trimEnd s) as [|d t] eqn:E.
  - destruct (isWhiteSpace c) eqn:Ec; simpl; [done|]. by rewrite Ec.
  - change (trimEnd (String c (String d t))) with
      (match trimEnd (String d t) with
       | EmptyString => if isWhiteSpace c then EmptyString else String c EmptyString
       | t' => String c t'
       end).
    by rewrite IH.
Qed.

Lemma trimEnd_head (c : ascii) (s : string) :
  isWhiteSpace c = false -> exists r, trimEnd (String c s) = String c r.
Proof.
  intros Hc. simpl. destruct (trimEnd s); rewrite ?Hc; eauto.
Qed.

Lemma trim_idem (s : string) : trim (trim s) = trim s.
Proof.
  unfold trim. destruct (trimStart_head s) as [->|(c & r & -> & Hc)]; [done|].
  destruct (trimEnd_head c r Hc) as [r' Hr]. rewrite Hr at 1.
  simpl trimStart. rewrite Hc, <- Hr. apply trimEnd_idem.
Qed.

Lemma trimStart_chars (P : ascii -> Prop) (s : string) :
  Forall P (list_ascii_of_string s) -> Forall P (list_ascii_of_string (trimStart s)).
Proof.
  induction s as [|c s IH]; simpl; [done|]. intros H.
  destruct (isWhiteSpace c); [|done]. apply Forall_cons in H as [_ H]. auto.
Qed.

Lemma trimEnd_chars (P : ascii -> Prop) (s : string) :
  Forall P (list_ascii_of_string s) -> Forall P (list_ascii_of_string (trimEnd s)).
Proof.
  induction s as [|c s IH]; simpl; [done|]. intros H.
  apply Forall_cons in H as [Hc H]. specialize (IH H).
  destruct (trimEnd s); [destruct (isWhiteSpace c)|]; simpl;
    first [ apply Forall_nil_2
          | apply Forall_cons_2; [done|first [apply Forall_nil_2|exact IH]] ].
Qed.

Lemma trim_chars (P : ascii -> Prop) (s : string) :
  Forall P (list_ascii_of_string s) -> Forall P (list_ascii_of_string (trim s)).
Proof. intros H. by apply trimEnd_chars, trimStart_chars. Qed.

Lemma countChar_zero (c : ascii) (s : string) :
  countChar c s = 0 <-> Forall (fun d => d <> c) (list_ascii_of_string s).
Proof.
  induction s as [|d s IH]; [by split; [constructor|]|].
  rewrite countChar_cons. simpl. rewrite Forall_cons, <- IH.
  destruct (Ascii.eqb_spec c d) as [->|Hne].
  - split; [lia|]. by intros [H _].
  - split; [|lia]. intros H. split; [congruence|lia].
Qed.

Lemma parse_fold_fields (line : string) (st : lineState) :
  let good field := trim field = field /\ countChar doubleQuote field = 0 in
  Forall good (result st) -> countChar doubleQuote (current st) = 0 ->
  let st' := fold_left parseChar (list_ascii_of_string line) st in
  Forall good (result st') /\ countChar doubleQuote (current st') = 0.
Proof.
  intros good. revert st. induction line as [|char line IH]; intros st Hres Hcur; [done|].
  simpl. apply IH;
    destruct (parseChar_cases st char) as [[-> H]|[(Hq & -> & Hin & H)|(Hq & Hc & H)]];
    rewrite H; cbn [result inQuotes current]; try done.
  - apply Forall_app. split; [done|]. constructor; [|constructor]. split; [apply trim_idem|].
    apply countChar_zero, trim_chars, countChar_zero, Hcur.
  - rewrite countChar_app, Hcur, countChar_cons.
    destruct (Ascii.eqb_spec doubleQuote char) as [|_]; [congruence|done].
Qed.

(** X20. Every field of a CSV line is trimmed and holds no double
    quote: quotes only switch the reading of commas on and off and are
    dropped, also the doubled quotes inside a quoted field. *)
Theorem csv_fields_are_trimmed_and_unquoted (line : string) :
  Forall (fun field => trim field = field /\ countChar doubleQuote field = 0)
         (parseCSVLine line).
Proof.
  unfold parseCSVLine.
  destruct (parse_fold_fields line {| result := []; current := ""; inQuotes := false |})
    as [H1 H2]; [constructor|done|].
  apply Forall_app. split; [done|]. constructor; [|constructor]. split; [apply trim_idem|].
  apply countChar_zero, trim_chars, countChar_zero, H2.
Qed.

(** ** Writing a CSV row and reading it back *)

Lemma append_cons (c : ascii) (a b : string) : String c a ++ b = String c (a ++ b).
Proof. reflexivity. Qed.

Lemma append_snoc (a : string) (c : ascii) (b : string) :
  (a ++ String c "") ++ b = a ++ String c b.
Proof. induction a as [|d a IH]; [done|]. by rewrite !append_cons, IH. Qed.

Lemma append_empty_r (a : string) : a ++ "" = a.
Proof. induction a as [|d a IH]; [done|]. by rewrite append_cons, IH. Qed.

Lemma includes_char (s : string) (c : ascii) :
  includes s (String c "") = false -> countChar c s = 0.
Proof.
  induction s as [|d s IH]; [done|]. rewrite countChar_cons. simpl.
  destruct (Ascii.eqb_spec c d) as [->|Hne].
  - destruct (ascii_dec d d); [|done]. by destruct s.
  - destruct (ascii_dec c d); [done|]. simpl. intros H. by rewrite IH.
Qed.

Lemma withoutQuotes_plain (s : string) :
  countChar doubleQuote s = 0 -> withoutQuotes s = s.
Proof.
  unfold withoutQuotes. induction s as [|c s IH]; [done|].
  rewrite countChar_cons. cbn [removeChars].
  destruct (Ascii.eqb_spec doubleQuote c) as [<-|Hne]; [lia|]. intros H.
  destruct (Ascii.eqb_spec c doubleQuote) as [->|_]; [done|]. by rewrite IH.
Qed.

(** Characters that are neither quotes nor separating commas are added
    to the current field. *)
Lemma parse_plain (s : string) (st : lineState) :
  countChar doubleQuote s = 0 ->
  countChar "," s = 0 \/ inQuotes st = true ->
  fold_left parseChar (list_ascii_of_string s) st
  = {| result := result st; current := current st ++ s; inQuotes := inQuotes st |}.
Proof.
  revert st. induction s as [|c s IH]; intros st Hq Hc.
  { simpl. rewrite append_empty_r. by destruct st. }
  rewrite countChar_cons in Hq, Hc. simpl.
  destruct (parseChar_cases st c) as [[-> H]|[(Hnq & -> & Hin & H)|(Hnq & Hcomma & H)]].
  - rewrite Ascii.eqb_refl in Hq. lia.
  - rewrite Ascii.eqb_refl in Hc. destruct Hc; [lia|congruence].
  - rewrite H, IH; cbn [result current inQuotes].
    + by rewrite append_snoc.
    + lia.
    + destruct Hc; [left; lia|by right].
Qed.

(** Inside quotes, a string whose quotes were doubled adds its
    characters other than quotes to the current field, commas
    included. *)
Lemma parse_doubled (s : string) (st : lineState) :
  inQuotes st = true ->
  fold_left parseChar
            (list_ascii_of_string
               (replaceChar doubleQuote (String doubleQuote (String doubleQuote "")) s)) st
  = {| result := result st; current := current st ++ withoutQuotes s; inQuotes := true |}.
Proof.
  revert st. induction s as [|c s IH]; intros st Hin.
  { simpl. rewrite append_empty_r. destruct st. simpl in *. by subst. }
  unfold withoutQuotes. simpl. destruct (Ascii.eqb_spec c doubleQuote) as [->|Hne].
  - rewrite !append_cons. change ("" ++ ?x) with x. cbn [list_ascii_of_string fold_left].
    change (parseChar st doubleQuote)
      with {| result := result st; current := current st; inQuotes := negb (inQuotes st) |}.
    rewrite Hin. simpl negb.
    change (parseChar {| result := result st; current := current st; inQuotes := false |}
                      doubleQuote)
      with {| result := result st; current := current st; inQuotes := true |}.
    by rewrite IH.
  - simpl. destruct (parseChar_cases st c) as [[-> H]|[(Hnq & -> & Hf & H)|(Hnq & Hcomma & H)]];
      [done|congruence|].
    rewrite H, IH; cbn [result current inQuotes]; [|done].
    by rewrite append_snoc.
Qed.

Lemma parse_cell (cell : any) (st : lineState) :
  inQuotes st = false ->
  fold_left parseChar (list_ascii_of_string (csvCell cell)) st
  = {| result := result st; current := current st ++ withoutQuotes (exportedText cell);
       inQuotes := false |}.
Proof.
  intros Hin. unfold csvCell. fold (exportedText cell).
  destruct (includes (exportedText cell) "," || _ || _) eqn:E.
  - rewrite !append_cons. change ("" ++ ?x) with x. cbn [list_ascii_of_string fold_left].
    rewrite list_ascii_of_string_app, fold_left_app.
    change (parseChar st doubleQuote)
      with {| result := result st; current := current st; inQuotes := negb (inQuotes st) |}.
    rewrite Hin. simpl negb. by rewrite parse_doubled.
  - apply orb_false_iff in E as [E _]. apply orb_false_iff in E as [Hcomma Hquote].
    apply includes_char in Hcomma, Hquote.
    rewrite parse_plain, Hin, withoutQuotes_plain; auto.
Qed.

Lemma parse_row (cell : any) (row : list any) (st : lineState) :
  inQuotes st = false ->
  let st' := fold_left parseChar (list_ascii_of_string (csvRow (cell :: row))) st in
  (result st' ++ [trim (current st')]
   = result st ++ trim (current st ++ withoutQuotes (exportedText cell))
                  :: map (fun cell => trim (withoutQuotes (exportedText cell))) row)%list.
Proof.
  revert cell st. induction row as [|next row IH]; intros cell st Hin.
  { unfold csvRow. simpl. by rewrite parse_cell. }
  change (csvRow (cell :: next :: row)) with (csvCell cell ++ String "," (csvRow (next :: row))).
  simpl. rewrite list_ascii_of_string_app, fold_left_app, parse_cell by done.
  cbn [list_ascii_of_string fold_left].
  change (parseChar _ ","%char)
    with {| result := result st ++ [trim (current st ++ withoutQuotes (exportedText cell))];
            current := ""; inQuotes := false |}.
  specialize (IH next {| result := result st
                                   ++ [trim (current st ++ withoutQuotes (exportedText cell))];
                         current := ""; inQuotes := false |} eq_refl).
  simpl in IH. rewrite IH. by rewrite <- app_assoc.
Qed.

(** X21. Reading back a row written by the CSV export gives, for each
    cell, the text [String(cell || '')] without its double quotes and
    trimmed; commas and line feeds inside a cell are kept and do not
    split it. *)
Theorem exported_row_reads_back (row : list any) :
  row <> [] ->
  parseCSVLine (csvRow row)
  = map (fun cell => trim (withoutQuotes (exportedText cell))) row.
Proof.
  destruct row as [|cell row]; [done|]. intros _. unfold parseCSVLine.
  by rewrite (parse_row cell row {| result := []; current := ""; inQuotes := false |}).
Qed.

(** X21 (witness): a row with a comma and a double quote inside its cells. *)
Lemma exported_row_reads_back_witness :
  parseCSVLine (csvRow [Str "Doe, Jane"; Num 0; Str (" 5" ++ String doubleQuote " tall")])
  = map (fun cell => trim (withoutQuotes (exportedText cell)))
        [Str "Doe, Jane"; Num 0; Str (" 5" ++ String doubleQuote " tall")].
Proof.
  apply (exported_row_reads_back
           [Str "Doe, Jane"; Num 0; Str (" 5" ++ String doubleQuote " tall")]).
  discriminate.
Defined.

(** X22. Writing the fields of a CSV line with the export and reading
    the row back gives the same fields. *)
Theorem parsed_line_survives_export (line : string) :
  parseCSVLine (csvRow (map Str (parseCSVLine line))) = parseCSVLine line.
Proof.
  assert (Hgood : Forall (fun field => trim field = field /\ countChar doubleQuote field = 0)
                         (parseCSVLine line)).
  { unfold parseCSVLine.
    destruct (parse_fold_fields line {| result := []; current := ""; inQuotes := false |})
      as [H1 H2]; [constructor|done|].
    apply Forall_app. split; [done|]. constructor; [|constructor]. split; [apply trim_idem|].
    apply countChar_zero, trim_chars, countChar_zero, H2. }
  destruct (parseCSVLine line) as [|field fields] eqn:E.
  { unfold parseCSVLine in E. by destruct (result _). }
  cbn [map]. unfold parseCSVLine at 1.
  rewrite (parse_row (Str field) (map Str fields)
             {| result := []; current := ""; inQuotes := false |}) by done.
  cbn [result current]. change ("" ++ ?x) with x. rewrite app_nil_l, map_map.
  assert (Hback : forall f, trim f = f /\ countChar doubleQuote f = 0 ->
                            trim (withoutQuotes (exportedText (Str f))) = f).
  { intros f [Htrim Hquote]. unfold exportedText. simpl.
    destruct (String.eqb_spec f "") as [->|_]; [done|]. simpl.
    by rewrite withoutQuotes_plain. }
  apply Forall_cons in Hgood as [Hfield Hfields]. rewrite (Hback field Hfield). f_equal.
  rewrite <- (map_id fields) at 2.
  apply map_ext_Forall. eapply Forall_impl; [exact Hfields|]. intros f Hf. by apply Hback.
Qed.

(** ** The column summary of a loaded table *)

Lemma length_filter_complement (l : list any) :
  length (filter (fun v => nonNull v) l) + length (filter (fun v => negb (nonNull v)) l)
  = length l.
Proof.
  induction l as [|v l IH]; [done|]. rewrite !filter_cons.
  destruct (nonNull v); simpl; lia.
Qed.

Lemma createDataSummary_columns (dateParse : string -> float) (headers : list string)
    (data : list (list any)) (fileName : string) (index : nat) (c : DataColumn) :
  columns (createDataSummary dateParse headers data fileName) !! index = Some c ->
  exists header,
    headers !! index = Some header /\
    name c = header /\
    values c = map (fun row => default Undefined (row !! index)) data /\
    type c = detectColumnType dateParse (filter (fun v => nonNull v) (values c)) /\
    missingCount c = length (values c) - length (filter (fun v => nonNull v) (values c)).
Proof.
  unfold createDataSummary. simpl. rewrite list_lookup_imap.
  destruct (headers !! index) as [header|]; [|done]. simpl. intros [= <-]. eauto 10.
Qed.

Lemma createDataSummary_headers (dateParse : string -> float) (headers : list string)
    (data : list (list any)) (fileName : string) :
  let summary := createDataSummary dateParse headers data fileName in
  totalRows summary = length data /\
  totalColumns summary = length (columns summary) /\
  map name (columns summary) = headers.
Proof.
  intros summary. split; [done|]. split.
  - unfold summary, createDataSummary. simpl. by rewrite length_imap.
  - apply list_eq. intros index. rewrite list_lookup_fmap.
    unfold summary, createDataSummary. simpl. rewrite list_lookup_imap.
    by destruct (headers !! index).
Qed.

(** X23. The summary that [createDataSummary] builds is rectangular
    whatever the rows are: one column for each header, in order, each
    with one value for each row (a row that is too short reads as
    undefined there). The missing count of a column is the number of
    its cells that are null, undefined or the empty string; a column
    with only such cells has the type text. *)
Theorem data_summary_shape (dateParse : string -> float) (headers : list string)
    (data : list (list any)) (fileName : string) :
  let summary := createDataSummary dateParse headers data fileName in
  totalRows summary = length data /\
  totalColumns summary = length (columns summary) /\
  map name (columns summary) = headers /\
  Forall (fun c => length (values c) = length data /\
                   missingCount c = length (filter (fun v => negb (nonNull v)) (values c)) /\
                   (missingCount c = length data -> type c = text))
         (columns summary).
Proof.
  intros summary.
  destruct (createDataSummary_headers dateParse headers data fileName) as (Hrows & Hcols & Hnames).
  split; [done|]. split; [done|]. split; [done|].
  apply Forall_lookup. intros index c Hc. {
    apply createDataSummary_columns in Hc as (header & _ & _ & Hvalues & Htype & Hcount).
    assert (Hlen : length (values c) = length data) by (by rewrite Hvalues, length_map).
    pose proof (length_filter_complement (values c)) as Hsplit.
    split; [done|]. split; [lia|]. intros Hall. rewrite Htype.
    assert (filter (fun v => nonNull v) (values c) = []) as ->; [|done].
    apply length_zero_iff_nil. lia. }
Qed.

(** ** Reading a CSV file *)

Lemma split_not_nil (sep : ascii) (s : string) : split sep s <> [].
Proof. induction s as [|c s IH]; simpl; [done|]. by repeat case_match. Qed.

Lemma trimmed_field_missing (s : string) :
  trim s = s -> isMissing (Str s) = negb (nonNull (Str s)).
Proof.
  intros Hs. unfold isMissing, nonNull, strictEquals. simpl. rewrite Hs.
  by destruct (String.eqb s "").
Qed.

(** X24. What [processCSV] returns. With fewer than two lines that are
    not blank it throws. Otherwise the table is rectangular, with one
    column for each field of the first line; its rows are the later
    lines that have as many fields, so there are fewer rows than
    non-blank lines; every cell is a trimmed string without double
    quotes, so that the cleaner's test for a missing cell and the
    analyzer's test agree on it. *)
Theorem csv_table_shape (dateParse : string -> float) (text fileName : string) :
  let lines := filter (fun line => negb (String.eqb (trim line) "")) (split newline text) in
  match processCSV dateParse text fileName with
  | Throw message =>
      length lines < 2 /\
      message = "File must contain at least a header row and one data row."
  | Return data =>
      2 <= length lines /\
      totalRows data < length lines /\
      map name (columns data) = parseCSVLine (nth 0 lines "") /\
      totalColumns data = length (columns data) /\
      Forall (fun c =>
                length (values c) = totalRows data /\
                Forall (fun v => exists s, v = Str s /\ trim s = s /\
                                           countChar doubleQuote s = 0 /\
                                           isMissing v = negb (nonNull v))
                       (values c))
             (columns data)
  end.
Proof.
  intros lines. unfold processCSV. fold lines.
  destruct (Nat.ltb_spec (length lines) 2) as [Hlt|Hge]; [done|].
  set (headers := parseCSVLine (nth 0 lines "")).
  set (rows := filter (fun row => (length row =? length headers)%nat)
                      (map parseCSVLine (skipn 1 lines))).
  pose proof (createDataSummary_headers dateParse headers (map (map Str) rows) fileName)
    as (Hrows & Hcols & Hnames).
  split; [done|]. split; [|split; [done|split; [done|]]].
  - rewrite Hrows, length_map. unfold rows.
    eapply Nat.le_lt_trans; [apply length_filter|]. rewrite length_map, length_skipn. lia.
  - apply Forall_lookup. intros index c Hc.
    apply createDataSummary_columns in Hc as (header & Hheader & _ & -> & _).
    split; [by rewrite Hrows, !length_map|].
    apply Forall_map, Forall_map, Forall_forall. intros row Hrow. simpl.
    apply list_elem_of_filter in Hrow as [Hwidth Hrow].
    apply list_elem_of_fmap in Hrow as (line & -> & _).
    apply Is_true_true, Nat.eqb_eq in Hwidth.
    apply lookup_lt_Some in Hheader. rewrite <- Hwidth in Hheader.
    apply lookup_lt_is_Some in Hheader as [field Hfield].
    rewrite list_lookup_fmap, Hfield. simpl.
    assert (Hgood : trim field = field /\ countChar doubleQuote field = 0).
    { assert (Forall (fun field => trim field = field /\ countChar doubleQuote field = 0)
                     (parseCSVLine line)) as Hall.
      { unfold parseCSVLine.
        destruct (parse_fold_fields line {| result := []; current := ""; inQuotes := false |})
          as [H1 H2]; [constructor|done|].
        apply Forall_app. split; [done|]. constructor; [|constructor].
        split; [apply trim_idem|].
        apply countChar_zero, trim_chars, countChar_zero, H2. }
      rewrite Forall_lookup in Hall. by apply (Hall index). }
    exists field. destruct Hgood as [Htrim Hquote].
    split; [done|]. split; [done|]. split; [done|]. by apply trimmed_field_missing.
Qed.

(** ** The text of an exported cell *)

Lemma truthy_text_not_empty (cell : any) : truthy cell = true -> ToString cell <> "".
Proof.
  destruct cell as [| |x|s|b]; simpl; try done.
  - intros _ H. apply (numberToString_not_blank x). by rewrite H.
  - by destruct (String.eqb_spec s "").
  - by destruct b.
Qed.

(** X25. The CSV export writes an empty field exactly for the cells
    that count as false: null, undefined, the empty string, [false],
    NaN and also the number zero. *)
Theorem falsy_cells_are_exported_empty (cell : any) :
  (csvCell cell = "" <-> truthy cell = false) /\
  (truthy cell = false <->
   cell = Null \/ cell = Undefined \/ cell = Str "" \/ cell = Bool false \/
   exists x, cell = Num x /\ (PrimFloat.eqb x PrimFloat.zero = true \/ isNaN x = true)).
Proof.
  split.
  - split.
    + intros H. destruct (truthy cell) eqn:E; [|done]. exfalso.
      pose proof (truthy_text_not_empty cell E) as Hne.
      revert H. unfold csvCell. rewrite E. cbv zeta.
      case_match; [by rewrite append_cons|done].
    + intros H. unfold csvCell. by rewrite H.
  - destruct cell as [| |x|s|b]; simpl.
    + split; [by left|done].
    + split; [by right; left|done].
    + rewrite negb_false_iff, orb_true_iff. split.
      * intros H. do 4 right. eauto.
      * intros [H|[H|[H|[H|(y & [= <-] & H)]]]]; done.
    + rewrite negb_false_iff. destruct (String.eqb_spec s "") as [->|Hne]; split; try done.
      * intros _. by right; right; left.
      * intros [H|[H|[[= H]|[H|(y & H & _)]]]]; done.
    + destruct b; split; try done.
      * intros [H|[H|[H|[H|(y & H & _)]]]]; done.
      * intros _. by right; right; right; left.
Qed.

(** ** The shape of the correlation matrix *)

Lemma calculateCorrelations_rows (data : DataSummary) :
  let cols := filter (fun col => colType_eqb (type col) numerical) (columns data) in
  calculateCorrelations data
  = fold_left (fun m col1 => <[name col1 := correlationRow cols col1]> m) cols ∅.
Proof.
  unfold calculateCorrelations. simpl. apply fold_left_ext_in. intros m c. f_equal.
  unfold correlationRow. apply fold_left_ext_in. intros row c2. unfold correlationEntry.
  by destruct (String.eqb (name c) (name c2)).
Qed.

Lemma fold_insert_dom {V : Type} (f : DataColumn -> V) (l : list DataColumn)
    (m0 : gmap string V) :
  dom (fold_left (fun m c => <[name c := f c]> m) l m0)
  = dom m0 ∪ list_to_set (map name l).
Proof.
  revert m0. induction l as [|c l IH]; intros m0; simpl.
  - symmetry. apply (right_id_L ∅ (∪)).
  - rewrite IH, dom_insert_L.
    rewrite (comm_L (∪) {[name c]} (dom m0)), <- (assoc_L (∪)). done.
Qed.

Lemma fold_insert_value {V : Type} (f : DataColumn -> V) (l : list DataColumn)
    (m0 : gmap string V) (k : string) (v : V) :
  fold_left (fun m c => <[name c := f c]> m) l m0 !! k = Some v ->
  m0 !! k = Some v \/ exists c, c ∈ l /\ name c = k /\ v = f c.
Proof.
  revert m0. induction l as [|c l IH]; intros m0; simpl; [by left|].
  intros H. apply IH in H as [H|(c' & Hc' & Hk & Hv)].
  - destruct (decide (name c = k)) as [Hk|Hk].
    + rewrite <- Hk, lookup_insert_eq in H. injection H as <-.
      right. exists c. split; [by left|done].
    + rewrite lookup_insert_ne in H by done. by left.
  - right. exists c'. split; [by right|done].
Qed.

(** X26. The correlation matrix is square over the names of the
    numerical columns: it has a row exactly for each of these names, and
    every row has an entry exactly for each of them. *)
Theorem correlation_matrix_is_square (data : DataSummary) :
  let m := calculateCorrelations data in
  dom m = numericalNames data /\
  forall k row, m !! k = Some row -> dom row = numericalNames data.
Proof.
  simpl. rewrite calculateCorrelations_rows. unfold numericalNames.
  set (cols := filter (fun col => colType_eqb (type col) numerical) (columns data)).
  split.
  - rewrite fold_insert_dom, dom_empty_L. apply (left_id_L ∅ (∪)).
  - intros k row Hrow. apply fold_insert_value in Hrow as [Hrow|(c & _ & _ & ->)]; [done|].
    unfold correlationRow. rewrite fold_insert_dom, dom_empty_L. apply (left_id_L ∅ (∪)).
Qed.

(** ** Strong correlations *)

Lemma correlationEntry_sym (c1 c2 : DataColumn) :
  correlationEntry c1 c2 = correlationEntry c2 c1.
Proof.
  unfold correlationEntry. rewrite (String.eqb_sym (name c2)).
  by rewrite calculatePearsonCorrelation_sym.
Qed.

Lemma numericalNames_elem (data : DataSummary) (k : string) :
  k ∈ numericalNames data
  <-> exists c, c ∈ filter (fun col => colType_eqb (type col) numerical) (columns data)
                /\ name c = k.
Proof.
  unfold numericalNames. rewrite elem_of_list_to_set. split.
  - intros H. apply list_elem_of_fmap in H as (c & -> & Hc). eauto.
  - intros (c & Hc & <-). apply list_elem_of_fmap. eauto.
Qed.

(** The entry at (k1, k2) is also the entry at (k2, k1). *)
Lemma correlation_matrix_entries (data : DataSummary) (k1 k2 : string)
    (row : gmap string float) (v : float) :
  calculateCorrelations data !! k1 = Some row -> row !! k2 = Some v ->
  k1 ∈ numericalNames data /\ k2 ∈ numericalNames data /\
  exists row', calculateCorrelations data !! k2 = Some row' /\ row' !! k1 = Some v.
Proof.
  rewrite calculateCorrelations_rows. simpl.
  set (cols := filter (fun col => colType_eqb (type col) numerical) (columns data)).
  intros Hrow Hv.
  assert (H1 : exists c, c ∈ cols /\ name c = k1).
  { apply fold_insert_value in Hrow as [Hrow|(c & Hc & Hk & _)]; [done|eauto]. }
  destruct (fold_insert_last cols k1 H1) as (C1 & _ & HC1 & Hlast1).
  rewrite Hlast1 in Hrow. injection Hrow as <-.
  assert (H2 : exists c, c ∈ cols /\ name c = k2).
  { apply fold_insert_value in Hv as [Hv|(c & Hc & Hk & _)]; [done|eauto]. }
  destruct (fold_insert_last cols k2 H2) as (C2 & _ & HC2 & Hlast2).
  unfold correlationRow in Hv. rewrite Hlast2 in Hv. injection Hv as <-.
  split; [by apply numericalNames_elem|]. split; [by apply numericalNames_elem|].
  exists (correlationRow cols C2). split; [apply Hlast2|].
  unfold correlationRow. rewrite Hlast1. f_equal. apply correlationEntry_sym.
Qed.

Lemma strongCorrelations_elem (m : gmap string (gmap string float)) (k1 k2 : string)
    (v : float) :
  (k1, k2, v) ∈ strongCorrelations m
  <-> exists row, m !! k1 = Some row /\ row !! k2 = Some v /\ k1 <> k2 /\
                  PrimFloat.ltb (decToFloat false 7 (-1)) (PrimFloat.abs v) = true.
Proof.
  unfold strongCorrelations. rewrite list_elem_of_In, in_flat_map. split.
  - intros ([k row] & Hrow & Hin). apply in_map_iff in Hin as ([k' v'] & [= -> -> ->] & Hin).
    apply List.filter_In in Hin as [Hin Hcond].
    apply list_elem_of_In, elem_of_map_to_list in Hrow, Hin.
    apply andb_true_iff in Hcond as [Hne Hstrong].
    exists row. repeat split; try done.
    intros ->. by rewrite String.eqb_refl in Hne.
  - intros (row & Hrow & Hv & Hne & Hstrong). exists (k1, row). split.
    + by apply list_elem_of_In, elem_of_map_to_list.
    + apply in_map_iff. exists (k2, v). split; [done|]. apply List.filter_In. split.
      * by apply list_elem_of_In, elem_of_map_to_list.
      * apply andb_true_iff. split; [|done].
        apply negb_true_iff. by apply String.eqb_neq.
Qed.

Lemma flat_map_bind {A B : Type} (f : A -> list B) (l : list A) : flat_map f l = l ≫= f.
Proof. induction l as [|x l IH]; [done|]. simpl. by rewrite IH. Qed.

Lemma NoDup_List_filter {A : Type} (p : A -> bool) (l : list A) :
  NoDup l -> NoDup (List.filter p l).
Proof.
  assert (List.filter p l = filter (fun x => p x) l) as ->; [|apply NoDup_filter].
  induction l as [|x l IH]; [done|]. simpl. rewrite filter_cons, IH. by destruct (p x).
Qed.

Lemma strongCorrelations_NoDup (m : gmap string (gmap string float)) :
  NoDup (strongCorrelations m).
Proof.
  unfold strongCorrelations. rewrite flat_map_bind. apply NoDup_bind.
  - intros [k1 r1] [k2 r2] [[a b] v] H1 H2 Hy1 Hy2.
    apply list_elem_of_In, in_map_iff in Hy1 as ([b1 v1] & [= -> -> ->] & Hy1).
    apply list_elem_of_In, in_map_iff in Hy2 as ([b2 v2] & [= -> -> ->] & Hy2).
    apply elem_of_map_to_list in H1, H2. congruence.
  - intros [k row] _. apply (NoDup_fmap_2_strong (fun '(col2, corr) => (k, col2, corr))).
    { intros [a v] [b w] _ _ [= -> ->]. done. }
    apply NoDup_List_filter, NoDup_map_to_list.
  - apply NoDup_map_to_list.
Qed.

Lemma length_filter_split {A : Type} (p q : A -> bool) (l : list A) :
  Forall (fun x => p x = negb (q x)) l ->
  length l = length (List.filter p l) + length (List.filter q l).
Proof.
  induction 1 as [|x l Hx _ IH]; [done|]. simpl. rewrite Hx.
  destruct (q x); simpl; lia.
Qed.

(** X27. Every strong correlation is listed twice, once in each order
    of its two columns, so that the number of pairs that the analysis
    recommendation reports is even: twice the number of correlated
    pairs. The two columns are numerical columns with different
    names. *)
Theorem strong_correlations_are_counted_twice (data : DataSummary) :
  let strong := strongCorrelations (calculateCorrelations data) in
  Nat.Even (length strong) /\
  Forall (fun '(col1, col2, corr) =>
            col1 <> col2 /\ col1 ∈ numericalNames data /\ col2 ∈ numericalNames data /\
            (col2, col1, corr) ∈ strong)
         strong.
Proof.
  intros strong.
  assert (Hsym : forall a b v, (a, b, v) ∈ strong ->
             a <> b /\ a ∈ numericalNames data /\ b ∈ numericalNames data /\
             (b, a, v) ∈ strong).
  { intros a b v H. apply strongCorrelations_elem in H as (row & Hrow & Hv & Hne & Hstrong).
    destruct (correlation_matrix_entries data a b row v Hrow Hv) as (Ha & Hb & row' & Hrow' & Hv').
    split; [done|]. split; [done|]. split; [done|].
    apply strongCorrelations_elem. exists row'. by repeat split. }
  split; [|apply Forall_forall; intros [[a b] v] H; by apply Hsym].
  set (before := fun entry : string * string * float =>
                   let '(col1, col2, _) := entry in Pos.ltb (encode col1) (encode col2)).
  set (after := fun entry : string * string * float =>
                  let '(col1, col2, _) := entry in Pos.ltb (encode col2) (encode col1)).
  set (swap := fun entry : string * string * float =>
                 let '(col1, col2, corr) := entry in (col2, col1, corr)).
  assert (Hsplit : length strong
                   = length (List.filter before strong) + length (List.filter after strong)).
  { apply length_filter_split, Forall_forall. intros [[a b] v] H.
    apply Hsym in H as (Hne & _). simpl.
    assert (encode a <> encode (A := string) b) by (intros E; by apply (inj encode) in E).
    destruct (Pos.ltb_spec (encode a) (encode b)), (Pos.ltb_spec (encode b) (encode a));
      simpl; [lia|done|done|lia]. }
  assert (Hperm : swap <$> List.filter before strong ≡ₚ List.filter after strong).
  { apply NoDup_Permutation.
    - apply NoDup_fmap_2_strong.
      + intros [[a b] v] [[a' b'] v'] _ _ [= -> -> ->]. done.
      + apply NoDup_List_filter, strongCorrelations_NoDup.
    - apply NoDup_List_filter, strongCorrelations_NoDup.
    - intros [[a b] v]. rewrite list_elem_of_fmap. split.
      + intros ([[a' b'] v'] & [= -> -> ->] & H).
        apply list_elem_of_In, List.filter_In in H as [H Hlt].
        apply list_elem_of_In, Hsym in H as (_ & _ & _ & H).
        apply list_elem_of_In, List.filter_In. split; [by apply list_elem_of_In|done].
      + intros H. apply list_elem_of_In, List.filter_In in H as [H Hlt].
        apply list_elem_of_In, Hsym in H as (_ & _ & _ & H).
        exists (b, a, v). split; [done|].
        apply list_elem_of_In, List.filter_In. split; [by apply list_elem_of_In|done]. }
  apply Permutation_length in Hperm. rewrite length_fmap in Hperm.
  exists (length (List.filter before strong)). lia.
Qed.

(** ** The analysis of a table *)

Lemma length_outliers (values : list any) :
  length (outliers (calculateNumericalStats values))
  <= length (filter (fun v => isNumeric v) values).
Proof.
  unfold calculateNumericalStats, statsOfNumbers.
  destruct (length _ =? 0)%nat; simpl; [lia|].
  etrans; [apply List.filter_length_le|]. by rewrite length_map.
Qed.

Lemma detectAnomalies_outlier (data : DataSummary) (columnStats : list ColumnStats) (a : Anomaly) :
  a ∈ detectAnomalies data columnStats -> anomaly a = outlier ->
  exists stat stats, stat ∈ columnStats /\ numericalStats stat = Some stats /\
                     column a = statName stat /\ 0 < length (outliers stats) /\
                     affected a = Some (length (outliers stats)).
Proof.
  unfold detectAnomalies. rewrite !elem_of_app, !list_elem_of_In, !in_flat_map.
  intros [(c & _ & Ha)|[(stat & Hstat & Ha)|(c & _ & Ha)]] Hkind.
  - case_match; [|done]. destruct Ha as [<-|[]]. done.
  - destruct (numericalStats stat) as [stats|] eqn:E; [|done].
    destruct (Nat.ltb_spec 0 (length (outliers stats))); [|done].
    destruct Ha as [<-|[]]. exists stat, stats. apply list_elem_of_In in Hstat. done.
  - case_match; [|done]. destruct Ha as [<-|[]]. done.
Qed.

Lemma generateRecommendations_analysis (data : DataSummary) (columnStats : list ColumnStats)
    (anomalies : list Anomaly) (r : Recommendation) :
  r ∈ generateRecommendations data columnStats anomalies -> category r = analysis ->
  strongCorrelations (calculateCorrelations data) <> [].
Proof.
  unfold generateRecommendations. rewrite !elem_of_app. intros [H|[H|[H|H]]] Hcat.
  - case_match; [|by apply elem_of_nil in H].
    apply list_elem_of_singleton in H. by subst.
  - destruct (2 <=? _)%nat; [|by apply elem_of_nil in H]. cbv zeta in H.
    destruct (strongCorrelations (calculateCorrelations data)); [|done].
    by apply elem_of_nil in H.
  - case_match; [|by apply elem_of_nil in H].
    apply list_elem_of_singleton in H. by subst.
  - apply list_elem_of_In, in_flat_map in H as (stat & _ & H).
    destruct (categoricalStats stat); [|done]. case_match; [|done].
    destruct H as [<-|[]]. done.
Qed.

(** X28. What [analyzeData] puts together for a table: one entry of
    column statistics for each column and a correlation matrix over the
    numerical columns; an outlier anomaly always names a numerical
    column of the table and counts at least one and at most as many
    outliers as the column has numeric cells; and a recommendation of
    the category analysis is only given when two numerical columns with
    different names exist. *)
Theorem analysis_of_a_table (data : DataSummary) :
  let result := analyzeData data in
  length (columnStats result) = length (columns data) /\
  dom (correlations result) = numericalNames data /\
  Forall (fun a =>
            anomaly a = outlier ->
            exists c n, c ∈ columns data /\ type c = numerical /\ column a = name c /\
                        affected a = Some n /\
                        0 < n <= length (filter (fun v => isNumeric v) (values c)))
         (anomalies result) /\
  Forall (fun r =>
            category r = analysis ->
            exists col1 col2, col1 ∈ numericalNames data /\ col2 ∈ numericalNames data /\
                              col1 <> col2)
         (recommendations result).
Proof.
  simpl. split; [apply length_map|]. split; [|split].
  - rewrite calculateCorrelations_rows, fold_insert_dom, dom_empty_L.
    apply (left_id_L ∅ (∪)).
  - apply Forall_forall. intros a Ha Hkind.
    destruct (detectAnomalies_outlier _ _ a Ha Hkind)
      as (stat & stats & Hstat & Hnum & Hcol & Hpos & Hcount).
    apply list_elem_of_fmap in Hstat as (c & -> & Hc). simpl in *.
    destruct (type c) eqn:Ht; simpl in Hnum; try done. injection Hnum as <-.
    exists c, (length (outliers (calculateNumericalStats (values c)))).
    repeat split; try done. apply length_outliers.
  - apply Forall_forall. intros r Hr Hcat.
    pose proof (generateRecommendations_analysis _ _ _ r Hr Hcat) as Hstrong.
    destruct (strongCorrelations (calculateCorrelations data)) as [|[[k1 k2] v] strong] eqn:E;
      [done|].
    assert (Hin : (k1, k2, v) ∈ strongCorrelations (calculateCorrelations data))
      by (rewrite E; by left).
    apply strongCorrelations_elem in Hin as (row & Hrow & Hv & Hne & _).
    destruct (correlation_matrix_entries data k1 k2 row v Hrow Hv) as (H1 & H2 & _).
    eauto.
Qed.

(** ** Detecting the type of a column *)

Lemma zero_ratio_not_above (x threshold : float) :
  PrimFloat.ltb threshold PrimFloat.zero = false ->
  PrimFloat.ltb threshold (PrimFloat.div PrimFloat.zero x) = false.
Proof.
  rewrite !ltb_spec, div_spec. change (Prim2SF PrimFloat.zero) with (S754_zero false).
  destruct (Prim2SF threshold) as [s|s| |s m e], (Prim2SF x) as [s'|s'| |s' m' e'];
    simpl; try done; by destruct s'.
Qed.

(** With at most two values, of which at least one is distinct, the
    share of distinct values is not below 0.5. *)
Lemma unique_ratio_of_few_values (unique n : nat) :
  n <= 2 -> unique <= n -> (n <> 0 -> 1 <= unique) ->
  PrimFloat.ltb (PrimFloat.div (natToFloat unique) (natToFloat n)) (decToFloat false 5 (-1))
  = false.
Proof.
  intros Hn Hu Hpos.
  destruct n as [|[|[|n]]]; try lia; destruct unique as [|[|[|unique]]]; try lia; by vm_compute.
Qed.

(** X29. What the detected type of a column tells about its values. A
    column without values is text. A column detected as numerical has
    a value that reads as a number, and one detected as a date has a
    value that the host parses as a date. A column detected as
    categorical has at least three values and fewer than twenty distinct
    ones. *)
Theorem detected_type_facts (dateParse : string -> float) (values : list any) :
  match detectColumnType dateParse values with
  | text => True
  | numerical => exists v, v ∈ values /\ isNaN (Number v) = false
  | date => exists v, v ∈ values /\ isNaN (dateParse (ToString v)) = false
  | categorical => 3 <= length values /\ setSize values < 20
  end /\
  detectColumnType dateParse [] = text.
Proof.
  split; [|done]. unfold detectColumnType.
  destruct (length values =? 0)%nat; [done|].
  destruct (PrimFloat.ltb _ (PrimFloat.div (natToFloat (length (filter _ values))) _)) eqn:Hnum.
  { destruct (filter _ values) as [|v k] eqn:E.
    - by rewrite zero_ratio_not_above in Hnum.
    - assert (v ∈ v :: k) as Hin by (by left). rewrite <- E in Hin.
      apply list_elem_of_filter in Hin as [Hnumeric Hin]. exists v. split; [done|].
      apply andb_prop_elim in Hnumeric as [Hnan _]. by apply negb_prop_elim, Is_true_false in Hnan. }
  clear Hnum.
  destruct (PrimFloat.ltb _ (PrimFloat.div (natToFloat (length (filter _ values))) _)) eqn:Hdate.
  { destruct (filter _ values) as [|v k] eqn:E.
    - by rewrite zero_ratio_not_above in Hdate.
    - assert (v ∈ v :: k) as Hin by (by left). rewrite <- E in Hin.
      apply list_elem_of_filter in Hin as [Hparsed Hin]. exists v. split; [done|].
      by apply negb_prop_elim, Is_true_false in Hparsed. }
  destruct (_ && _) eqn:Hcat; [|done].
  apply andb_true_iff in Hcat as [Hratio Hunique]. split; [|by apply Nat.ltb_lt].
  destruct (setSize_bounds values) as [Hle Hpos].
  destruct (Nat.le_gt_cases 3 (length values)) as [|Hfew]; [done|].
  rewrite unique_ratio_of_few_values in Hratio; [done|lia|done|].
  intros Hn. apply Hpos. intros ->. done.
Qed.

(** ** Imputing twice *)

(** X30. [imputeMissingValues] is idempotent: on the values it
    returns, a second imputation changes nothing and counts no imputed
    value. *)
Theorem imputation_is_idempotent (values : list any) (columnType : colType) :
  let '(imputedValues, _, _) := imputeMissingValues values columnType in
  exists method, imputeMissingValues imputedValues columnType = (imputedValues, 0, method).
Proof.
  destruct (decide (filter (fun v => negb (isMissing v)) values = [])) as [Hnone|Hsome].
  - unfold imputeMissingValues. rewrite Hnone. simpl. rewrite Hnone. simpl. eauto.
  - destruct (imputation_value_not_missing values columnType Hsome)
      as (m & method & _ & Hm & ->).
    set (imputedValues := map (fun v => if isMissing v then m else v) values).
    assert (Hall : Forall (fun v => isMissing v = false) imputedValues).
    { apply Forall_map, Forall_forall. intros v _. simpl. by destruct (isMissing v) eqn:E. }
    destruct (imputation_value_not_missing imputedValues columnType)
      as (m' & method' & _ & _ & ->).
    { intros Hnil. destruct values as [|v values]; [done|].
      apply Forall_cons in Hall as [Hv _].
      assert (Hin : (if isMissing v then m else v)
                    ∈ filter (fun v => negb (isMissing v)) imputedValues).
      { apply filter_not_missing_elem. split; [by left|done]. }
      rewrite Hnil in Hin. by apply elem_of_nil in Hin. }
    exists method'. rewrite (filter_missing_none _ Hall). f_equal. f_equal.
    rewrite <- (map_id imputedValues) at 2. apply map_ext_Forall.
    eapply Forall_impl; [exact Hall|]. intros v Hv. simpl. by rewrite Hv.
Qed.

(** ** The missing-value tests, component by component *)






